(** * A shallow embedding of [my_bot.py]

    The bot walks the paginated menus of a remote search bot, folds the
    buttons it sees into one entry per canonical title, renders a menu of
    its own whose buttons carry the token [get:<page>:<index>], and on a
    click replays the conversation up to that page.

    Python values are modelled as follows.
    - [str] is a sequence of Unicode code points ([list N]), so that [len]
      counts code points and the ellipsis U+2026 has length one.
    - [int] is [Z].
    - [None]-or-value is [option].
    - the insertion-ordered [dict] of the discovery run is an association
      list whose update keeps the position of an existing key.
    - awaited calls run in a state-and-exception monad over a [world] that
      scripts the answers of the two Telegram endpoints and logs every call
      the program issues. *)

From Stdlib Require Import String Ascii.
From Stdlib Require Import List ZArith NArith Bool Lia.
From Stdlib Require Import DecimalN DecimalZ DecimalPos.
Import ListNotations.

Set Implicit Arguments.

(** ** Python strings *)

Definition char := N.
Definition pystr := list char.

(** An ASCII literal of the source as a code point sequence. *)
Definition py (s : string) : pystr := map N_of_ascii (list_ascii_of_string s).

(** U+2026, the one-character marker appended at line 91. *)
Definition ellipsis : char := 8230%N.
(** U+201C and U+201D, the quotes of the status lines. *)
Definition ldquo : char := 8220%N.
Definition rdquo : char := 8221%N.

Fixpoint str_eqb (a b : pystr) : bool :=
  match a, b with
  | [], [] => true
  | x :: a', y :: b' => N.eqb x y && str_eqb a' b'
  | _, _ => false
  end.

(** [s.startswith(p)] *)
Fixpoint startswith (s p : pystr) {struct p} : bool :=
  match p, s with
  | [], _ => true
  | c :: p', d :: s' => N.eqb c d && startswith s' p'
  | _ :: _, [] => false
  end.

(** [needle in hay] for strings *)
Fixpoint contains (needle hay : pystr) : bool :=
  startswith hay needle ||
  match hay with
  | [] => false
  | _ :: hay' => contains needle hay'
  end.

(** [str.isspace] on one code point: the characters [strip], [rstrip] and
    [split()] remove (bidirectional class WS, B or S, or category Zs). *)
Definition isspace (c : char) : bool :=
  ((9 <=? c) && (c <=? 13) || (28 <=? c) && (c <=? 32) ||
   (c =? 133) || (c =? 160) || (c =? 5760) ||
   (8192 <=? c) && (c <=? 8202) ||
   (c =? 8232) || (c =? 8233) || (c =? 8239) || (c =? 8287) ||
   (c =? 12288))%N.

Fixpoint lstrip (s : pystr) : pystr :=
  match s with
  | c :: s' => if isspace c then lstrip s' else s
  | [] => []
  end.

Definition rstrip (s : pystr) : pystr := rev (lstrip (rev s)).
Definition strip (s : pystr) : pystr := rstrip (lstrip s).

(** [sep.join(parts)] *)
Fixpoint join (sep : pystr) (parts : list pystr) : pystr :=
  match parts with
  | [] => []
  | [p] => p
  | p :: rest => p ++ sep ++ join sep rest
  end.

(** [s.split()]: the maximal runs of non-whitespace characters.
    [cur] holds the run being read, reversed. *)
Fixpoint split_ws_from (cur : pystr) (s : pystr) : list pystr :=
  match s with
  | [] => match cur with [] => [] | _ => [rev cur] end
  | c :: s' =>
      if isspace c
      then match cur with
           | [] => split_ws_from [] s'
           | _ => rev cur :: split_ws_from [] s'
           end
      else split_ws_from (c :: cur) s'
  end.
Definition split_ws (s : pystr) : list pystr := split_ws_from [] s.

(** The text before the first [sep] and, when there is one, the text
    after it. *)
Fixpoint cut (sep : char) (s : pystr) : pystr * option pystr :=
  match s with
  | [] => ([], None)
  | c :: s' =>
      if N.eqb c sep then ([], Some s')
      else let (h, t) := cut sep s' in (c :: h, t)
  end.

(** [s.split(sep, maxsplit)] for a one-character separator: cut at the
    first [maxsplit] occurrences of [sep]. *)
Fixpoint split_max (sep : char) (maxsplit : nat) (s : pystr) : list pystr :=
  match maxsplit with
  | O => [s]
  | S k =>
      match cut sep s with
      | (h, None) => [h]
      | (h, Some t) => h :: split_max sep k t
      end
  end.

(** [x or ""] and the truth value of an optional string. *)
Definition or_empty (o : option pystr) : pystr :=
  match o with Some s => s | None => [] end.
Definition truthy (o : option pystr) : bool :=
  match o with Some (_ :: _) => true | _ => false end.

(** ** The Unicode tables of the interpreter

    [str.lower] and the decimal-digit property depend on the Unicode
    version the interpreter was built with; the program is verified for
    every table that agrees with ASCII on the first 128 code points. *)
Class Unicode := {
  (** [str.lower] *)
  lower : pystr -> pystr;
  (** the decimal value of a code point of category Nd *)
  todecimal : char -> option Z;
  todecimal_ascii : forall c, (c < 128)%N ->
    todecimal c =
    if ((48 <=? c) && (c <=? 57))%N then Some (Z.of_N c - 48)%Z else None;
  todecimal_range : forall c d, todecimal c = Some d -> (0 <= d <= 9)%Z
}.


(** The ASCII part of the tables: lowering a letter, and the value of a
    digit. *)
Definition ascii_lower_char (c : char) : char :=
  if ((65 <=? c) && (c <=? 90))%N then (c + 32)%N else c.

Definition ascii_todecimal (c : char) : option Z :=
  if ((48 <=? c) && (c <=? 57))%N then Some (Z.of_N c - 48)%Z else None.

Section Classifier.
Context {U : Unicode}.

(** The regular expression class [\d] on a [str] pattern. *)
Definition isdigit (c : char) : bool :=
  match todecimal c with Some _ => true | None => false end.

(** ** Text classifier (lines 33-69) *)

(** [(19\d{2}|20\d{2})(?!\d)] tried at the head of [s]. *)
Definition year_at (s : pystr) : option pystr :=
  match s with
  | a :: b :: c :: d :: rest =>
      if (((a =? 49) && (b =? 57)) || ((a =? 50) && (b =? 48)))%N
         && isdigit c && isdigit d
         && negb (match rest with r :: _ => isdigit r | [] => false end)
      then Some [a; b; c; d]
      else None
  | _ => None
  end.

(** [re.search] tries the positions from left to right; [after_digit]
    tells whether the character before the position is a [\d], which is
    what the lookbehind [(?<!\d)] refuses. *)
Fixpoint search_year (after_digit : bool) (s : pystr) : option pystr :=
  match s with
  | [] => None
  | c :: s' =>
      match (if after_digit then None else year_at s) with
      | Some y => Some y
      | None => search_year (isdigit c) s'
      end
  end.

Definition extract_year (text : pystr) : option pystr :=
  search_year false text.

Definition LANG_WORDS : list pystr :=
  map py
    ["hindi"; "english"; "telugu"; "tamil"; "malayalam"; "kannada";
     "bengali"; "marathi"; "punjabi"; "gujarati"; "odia"; "oriya";
     "dual"; "multi"; "multiaudio"; "hin+eng"; "hin-eng"; "tam+tel";
     "dubbed"; "hindidub"; "hindub"]%string.

(** [w.capitalize()] for the ASCII words of [LANG_WORDS]. *)
Definition capitalize (w : pystr) : pystr :=
  match w with
  | [] => []
  | c :: w' =>
      (if ((97 <=? c) && (c <=? 122))%N then (c - 32)%N else c)
      :: map (fun x => if ((65 <=? x) && (x <=? 90))%N then (x + 32)%N else x) w'
  end.

Definition lang_label (w : pystr) : pystr :=
  if existsb (str_eqb w) (map py ["dual"; "multi"; "multiaudio"]%string)
  then py "Multi"
  else if existsb (str_eqb w) (map py ["odia"; "oriya"]%string)
  then py "Odia"
  else if existsb (str_eqb w) (map py ["hindidub"; "hindub"]%string)
  then py "Hindi Dub"
  else capitalize w.

(** The second loop of [extract_lang]: first occurrences, in order. *)
Fixpoint dedup (seen : list pystr) (langs : list pystr) : list pystr :=
  match langs with
  | [] => []
  | l :: rest =>
      if existsb (str_eqb l) seen then dedup seen rest
      else l :: dedup (l :: seen) rest
  end.

Definition extract_lang (text : pystr) : option pystr :=
  let t := lower text in
  let langs := map lang_label (filter (fun w => contains w t) LANG_WORDS) in
  match dedup [] langs with
  | [] => None
  | out => Some (join (py ", ") out)
  end.

Definition get_quality_label (text : pystr) : option pystr :=
  let t := lower text in
  if existsb (fun q => contains q t) [py "2160p"; py "4k"] then Some (py "2160p")
  else if contains (py "1080p") t then Some (py "1080p")
  else if contains (py "720p") t then Some (py "720p")
  else if contains (py "480p") t then Some (py "480p")
  else if contains (py "hdrip") t then Some (py "HDRip")
  else None.

(** [d.get(k, default)] on a literal table. *)
Fixpoint table_get (d : list (pystr * Z)) (k : pystr) (default : Z) : Z :=
  match d with
  | [] => default
  | (k', v) :: d' => if str_eqb k' k then v else table_get d' k default
  end.

Definition quality_rank (q : option pystr) : Z :=
  table_get
    [(py "2160p", 4); (py "1080p", 3); (py "720p", 2); (py "480p", 1);
     (py "HDRip", 0)]%Z
    (or_empty q) (-1)%Z.

(** ** Label builder (lines 83-96) *)

Definition MAX_LEN : nat := 60.

(** The string of line 88, before the length test. *)
Definition joined_label (title : pystr) (year quality lang : option pystr)
  : pystr :=
  let parts :=
    [title]
    ++ (if truthy year then [or_empty year] else [])
    ++ (if truthy quality then [or_empty quality] else [])
    ++ (if truthy lang then [or_empty lang] else []) in
  join (py " - ") parts.

Definition build_button_label (title : pystr) (year quality lang : option pystr)
  : pystr :=
  let label := joined_label title year quality lang in
  if Nat.ltb MAX_LEN (length label)
  then rstrip (firstn (MAX_LEN - 1) label) ++ [ellipsis]
  else label.

(** The characters the class [[^A-Za-z0-9 \-\(\),\+\&\.\:]] does not
    match, that is, the ones [re.sub] keeps. *)
Definition allowed (c : char) : bool :=
  ((65 <=? c) && (c <=? 90) || (97 <=? c) && (c <=? 122) ||
   (48 <=? c) && (c <=? 57) ||
   (c =? 32) || (c =? 45) || (c =? 40) || (c =? 41) || (c =? 44) ||
   (c =? 43) || (c =? 38) || (c =? 46) || (c =? 58))%N.

Definition sanitize_button_text_keep_basic_punct (text : pystr) : pystr :=
  match strip (filter allowed text) with
  | [] => py "Untitled"
  | s => s
  end.

(** ** Integers and text *)

(** [str(n)], as the f-string of line 175 renders an [int]. *)
Fixpoint chars_of_uint (d : Decimal.uint) : pystr :=
  match d with
  | Decimal.Nil => []
  | Decimal.D0 d => 48%N :: chars_of_uint d
  | Decimal.D1 d => 49%N :: chars_of_uint d
  | Decimal.D2 d => 50%N :: chars_of_uint d
  | Decimal.D3 d => 51%N :: chars_of_uint d
  | Decimal.D4 d => 52%N :: chars_of_uint d
  | Decimal.D5 d => 53%N :: chars_of_uint d
  | Decimal.D6 d => 54%N :: chars_of_uint d
  | Decimal.D7 d => 55%N :: chars_of_uint d
  | Decimal.D8 d => 56%N :: chars_of_uint d
  | Decimal.D9 d => 57%N :: chars_of_uint d
  end.

Definition str_of_int (z : Z) : pystr :=
  match Z.to_int z with
  | Decimal.Pos d => chars_of_uint d
  | Decimal.Neg d => 45%N :: chars_of_uint d
  end.

(** [int(s)] follows CPython.  The text is first brought to ASCII: a
    code point below 127 stays, another whitespace becomes a space, another
    decimal digit becomes its ASCII digit, anything else a question mark
    (which no later step accepts).  Then: ASCII whitespace, an optional
    sign, digits with single underscores between them, ASCII whitespace.
    The interpreter's limit on the number of digits is not modelled. *)
Definition to_ascii (c : char) : char :=
  if (c <? 127)%N then c
  else if isspace c then 32%N
  else match todecimal c with
       | Some d => Z.to_N (48 + d)
       | None => 63%N
       end.

Definition c_isspace (c : char) : bool :=
  ((9 <=? c) && (c <=? 13) || (c =? 32))%N.

Fixpoint skip_space (s : pystr) : pystr :=
  match s with
  | c :: s' => if c_isspace c then skip_space s' else s
  | [] => []
  end.

Definition digit_val (c : char) : option Z :=
  if ((48 <=? c) && (c <=? 57))%N then Some (Z.of_N c - 48)%Z else None.

(** The digits and underscores after the first digit; [after_us] tells
    whether the last character read was an underscore. *)
Fixpoint scan_digits (acc : Z) (after_us : bool) (s : pystr)
  : option (Z * pystr) :=
  match s with
  | [] => if after_us then None else Some (acc, [])
  | c :: s' =>
      match digit_val c with
      | Some d => scan_digits (10 * acc + d) false s'
      | None =>
          if (c =? 95)%N
          then if after_us then None else scan_digits acc true s'
          else if after_us then None else Some (acc, s)
      end
  end.

Definition py_int (s : pystr) : option Z :=
  let t := skip_space (map to_ascii s) in
  let '(sign, t) :=
    match t with
    | c :: t' =>
        if (c =? 43)%N then (1, t')
        else if (c =? 45)%N then (-1, t')
        else (1, t)
    | [] => (1, t)
    end%Z in
  match t with
  | c :: _ =>
      match digit_val c with
      | Some _ =>
          match scan_digits 0 false t with
          | Some (v, rest) =>
              match skip_space rest with
              | [] => Some (sign * v)%Z
              | _ :: _ => None
              end
          | None => None
          end
      | None => None
      end
  | [] => None
  end.

End Classifier.

(** ** The dictionary of the discovery run

    A Python [dict] keeps its keys in insertion order, and assigning to a
    key that is present keeps the key's place. *)
Section Dict.
Variable V : Type.

Definition dict := list (pystr * V).

Fixpoint dict_get (d : dict) (k : pystr) : option V :=
  match d with
  | [] => None
  | (k', v) :: d' => if str_eqb k' k then Some v else dict_get d' k
  end.

Fixpoint dict_set (d : dict) (k : pystr) (v : V) : dict :=
  match d with
  | [] => [(k, v)]
  | (k', v') :: d' =>
      if str_eqb k' k then (k', v) :: d' else (k', v') :: dict_set d' k v
  end.

End Dict.

(** The value stored under a title at lines 142-149. *)
Record entry := {
  page : Z;
  index : Z;
  qrank : Z;
  qlabel : option pystr;
  year : option pystr;
  lang : option pystr
}.

(** Lines 140-149: insert when the title is new, replace when the new
    rank is strictly greater. *)
Definition consider (distinct : dict entry) (normalized : pystr) (e : entry)
  : dict entry :=
  match dict_get distinct normalized with
  | None => dict_set distinct normalized e
  | Some prior =>
      if (qrank prior <? qrank e)%Z then dict_set distinct normalized e
      else distinct
  end.

(** ** Messages of the remote bot *)

Record button := {
  btn_text : option pystr;
  btn_data : option pystr
}.

Record message := {
  msg_text : option pystr;
  msg_buttons : option (list (list button));
  msg_media : option N
}.

(** [current.buttons] as a truth value: present and with at least one row. *)
Definition has_buttons (m : message) : bool :=
  match msg_buttons m with
  | Some (_ :: _) => true
  | _ => false
  end.

(** [[b for row in (current.buttons or []) for b in row]] *)
Definition flat_buttons (m : message) : list button :=
  match msg_buttons m with
  | Some rows => concat rows
  | None => []
  end.

Definition enumerate (A : Type) (l : list A) : list (Z * A) :=
  combine (map Z.of_nat (seq 0 (length l))) l.

Definition eqb_opt_str (a b : option pystr) : bool :=
  match a, b with
  | Some x, Some y => str_eqb x y
  | None, None => true
  | _, _ => false
  end.

(** ** Token codec *)

(** Line 175: [f"get:{page}:{index}"]. *)
Definition callback_data (page index : Z) : pystr :=
  py "get:" ++ str_of_int page ++ py ":" ++ str_of_int index.

Inductive exn :=
| TimeoutError (msg : string)
| ValueError
| TypeError
| NameError (name : string)
| AttributeError
| IndexError
| Exception_ (msg : string)
| RPCError.

(** Lines 199-207 without the awaits: [inr None] is the early return of
    line 202, [inl] the exception that line 221 catches.  The payload is
    represented by the text line 199 decodes it to. *)
Definition decode_token {U : Unicode} (data : pystr)
  : exn + option (Z * Z) :=
  if negb (startswith data (py "get:")) then inr None
  else
    match split_max 58%N 2 data with
    | [_; page_str; index_str] =>
        match py_int page_str with
        | None => inl ValueError
        | Some target_page =>
            match py_int index_str with
            | None => inl ValueError
            | Some target_index => inr (Some (target_page, target_index))
            end
        end
    | _ => inl ValueError
    end.

(** ** The two Telegram endpoints

    Every call the program issues is logged, oldest first.  What the
    outside answers is scripted: [responses] for the successive
    [conv.get_response()], [edits] for the successive
    [conv.wait_event(MessageEdited)], [faults] for the successive calls
    that send something.  A wait with nothing left to receive times out; a
    send with no fault left succeeds. *)

Inductive pyval :=
| PInt (z : Z)
| PStr (s : pystr)
| PObject.

Inductive action :=
| SendMessage (chat_id : Z) (text : pystr)
    (buttons : option (list (list (pystr * pystr)))) (reply_to : Z)
| StatusEdit (text : pystr)
| StatusDelete
| OpenConversation
| ConvSend (text : pystr)
| ClickIndex (m : message) (i : Z)
| ClickButton (b : button)
| Sleep (seconds : Z)
| Answer (text : option pystr) (alert : bool)
| EventEdit (text : pystr)
| EventDelete
| Forward (entity : pyval) (m : message).

Record world := {
  responses : list (exn + message);
  edits : list (exn + message);
  faults : list (option exn);
  log : list action
}.

Inductive result (A : Type) :=
| Val (a : A)
| Exc (e : exn).
Arguments Exc {A} e.

Definition M (A : Type) : Type := world -> result A * world.

Definition ret (A : Type) (a : A) : M A := fun w => (Val a, w).

Definition bind (A B : Type) (m : M A) (k : A -> M B) : M B :=
  fun w =>
    match m w with
    | (Val a, w') => k a w'
    | (Exc e, w') => (Exc e, w')
    end.

Definition raise (A : Type) (e : exn) : M A := fun w => (Exc e, w).
Arguments raise {A} e.

(** [try: m  except Exception as e: h e] *)
Definition try_except (A : Type) (m : M A) (h : exn -> M A) : M A :=
  fun w =>
    match m w with
    | (Val a, w') => (Val a, w')
    | (Exc e, w') => h e w'
    end.

Declare Scope py_scope.
Delimit Scope py_scope with M.
Notation "x <- m ;; k" := (bind m (fun x => k))
  (at level 61, m at next level, right associativity) : py_scope.
Notation "m ;; k" := (bind m (fun _ => k))
  (at level 61, right associativity) : py_scope.
Open Scope py_scope.

(** A call that sends something. *)
Definition call (a : action) : M unit :=
  fun w =>
    let logged := log w ++ [a] in
    match faults w with
    | Some e :: fs =>
        (Exc e, {| responses := responses w; edits := edits w;
                   faults := fs; log := logged |})
    | None :: fs =>
        (Val tt, {| responses := responses w; edits := edits w;
                    faults := fs; log := logged |})
    | [] =>
        (Val tt, {| responses := responses w; edits := edits w;
                    faults := []; log := logged |})
    end.

(** [asyncio.sleep]: logged, never failing. *)
Definition sleep (seconds : Z) : M unit :=
  fun w =>
    (Val tt, {| responses := responses w; edits := edits w;
                faults := faults w; log := log w ++ [Sleep seconds] |}).

(** [conv.get_response()] *)
Definition get_response : M message :=
  fun w =>
    match responses w with
    | inr m :: rs =>
        (Val m, {| responses := rs; edits := edits w;
                   faults := faults w; log := log w |})
    | inl e :: rs =>
        (Exc e, {| responses := rs; edits := edits w;
                   faults := faults w; log := log w |})
    | [] => (Exc (TimeoutError ""), w)
    end.

(** [conv.wait_event(events.MessageEdited(...), timeout=15)] *)
Definition wait_edit : M message :=
  fun w =>
    match edits w with
    | inr m :: es =>
        (Val m, {| responses := responses w; edits := es;
                   faults := faults w; log := log w |})
    | inl e :: es =>
        (Exc e, {| responses := responses w; edits := es;
                   faults := faults w; log := log w |})
    | [] => (Exc (TimeoutError ""), w)
    end.

Definition lift_exn (A : Type) (r : exn + A) : M A :=
  match r with
  | inl e => raise e
  | inr a => ret a
  end.

Section Agents.
Context {U : Unicode}.

(** [normalize_title] (lines 71-81) only supplies the dictionary key and
    the visible title.  The agents are verified for every function from
    text to text in its place. *)
Variable normalize_title : pystr -> pystr.

Definition MAX_PAGES_TO_SEARCH : Z := 20.

(** ** Discovery (lines 99-194) *)

(** The test of lines 109 and 241. *)
Definition is_gate (current : message) : bool :=
  has_buttons current &&
  existsb (fun k => contains k (lower (or_empty (msg_text current))))
    [py "join"; py "subscribe"].

(** Lines 109-115 and 241-247. *)
Definition pass_gate (current : message) : M message :=
  if is_gate current
  then try_except
         (call (ClickIndex current 0) ;; sleep 2 ;; get_response)
         (fun _ => ret current)
  else ret current.

(** Lines 105-115 and 237-247: open the conversation, send the query,
    take the first response and pass the gate. *)
Definition start_conversation (query : pystr) : M message :=
  call OpenConversation ;;
  call (ConvSend query) ;;
  current <- get_response ;;
  pass_gate current.

(** Lines 151 and 251. *)
Definition is_next (b : button) : bool :=
  startswith (strip (lower (or_empty (btn_text b)))) (py "next").

Definition find_next (page_buttons : list button) : option button :=
  find is_next page_buttons.

(** The body of the [for] loop of lines 124-149 on one button. *)
Definition scan_button (search_words : list pystr) (page_num : Z)
  (distinct : dict entry) (ib : Z * button) : dict entry :=
  let '(i, btn) := ib in
  let text := strip (or_empty (btn_text btn)) in
  match text with
  | [] => distinct
  | _ :: _ =>
      if negb (forallb (fun w => contains w (lower text)) search_words)
      then distinct
      else
        let normalized := normalize_title text in
        match normalized with
        | [] => distinct
        | _ :: _ =>
            let y := extract_year text in
            let ql := get_quality_label text in
            let qr := quality_rank ql in
            let lg := extract_lang text in
            consider distinct normalized
              {| page := page_num; index := i; qrank := qr; qlabel := ql;
                 year := y; lang := lg |}
        end
  end.

Definition scan_page (search_words : list pystr) (page_num : Z)
  (page_buttons : list button) (distinct : dict entry) : dict entry :=
  fold_left (scan_button search_words page_num) (enumerate page_buttons)
    distinct.

(** The [while] loop of lines 122-162.  [fuel] bounds the number of
    iterations the model unfolds; [None] means it ran out.  The result is
    the page counter and the dictionary when the loop is left. *)
Fixpoint walk (fuel : nat) (search_words : list pystr) (page_num : Z)
  (current : message) (distinct : dict entry)
  : M (option (Z * dict entry)) :=
  if (page_num <=? MAX_PAGES_TO_SEARCH)%Z then
    match fuel with
    | O => ret None
    | S fuel' =>
        let page_buttons := flat_buttons current in
        let distinct := scan_page search_words page_num page_buttons distinct in
        match find_next page_buttons with
        | Some next_btn =>
            if (page_num <? MAX_PAGES_TO_SEARCH)%Z then
              turned <- try_except
                          (call (ClickButton next_btn) ;;
                           edited <- wait_edit ;;
                           ret (Some edited))
                          (fun _ => ret None) ;;
              match turned with
              | Some edited =>
                  walk fuel' search_words (page_num + 1)%Z edited distinct
              | None => ret (Some (page_num, distinct))
              end
            else ret (Some (page_num, distinct))
        | None => ret (Some (page_num, distinct))
        end
    end
  else ret (Some (page_num, distinct)).

Definition quoted (q : pystr) : pystr := [ldquo] ++ q ++ [rdquo].

(** Lines 169-178: one row of one button per entry, in dictionary order. *)
Definition menu_buttons (distinct : dict entry) : list (list (pystr * pystr)) :=
  map (fun kv : pystr * entry =>
         let (title, data) := kv in
         let label :=
           build_button_label title (year data) (qlabel data) (lang data) in
         let safe_label := sanitize_button_text_keep_basic_punct label in
         let cb := callback_data (page data) (index data) in
         [(safe_label, cb)])
      distinct.

Inductive found :=
| NoResults
| Walked (page_num : Z) (distinct : dict entry).

(** [Val None] is the model running out of fuel in the page loop. *)
Definition discovery_agent (chat_id message_id : Z) (search_query : pystr)
  : M (option unit) :=
  call (SendMessage chat_id
          (py "Discovering movies for " ++ quoted search_query ++ py "...")
          None message_id) ;;
  try_except
    (let search_words := split_ws (lower search_query) in
     outcome <-
       (current <- start_conversation search_query ;;
        if negb (has_buttons current)
        then
          call (StatusEdit
                  (py "Sorry, no results for " ++ quoted search_query
                   ++ py ".")) ;;
          ret (Some NoResults)
        else
          walked <- walk (Z.to_nat MAX_PAGES_TO_SEARCH) search_words 1
                      current [] ;;
          ret (option_map (fun pd : Z * dict entry =>
                             Walked (fst pd) (snd pd)) walked)) ;;
     match outcome with
     | None => ret None
     | Some NoResults => ret (Some tt)
     | Some (Walked page_num []) =>
         call (StatusEdit
                 (py "Searched " ++ str_of_int page_num
                  ++ py " pages, but couldn" ++ [8217%N]
                  ++ py "t find relevant movies for "
                  ++ quoted search_query ++ py ".")) ;;
         ret (Some tt)
     | Some (Walked page_num distinct) =>
         call StatusDelete ;;
         call (SendMessage chat_id
                 (py "I found the following distinct movies. Please choose one:")
                 (Some (menu_buttons distinct)) message_id) ;;
         ret (Some tt)
     end)
    (fun _ =>
       try_except
         (call (StatusEdit (py "An error occurred during discovery.")))
         (fun _ => ret tt) ;;
       ret (Some tt)).

(** ** Execution (lines 197-281) *)

(** The message that carries the menu, and the request it replies to. *)
Record menu := {
  menu_rows : option (list (list button));
  menu_reply : option message
}.

Record callback := {
  cb_data : option pystr;
  cb_is_private : bool;
  cb_sender_id : Z;
  cb_message : option menu
}.

(** Lines 213-219; [chosen] is the title so far, [None] being Python's
    [None] read from a button without text. *)
Fixpoint chosen_in_rows (data : option pystr) (rows : list (list button))
  (chosen : option pystr) : option pystr :=
  match rows with
  | [] => chosen
  | row :: rows' =>
      let chosen :=
        match find (fun b => eqb_opt_str (btn_data b) data) row with
        | Some b => btn_text b
        | None => chosen
        end in
      if negb (eqb_opt_str chosen (Some (py "your selection")))
      then chosen
      else chosen_in_rows data rows' chosen
  end.

Definition chosen_title_of (event : callback) : option pystr :=
  match cb_message event with
  | Some reply_message =>
      match menu_rows reply_message with
      | Some ((_ :: _) as rows) =>
          chosen_in_rows (cb_data event) rows (Some (py "your selection"))
      | _ => Some (py "your selection")
      end
  | None => Some (py "your selection")
  end.

(** A value inside an f-string. *)
Definition format_opt (o : option pystr) : pystr :=
  match o with Some s => s | None => py "None" end.

(** The names bound at module level when a callback arrives. *)
Definition module_namespace : list (string * pyval) :=
  [("os", PObject); ("asyncio", PObject); ("logging", PObject);
   ("re", PObject); ("TelegramClient", PObject); ("events", PObject);
   ("Button", PObject); ("TimeoutError", PObject);
   ("API_ID", PObject); ("API_HASH", PObject); ("BOT_TOKEN", PObject);
   ("TARGET_BOT_USERNAME", PStr (py "ProSearchM5Bot"));
   ("MAX_PAGES_TO_SEARCH", PInt MAX_PAGES_TO_SEARCH);
   ("user_client", PObject); ("bot_client", PObject);
   ("LANG_WORDS", PObject); ("extract_year", PObject);
   ("extract_lang", PObject); ("get_quality_label", PObject);
   ("quality_rank", PObject); ("normalize_title", PObject);
   ("build_button_label", PObject);
   ("sanitize_button_text_keep_basic_punct", PObject);
   ("discovery_agent", PObject); ("execution_agent", PObject);
   ("private_message_listener", PObject);
   ("private_callback_listener", PObject); ("main", PObject);
   ("loop", PObject)]%string.

Fixpoint lookup_name (scope : list (string * pyval)) (name : string)
  : option pyval :=
  match scope with
  | [] => None
  | (n, v) :: scope' =>
      if String.eqb n name then Some v else lookup_name scope' name
  end.

(** Reading a name: the function's locals, then the module, or
    [NameError]. *)
Definition load_name (locals : list (string * pyval)) (name : string)
  : M pyval :=
  match lookup_name (locals ++ module_namespace) name with
  | Some v => ret v
  | None => raise (NameError name)
  end.

(** The [for] loop of lines 249-255, [n] iterations left. *)
Fixpoint replay_next (n : nat) (current : message) : M message :=
  match n with
  | O => ret current
  | S n' =>
      match find_next (flat_buttons current) with
      | None =>
          raise (Exception_
                   "Next button disappeared before reaching target page.")
      | Some next_btn =>
          call (ClickButton next_btn) ;;
          current <- wait_edit ;;
          replay_next n' current
      end
  end.

(** The [for] loop of lines 260-264, [n] attempts left. *)
Fixpoint poll_file (n : nat) : M (option message) :=
  match n with
  | O => ret None
  | S n' =>
      resp <- get_response ;;
      match msg_media resp with
      | Some _ => ret (Some resp)
      | None => poll_file n'
      end
  end.

(** Lines 257-274: click the target, poll for the file, forward it. *)
Definition deliver (event : callback) (current : message)
  (target_page target_index : Z) : M unit :=
  call (ClickIndex current target_index) ;;
  final_file_message <- poll_file 8 ;;
  match final_file_message with
  | None =>
      raise (TimeoutError
               "The source bot did not send a file after selection.")
  | Some final_file_message =>
      user_id <- load_name
                   [("event", PObject); ("data", PStr (or_empty (cb_data event)));
                    ("page_str", PObject); ("index_str", PObject);
                    ("target_page", PInt target_page);
                    ("target_index", PInt target_index);
                    ("chosen_title", PObject); ("reply_message", PObject);
                    ("original_request", PObject); ("conv", PObject);
                    ("current", PObject); ("page_buttons", PObject);
                    ("next_btn", PObject); ("final_file_message", PObject);
                    ("resp", PObject); ("row", PObject); ("button", PObject);
                    ("_", PObject)]%string
                   "user_id" ;;
      call (Forward user_id final_file_message) ;;
      try_except (call EventDelete) (fun _ => ret tt)
  end.

(** Lines 237-274, the body of the [try] of line 236. *)
Definition retrieve (event : callback) (query : pystr)
  (target_page target_index : Z) : M unit :=
  current <- start_conversation query ;;
  current <- replay_next (Z.to_nat (target_page - 1)) current ;;
  deliver event current target_page target_index.

(** Lines 236-281. *)
Definition retrieve_or_report (event : callback) (query : pystr)
  (target_page target_index : Z) : M unit :=
  try_except (retrieve event query target_page target_index)
    (fun _ =>
       try_except
         (call (EventEdit (py "An error occurred during retrieval.")))
         (fun _ => ret tt)).

Definition execution_agent (event : callback) : M unit :=
  parsed <-
    try_except
      (selection <- lift_exn (decode_token (or_empty (cb_data event))) ;;
       match selection with
       | None => call (Answer None false) ;; ret None
       | Some (target_page, target_index) =>
           ret (Some (target_page, target_index, chosen_title_of event))
       end)
      (fun _ =>
         call (Answer (Some (py "Invalid selection.")) true) ;; ret None) ;;
  match parsed with
  | None => ret tt
  | Some (target_page, target_index, chosen_title) =>
      match cb_message event with
      | None => raise AttributeError
      | Some reply_message =>
          match menu_reply reply_message with
          | Some {| msg_text := Some ((_ :: _) as query) |} =>
              let fetching :=
                py "Fetching " ++ quoted (format_opt chosen_title)
                ++ py "..." in
              try_except (call (EventEdit fetching))
                (fun _ => call (Answer (Some fetching) false)) ;;
              retrieve_or_report event query target_page target_index
          | _ =>
              call (Answer (Some (py "Original request not found.")) true)
          end
      end
  end.

(** ** The callback listener (lines 318-331) *)

(** Calling a coroutine function of one parameter with [first] and the
    further positional arguments [more]: the arguments are bound when the
    call is evaluated, and a surplus one is a [TypeError] there. *)
Definition bind_arguments (A B : Type) (f : A -> M B) (first : A)
  (more : list pyval) : exn + M B :=
  match more with
  | [] => inr (f first)
  | _ :: _ => inl TypeError
  end.

(** [asyncio.create_task]: the task is run to its end here; what it
    raises stays in the task. *)
Definition create_task (task : M unit) : M unit :=
  try_except task (fun _ => ret tt).

Definition private_callback_listener (event : callback) : M unit :=
  if negb (cb_is_private event) then call (Answer None false)
  else
    let data := or_empty (cb_data event) in
    if startswith data (py "get:") then
      let user_id := cb_sender_id event in
      match bind_arguments execution_agent event [PInt user_id] with
      | inl e => raise e
      | inr task => create_task task
      end
    else call (Answer None false).

End Agents.

(** ** Vocabulary of the properties *)

Section Vocabulary.
Context {U : Unicode}.

(** A year token: 19 or 20 and two more digits. *)
Definition year_token (y : pystr) : Prop :=
  exists c d,
    (y = [49; 57; c; d]%N \/ y = [50; 48; c; d]%N)
    /\ isdigit c = true /\ isdigit d = true.

Definition ends_with_digit (s : pystr) : Prop :=
  exists p c, s = p ++ [c] /\ isdigit c = true.

Definition starts_with_digit (s : pystr) : Prop :=
  exists c r, s = c :: r /\ isdigit c = true.

(** [y] stands in [text] after [pre] and before [post], with no digit
    next to it on either side. *)
Definition year_occurrence (text pre y post : pystr) : Prop :=
  text = pre ++ y ++ post /\ year_token y
  /\ ~ ends_with_digit pre /\ ~ starts_with_digit post.

(** The number a run of decimal digits denotes. *)
Fixpoint decimal_value_from (acc : Z) (s : pystr) : option Z :=
  match s with
  | [] => Some acc
  | c :: s' =>
      match todecimal c with
      | Some d => decimal_value_from (10 * acc + d) s'
      | None => None
      end
  end.
Definition decimal_value (s : pystr) : option Z := decimal_value_from 0 s.

(** The tier labels [quality_rank] knows, best first. *)
Definition known_tiers : list pystr :=
  [py "2160p"; py "1080p"; py "720p"; py "480p"; py "HDRip"].

(** The markers lines 61-65 look for, with the tier each one stands for,
    in the order they are tried. *)
Definition quality_markers : list (pystr * pystr) :=
  [(py "2160p", py "2160p"); (py "4k", py "2160p");
   (py "1080p", py "1080p"); (py "720p", py "720p");
   (py "480p", py "480p"); (py "hdrip", py "HDRip")].

End Vocabulary.

(** What a computation adds to the log: [m] logs only actions that
    satisfy [P], whatever the world it starts in. *)
Definition emits (A : Type) (P : action -> Prop) (m : M A) : Prop :=
  forall w, exists tr, log (snd (m w)) = log w ++ tr /\ Forall P tr.

(** The labels of a menu as the control surface receives them. *)
Definition clean_label (label : pystr) : Prop :=
  label <> []
  /\ Forall (fun c => allowed c = true) label
  /\ ~ (exists p, label = p ++ [ellipsis]).

(** An action that shows buttons shows the sanitized label and the token
    of an entry on each of them. *)
Definition menu_of_entries (a : action) : Prop :=
  match a with
  | SendMessage _ _ (Some rows) _ =>
      forall row label data,
        In row rows -> In (label, data) row ->
        clean_label label
        /\ exists title e,
             label = sanitize_button_text_keep_basic_punct
                       (build_button_label title (year e) (qlabel e) (lang e))
             /\ data = callback_data (page e) (index e)
  | _ => True
  end.

(** The aggregator fed with a stream of titled candidates, in order. *)
Definition feed (distinct : dict entry) (stream : list (pystr * entry))
  : dict entry :=
  fold_left (fun d kc => consider d (fst kc) (snd kc)) stream distinct.

(** The candidates of a stream that carry the title [t], in order. *)
Definition with_title (t : pystr) (stream : list (pystr * entry))
  : list entry :=
  map snd (filter (fun kc => str_eqb (fst kc) t) stream).

(** [e] is the first candidate of [cs] whose rank is the greatest. *)
Definition first_best (cs : list entry) (e : entry) : Prop :=
  exists before after,
    cs = before ++ e :: after
    /\ (forall x, In x before -> (qrank x < qrank e)%Z)
    /\ (forall x, In x after -> (qrank x <= qrank e)%Z).

(** One step of the policy of lines 140-149 on the entry of one title. *)
Definition keep_best (cur : option entry) (c : entry) : option entry :=
  match cur with
  | None => Some c
  | Some prior => if (qrank prior <? qrank c)%Z then Some c else Some prior
  end.

(** The shape line 205-207 expect: the prefix, a first field without a
    colon, a colon and a second field, both fields being integers as
    [int] reads them. *)
Definition token_shape {U : Unicode} (data : pystr) (p i : Z) : Prop :=
  exists page_str index_str,
    data = py "get:" ++ page_str ++ 58%N :: index_str
    /\ ~ In 58%N page_str
    /\ py_int page_str = Some p /\ py_int index_str = Some i.

(** The ten ASCII digits. *)
Definition digit_chars : list char := [48; 49; 50; 51; 52; 53; 54; 55; 56; 57]%N.

(** The ASCII characters [int] can accept somewhere in its argument. *)
Definition int_char (c : char) : bool :=
  c_isspace c || (c =? 43)%N || (c =? 45)%N || (c =? 95)%N
  || match digit_val c with Some _ => true | None => false end.

(** A handler acknowledges a callback silently: it returns, and all it
    did was one empty answer without alert. *)
Definition silently_acknowledged (handler : callback -> M unit)
  (event : callback) (w : world) : Prop :=
  exists w', handler event w = (Val tt, w')
             /\ log w' = log w ++ [Answer None false].

(** ** Sample inputs *)

Definition text_button (s : string) : button :=
  {| btn_text := Some (py s); btn_data := None |}.

(** A page of the remote menu, one button per row. *)
Definition menu_page (labels : list string) : message :=
  {| msg_text := Some (py "Results");
     msg_buttons := Some (map (fun s => [text_button s]) labels);
     msg_media := None |}.

Definition file_message : message :=
  {| msg_text := None; msg_buttons := None; msg_media := Some 7%N |}.

(** A world in which every send succeeds and nothing was logged yet. *)
Definition quiet (rs es : list message) : world :=
  {| responses := map inr rs; edits := map inr es; faults := []; log := [] |}.

(** A click, in a private chat, on a menu button that carries [data]; the
    menu replies to the request "inception". *)
Definition click_event (data : string) : callback :=
  {| cb_data := Some (py data);
     cb_is_private := true;
     cb_sender_id := 42;
     cb_message :=
       Some {| menu_rows :=
                 Some [[ {| btn_text := Some (py "Inception - 2010 - 1080p");
                            btn_data := Some (py data) |} ]];
               menu_reply :=
                 Some {| msg_text := Some (py "inception");
                         msg_buttons := None; msg_media := None |} |} |}.

Definition is_forward (a : action) : bool :=
  match a with Forward _ _ => true | _ => false end.

(** The world of a delivery that should succeed: the remote bot shows one
    page and, after the click, sends a progress note and then the file. *)
Definition delivery_world : world :=
  quiet [menu_page ["Inception 2010 1080p"; "Next"]%string;
         {| msg_text := Some (py "Uploading"); msg_buttons := None;
            msg_media := None |};
         file_message]
        [].

(** A click on a button that line 151 takes for the "next" control. *)
Definition is_next_click {U : Unicode} (a : action) : bool :=
  match a with
  | ClickButton b => is_next b
  | _ => false
  end.

(** An endless pager: the first page and thirty edits, every one of them
    with a "next" control. *)
Definition endless_world : world :=
  quiet [menu_page ["Inception 2010 720p"; "Next"]%string]
        (repeat (menu_page ["Inception 2010 720p"; "next page"]%string) 30).

Section ReplayVocabulary.
Context {U : Unicode}.

(** The page shows a "next" control. *)
Definition has_next (m : message) : bool :=
  match find_next (flat_buttons m) with Some _ => true | None => false end.

(** The click that turns the page. *)
Definition next_click (m : message) : list action :=
  match find_next (flat_buttons m) with
  | Some b => [ClickButton b]
  | None => []
  end.

End ReplayVocabulary.

(** The exception of line 253. *)
Definition state_changed : exn :=
  Exception_ "Next button disappeared before reaching target page.".

(** The remote menu has lost its second page's "next" control: the token
    [get:3:1] cannot be replayed. *)
Definition changed_world : world :=
  quiet [menu_page ["a"; "Next"]%string]
        [menu_page ["b"]%string; menu_page ["c"]%string].

Section Candidates.
Context {U : Unicode}.
Variable normalize_title : pystr -> pystr.

(** The titled candidate the loop body of lines 124-149 makes of a
    button, or [None] when it passes the button over. *)
Definition candidate (search_words : list pystr) (page_num : Z)
  (ib : Z * button) : option (pystr * entry) :=
  let text := strip (or_empty (btn_text (snd ib))) in
  match text with
  | [] => None
  | _ :: _ =>
      if negb (forallb (fun w => contains w (lower text)) search_words)
      then None
      else
        match normalize_title text with
        | [] => None
        | normalized =>
            Some (normalized,
                  {| page := page_num; index := fst ib;
                     qrank := quality_rank (get_quality_label text);
                     qlabel := get_quality_label text;
                     year := extract_year text;
                     lang := extract_lang text |})
        end
  end.

Definition page_candidates (search_words : list pystr) (page_num : Z)
  (page_buttons : list button) : list (pystr * entry) :=
  flat_map (fun ib => match candidate search_words page_num ib with
                      | Some c => [c]
                      | None => []
                      end)
    (enumerate page_buttons).

End Candidates.

(** Two pages for the query "inception": 720p on page 1, 1080p twice on
    page 2. *)
Definition two_page_world : world :=
  quiet [menu_page ["Inception 2010 720p"; "Other movie 1999"; "Next"]%string]
        [menu_page ["Inception 2010 1080p Hindi"; "Inception 2010 1080p";
                    "Prev"]%string].

(** The remote bot first asks to join a channel and then has nothing. *)
Definition gated_world : world :=
  quiet [ {| msg_text := Some (py "Please join our channel");
             msg_buttons := Some [[text_button "Join"]];
             msg_media := None |};
          {| msg_text := Some (py "No results"); msg_buttons := None;
             msg_media := None |} ]
        [].

(** ** Vocabulary of the further properties *)

Section Visited.
Context {U : Unicode}.
Variable normalize_title : pystr -> pystr.

(** The candidates of successive pages, the first one numbered
    [page_num], in the order the page loop meets them. *)
Fixpoint pages_candidates (search_words : list pystr) (page_num : Z)
  (pages : list message) : list (pystr * entry) :=
  match pages with
  | [] => []
  | p :: ps =>
      page_candidates normalize_title search_words page_num (flat_buttons p)
      ++ pages_candidates search_words (page_num + 1)%Z ps
  end.

End Visited.

(** A computation started in a world whose sends succeed logs only
    actions that satisfy [P] and leaves such a world. *)
Definition runs_quietly (A : Type) (P : action -> Prop) (m : M A) : Prop :=
  forall w,
    faults w = [] ->
    exists tr,
      log (snd (m w)) = log w ++ tr /\ Forall P tr
      /\ faults (snd (m w)) = [].

(** What the program does on the conversation with the remote bot. *)
Definition is_conversation_action (a : action) : bool :=
  match a with
  | OpenConversation | ConvSend _ | ClickIndex _ _ | ClickButton _
  | Sleep _ => true
  | _ => false
  end.

(** The status lines of [discovery_agent] (lines 100, 118, 165, 183 and
    192). *)
Definition discovering_text (q : pystr) : pystr :=
  py "Discovering movies for " ++ quoted q ++ py "...".
Definition no_results_text (q : pystr) : pystr :=
  py "Sorry, no results for " ++ quoted q ++ py ".".
Definition searched_text (page_num : Z) (q : pystr) : pystr :=
  py "Searched " ++ str_of_int page_num ++ py " pages, but couldn"
  ++ [8217%N] ++ py "t find relevant movies for " ++ quoted q ++ py ".".
Definition found_text : pystr :=
  py "I found the following distinct movies. Please choose one:".
Definition discovery_error_text : pystr :=
  py "An error occurred during discovery.".

(** The ways a discovery run ends towards the user. *)
Definition discovery_ending (chat_id message_id : Z) (q : pystr)
  (tail : list action) : Prop :=
  tail = [StatusEdit (no_results_text q)]
  \/ (exists page_num, tail = [StatusEdit (searched_text page_num q)])
  \/ (exists rows,
        rows <> [] /\ Forall (fun row : list (pystr * pystr) =>
                                length row = 1) rows
        /\ tail = [StatusDelete;
                   SendMessage chat_id found_text (Some rows) message_id])
  \/ tail = [StatusEdit discovery_error_text].

(** The text of the request a menu replies to, when line 227 lets it
    pass. *)
Definition request_text (event : callback) : option pystr :=
  match cb_message event with
  | Some reply_message =>
      match menu_reply reply_message with
      | Some {| msg_text := Some ((_ :: _) as query) |} => Some query
      | _ => None
      end
  | None => None
  end.

(** The lines [execution_agent] shows (lines 228, 232 and 279). *)
Definition fetching_text (chosen_title : option pystr) : pystr :=
  py "Fetching " ++ quoted (format_opt chosen_title) ++ py "...".
Definition request_lost_text : pystr := py "Original request not found.".
Definition retrieval_error_text : pystr :=
  py "An error occurred during retrieval.".

(** A click on a menu whose request was deleted, and a click whose own
    message is gone. *)
Definition orphan_click (data : string) : callback :=
  {| cb_data := Some (py data);
     cb_is_private := true;
     cb_sender_id := 42;
     cb_message := Some {| menu_rows := Some []; menu_reply := None |} |}.

Definition lost_click (data : string) : callback :=
  {| cb_data := Some (py data);
     cb_is_private := true;
     cb_sender_id := 42;
     cb_message := None |}.

(** ** The message listener (lines 284-316) *)

(** What [event.get_sender()] returns: nothing, a user, or a chat or
    channel, which has no attribute [bot]. *)
Inductive sender :=
| NoSender
| UserSender (bot : bool)
| ChatSender.

(** [getattr(sender, 'bot', False)] as a truth value. *)
Definition sender_bot (s : sender) : bool :=
  match s with
  | UserSender bot => bot
  | NoSender | ChatSender => false
  end.

(** The three attributes of [event.message] that line 296 reads, as truth
    values. *)
Record message_flags := {
  fwd_from : bool;
  media : bool;
  via_bot_id : bool
}.

Record new_message := {
  nm_is_private : bool;
  nm_raw_text : option pystr;
  nm_message : option message_flags;
  nm_sender : exn + sender;
  nm_is_reply : bool;
  nm_chat_id : Z;
  nm_id : Z
}.

Definition bot_status_prefixes : list pystr :=
  [py "i found the following"; py "sorry, no results";
   py "an error occurred"; py "fetching"; py "discovering movies for"].

Section Listener.
Context {U : Unicode}.
Variable normalize_title : pystr -> pystr.

Definition private_message_listener (event : new_message) : M unit :=
  if negb (nm_is_private event) then ret tt
  else
    let text := strip (or_empty (nm_raw_text event)) in
    match text with
    | [] => ret tt
    | _ :: _ =>
        if match nm_message event with
           | Some m => fwd_from m || media m || via_bot_id m
           | None => false
           end
        then ret tt
        else
          sender <- lift_exn (nm_sender event) ;;
          if sender_bot sender then ret tt
          else if startswith text (py "/") then ret tt
          else if nm_is_reply event then ret tt
          else
            let lowered := lower text in
            if existsb (fun p => startswith lowered p) bot_status_prefixes
            then ret tt
            else
              create_task
                (discovery_agent normalize_title (nm_chat_id event)
                   (nm_id event) text ;;
                 ret tt)
    end.

End Listener.

(** [str.lower] maps an ASCII character to one character, whatever
    stands around it: the lowered text begins with the lowered ASCII
    prefix. *)
Definition lowers_ascii_prefixes {U : Unicode} : Prop :=
  forall p s : pystr,
    Forall (fun c => (c < 128)%N) p ->
    exists r, lower (p ++ s) = map ascii_lower_char p ++ r.

(** The lines the two agents show in the chat that line 310 is meant to
    recognise. *)
Definition listed_status_line (line : pystr) : Prop :=
  (exists q, line = discovering_text q)
  \/ (exists q, line = no_results_text q)
  \/ line = found_text
  \/ line = discovery_error_text
  \/ (exists t, line = fetching_text t)
  \/ line = retrieval_error_text.

(** A private text message from a person, no reply, nothing attached. *)
Definition plain_message (text : pystr) : new_message :=
  {| nm_is_private := true;
     nm_raw_text := Some text;
     nm_message := Some {| fwd_from := false; media := false;
                           via_bot_id := false |};
     nm_sender := inr (UserSender false);
     nm_is_reply := false;
     nm_chat_id := 5;
     nm_id := 6 |}.

(** A message that passes the checks of lines 289-307 on everything but
    its text: private, nothing forwarded or attached, no bot behind it, no
    reply. *)
Definition unsolicited (event : new_message) : Prop :=
  nm_is_private event = true
  /\ match nm_message event with
     | Some m => fwd_from m || media m || via_bot_id m
     | None => false
     end = false
  /\ (exists s, nm_sender event = inr s /\ sender_bot s = false)
  /\ nm_is_reply event = false.

(** ** Start-up (lines 334-344) *)

(** What [main] does towards the two clients and the log. *)
Inductive startup_step :=
| UserStart
| GetMe (bot : bool)
| LogInfo
| RunUntilDisconnected (bot : bool).

(** What the awaits of lines 335-337 give: [start] returns or raises,
    [get_me] returns an account or [None], or raises. *)
Record startup := {
  user_start : option exn;
  user_me : exn + option pyval;
  bot_me : exn + option pyval
}.

(** The steps taken so far and the value or the exception. *)
Definition Boot (A : Type) : Type := list startup_step * result A.

Definition boot_bind (A B : Type) (m : Boot A) (k : A -> Boot B) : Boot B :=
  match m with
  | (tr, Val a) => let (tr', r) := k a in (tr ++ tr', r)
  | (tr, Exc e) => (tr, Exc e)
  end.

Definition awaited (A : Type) (s : startup_step) (r : exn + A) : Boot A :=
  ([s], match r with inl e => Exc e | inr a => Val a end).

(** [me.first_name] and the like: an attribute of the account, or
    [AttributeError] on [None]. *)
Definition account_attributes (me : option pyval) : Boot unit :=
  match me with
  | Some _ => ([], Val tt)
  | None => ([], Exc AttributeError)
  end.

Definition boot_load_name (locals : list (string * pyval)) (name : string)
  : Boot pyval :=
  match lookup_name (locals ++ module_namespace) name with
  | Some v => ([], Val v)
  | None => ([], Exc (NameError name))
  end.

Definition logging_info : Boot unit := ([LogInfo], Val tt).

Definition main (env : startup) : Boot unit :=
  boot_bind
    (awaited UserStart
       (match user_start env with Some e => inl e | None => inr tt end))
    (fun _ =>
  boot_bind (awaited (GetMe false) (user_me env)) (fun me_user =>
  boot_bind (awaited (GetMe true) (bot_me env)) (fun me_bot =>
  boot_bind (account_attributes me_user) (fun _ =>
  boot_bind logging_info (fun _ =>
  boot_bind (account_attributes me_bot) (fun _ =>
  boot_bind logging_info (fun _ =>
  boot_bind
    (boot_load_name [("me_user", PObject); ("me_bot", PObject)]%string
       "GROUP_CHAT_ID")
    (fun _ =>
  boot_bind logging_info (fun _ =>
  boot_bind (awaited (RunUntilDisconnected true) (inr tt)) (fun _ =>
  awaited (RunUntilDisconnected false) (inr tt))))))))))).

Definition is_listening (s : startup_step) : bool :=
  match s with RunUntilDisconnected _ => true | _ => false end.

(** ** Title normalizer (lines 71-81) *)

(** What the normalizer needs beyond [Unicode]: the word characters of
    [\w] (alphanumeric or underscore) and [str.title]. *)
Class Words := {
  isword : char -> bool;
  str_title : pystr -> pystr
}.

Definition ascii_letter (c : char) : bool :=
  ((65 <=? c) && (c <=? 90) || (97 <=? c) && (c <=? 122))%N.

Definition ascii_upper_char (c : char) : char :=
  if ((97 <=? c) && (c <=? 122))%N then (c - 32)%N else c.

(** [str.title] on ASCII text: a letter after a letter is lowered, any
    other letter is raised. *)
Fixpoint ascii_title (previous_is_cased : bool) (s : pystr) : pystr :=
  match s with
  | [] => []
  | c :: s' =>
      (if previous_is_cased then ascii_lower_char c else ascii_upper_char c)
      :: ascii_title (ascii_letter c) s'
  end.

Section Normalizer.
Context {U : Unicode} {W : Words}.

(** The text after the first [\]], when no newline stands before it: what
    [.*?\]] leaves. *)
Fixpoint after_bracket (t : pystr) : option pystr :=
  match t with
  | [] => None
  | c :: t' =>
      if (c =? 93)%N then Some t'
      else if (c =? 10)%N then None
      else after_bracket t'
  end.

(** Line 73: [re.sub(r'^\[.*?\]\s*', '', t)]. *)
Definition strip_tag (t : pystr) : pystr :=
  match t with
  | c :: t' =>
      if (c =? 91)%N
      then match after_bracket t' with
           | Some r => lstrip r
           | None => t
           end
      else t
  | [] => t
  end.

(** [\d{n}] at the head of [t]. *)
Definition digits_at (n : nat) (t : pystr) : bool :=
  (length (firstn n t) =? n)%nat && forallb isdigit (firstn n t).

Definition MARKER_LANGS : list pystr :=
  [py "hindi"; py "telugu"; py "tamil"; py "malayalam"; py "kannada";
   py "english"; py "bengali"; py "marathi"; py "punjabi"; py "gujarati";
   py "odia"; py "oriya"].

(** The three alternatives of line 74 after their common [\s]:
    [\(?\d{4}\)?], [\d{3,4}p] and a language word. *)
Definition year_marker (t : pystr) : bool :=
  match t with
  | c :: t' => (c =? 40)%N && digits_at 4 t' || digits_at 4 t
  | [] => false
  end.

Definition quality_marker (t : pystr) : bool :=
  digits_at 4 t && startswith (skipn 4 t) (py "p")
  || digits_at 3 t && startswith (skipn 3 t) (py "p").

Definition lang_marker (t : pystr) : bool :=
  existsb (fun w => startswith t w) MARKER_LANGS.

Definition marker_at (t : pystr) : bool :=
  match t with
  | c :: t' =>
      isspace c && (year_marker t' || quality_marker t' || lang_marker t')
  | [] => false
  end.

(** Group 1 of the search of line 74: the shortest prefix without a
    newline that a marker follows. *)
Fixpoint title_before (t : pystr) : option pystr :=
  if marker_at t then Some []
  else
    match t with
    | [] => None
    | c :: t' =>
        if (c =? 10)%N then None
        else option_map (cons c) (title_before t')
    end.

(** A lower-case ASCII letter of a pattern under [re.IGNORECASE]. *)
Definition ci_char (x c : char) : bool := ((c =? x) || (c =? x - 32))%N.

Fixpoint ci_startswith (t w : pystr) {struct w} : bool :=
  match w, t with
  | [], _ => true
  | x :: w', c :: t' => ci_char x c && ci_startswith t' w'
  | _ :: _, [] => false
  end.

(** [re.sub(pattern, '', t)] for a pattern that matches no empty string:
    [matcher] gives the length of the match at the head of a text, [skip]
    counts the characters of the current match still to drop. *)
Fixpoint sub_all (matcher : pystr -> option nat) (skip : nat) (t : pystr)
  : pystr :=
  match t with
  | [] => []
  | c :: t' =>
      match skip with
      | S k => sub_all matcher k t'
      | O =>
          match matcher t with
          | Some (S k) => sub_all matcher k t'
          | _ => c :: sub_all matcher 0 t'
          end
      end
  end.

(** Line 77: [\s-\s(part|the)\s\d]. *)
Definition part_the_digit (t : pystr) : option nat :=
  match t with
  | c0 :: c1 :: c2 :: t3 =>
      if isspace c0 && (c1 =? 45)%N && isspace c2
      then
        let alternative (w : pystr) :=
          if ci_startswith t3 w
          then match skipn (length w) t3 with
               | s :: d :: _ =>
                   if isspace s && isdigit d then Some (3 + length w + 2)
                   else None
               | _ => None
               end
          else None in
        match alternative (py "part") with
        | Some n => Some n
        | None => alternative (py "the")
        end
      else None
  | _ => None
  end.

(** The length of the longest run of word characters at the head. *)
Fixpoint word_run (t : pystr) : nat :=
  match t with
  | c :: t' => if isword c then S (word_run t') else 0
  | [] => 0
  end.

(** Line 78: [:\s(the|part)\s\w+]. *)
Definition colon_the_word (t : pystr) : option nat :=
  match t with
  | c0 :: c1 :: t2 =>
      if (c0 =? 58)%N && isspace c1
      then
        let alternative (w : pystr) :=
          if ci_startswith t2 w
          then match skipn (length w) t2 with
               | s :: r =>
                   if isspace s && (0 <? word_run r)%nat
                   then Some (2 + length w + 1 + word_run r)
                   else None
               | [] => None
               end
          else None in
        match alternative (py "the") with
        | Some n => Some n
        | None => alternative (py "part")
        end
      else None
  | _ => None
  end.

Definition normalize_title (text : pystr) : pystr :=
  let t := strip_tag (lower text) in
  match title_before t with
  | Some group1 =>
      let title := strip group1 in
      let title := sub_all part_the_digit 0 title in
      let title := sub_all colon_the_word 0 title in
      match title with
      | _ :: _ => str_title (strip title)
      | [] => str_title (strip t)
      end
  | None => str_title (strip t)
  end.

End Normalizer.

(** The words of ASCII: letters, digits and the underscore for [\w], and
    [str.title] on A-Z and a-z. *)
Instance ascii_words : Words := {|
  isword := fun c => (ascii_letter c || (48 <=? c) && (c <=? 57)
                      || (c =? 95))%N;
  str_title := ascii_title false
|}.

Section Stems.
Context {U : Unicode} {W : Words}.

(** The first marker of [t] (a year, a resolution or a language word
    after a whitespace character) begins where [stem] ends, and [stem]
    runs over no newline. *)
Definition first_marker_after (t stem : pystr) : Prop :=
  exists rest,
    t = stem ++ rest /\ marker_at rest = true /\ ~ In 10%N stem
    /\ forall i, i < length stem -> marker_at (skipn i t) = false.

(** Lines 76-78 on the text before the first marker. *)
Definition stem_title (stem : pystr) : pystr :=
  sub_all colon_the_word 0 (sub_all part_the_digit 0 (strip stem)).

End Stems.

(** Five releases on two pages, four of them of one film. *)
Definition releases_world : world :=
  quiet [menu_page ["[HD] Inception 2010 720p";
                    "Inception (2010) 1080p Hindi";
                    "The Inception Story 480p"; "Next"]%string]
        [menu_page ["inception 2160p tamil";
                    "Inception: The Beginning 2012 HDRip"; "Prev"]%string].

(** * Properties *)

Lemma ascii_todecimal_range c d :
  ascii_todecimal c = Some d -> (0 <= d <= 9)%Z.
Proof.
  unfold ascii_todecimal.
  destruct ((48 <=? c) && (c <=? 57))%N eqn:E; [|discriminate].
  apply andb_prop in E. destruct E as [E1 E2].
  apply N.leb_le in E1. apply N.leb_le in E2.
  intros [= <-]. lia.
Qed.

(** The tables that know the ASCII letters and digits only: they lower
    A-Z and hold 0-9 for the decimal digits. *)
Instance ascii_unicode : Unicode := {|
  lower := map ascii_lower_char;
  todecimal := ascii_todecimal;
  todecimal_ascii := fun c _ => eq_refl;
  todecimal_range := ascii_todecimal_range
|}.

(** ** Strings *)

Lemma str_eqb_eq (a b : pystr) : str_eqb a b = true <-> a = b.
Proof.
  revert b. induction a as [|x a IH]; intros [|y b]; simpl; split;
    try congruence; try discriminate.
  - intros H. apply andb_prop in H. destruct H as [H1 H2].
    apply N.eqb_eq in H1. apply IH in H2. congruence.
  - intros [= -> ->]. rewrite N.eqb_refl. simpl. now apply IH.
Qed.

Lemma str_eqb_refl (a : pystr) : str_eqb a a = true.
Proof. now apply str_eqb_eq. Qed.

Lemma str_eqb_neq (a b : pystr) : str_eqb a b = false <-> a <> b.
Proof.
  split.
  - intros H E. apply str_eqb_eq in E. congruence.
  - intros H. destruct (str_eqb a b) eqn:E; [|reflexivity].
    apply str_eqb_eq in E. contradiction.
Qed.

Lemma startswith_app (s p : pystr) :
  startswith s p = true <-> exists r, s = p ++ r.
Proof.
  revert s. induction p as [|c p IH]; intros s; simpl.
  - split; [intros _; now exists s | reflexivity].
  - destruct s as [|d s].
    + split; [discriminate | intros [r [=]]].
    + split.
      * intros H. apply andb_prop in H. destruct H as [H1 H2].
        apply N.eqb_eq in H1. apply IH in H2. destruct H2 as [r ->].
        exists r. now subst.
      * intros [r [= -> ->]]. rewrite N.eqb_refl. simpl.
        apply IH. now exists r.
Qed.

Lemma lstrip_suffix (s : pystr) : exists p, s = p ++ lstrip s.
Proof.
  induction s as [|c s [p IH]]; simpl.
  - now exists [].
  - destruct (isspace c).
    + exists (c :: p). simpl. now f_equal.
    + now exists [].
Qed.

Lemma rstrip_prefix (s : pystr) : exists r, s = rstrip s ++ r.
Proof.
  unfold rstrip. destruct (lstrip_suffix (rev s)) as [p Hp].
  exists (rev p). rewrite <- rev_app_distr, <- Hp. now rewrite rev_involutive.
Qed.

Lemma lstrip_length (s : pystr) : length (lstrip s) <= length s.
Proof.
  destruct (lstrip_suffix s) as [p Hp].
  rewrite Hp at 2. rewrite length_app. lia.
Qed.

Lemma rstrip_length (s : pystr) : length (rstrip s) <= length s.
Proof.
  destruct (rstrip_prefix s) as [r Hr].
  rewrite Hr at 2. rewrite length_app. lia.
Qed.

Lemma lstrip_incl (s : pystr) (c : char) : In c (lstrip s) -> In c s.
Proof.
  destruct (lstrip_suffix s) as [p Hp]. intros H.
  rewrite Hp. apply in_or_app. now right.
Qed.

Lemma rstrip_incl (s : pystr) (c : char) : In c (rstrip s) -> In c s.
Proof.
  destruct (rstrip_prefix s) as [r Hr]. intros H.
  rewrite Hr. apply in_or_app. now left.
Qed.

Lemma strip_incl (s : pystr) (c : char) : In c (strip s) -> In c s.
Proof. intros H. now apply lstrip_incl, rstrip_incl. Qed.

(** ** Text classifier *)

Section ClassifierFacts.
Context {U : Unicode}.

Lemma year_token_length (y : pystr) : year_token y -> length y = 4.
Proof. intros (c & d & [-> | ->] & _); reflexivity. Qed.

Lemma ends_with_digit_snoc (pre : pystr) (c : char) :
  ends_with_digit (pre ++ [c]) <-> isdigit c = true.
Proof.
  split.
  - intros (p & c0 & E & H). apply app_inj_tail in E. destruct E as [_ ->].
    exact H.
  - intros H. now exists pre, c.
Qed.

Lemma ends_with_digit_nil : ~ ends_with_digit [].
Proof. intros (p & c & E & _). now destruct p. Qed.

Lemma year_at_spec (s y : pystr) :
  year_at s = Some y <->
  exists post, s = y ++ post /\ year_token y /\ ~ starts_with_digit post.
Proof.
  split.
  - destruct s as [|a [|b [|c [|d rest]]]]; simpl; try discriminate.
    destruct (_ && _) eqn:E; [|discriminate]. intros [= <-].
    repeat (apply andb_prop in E; destruct E as [E ?]).
    exists rest. split; [reflexivity|]. split.
    + exists c, d. repeat split; try assumption.
      apply orb_prop in E.
      destruct E as [E | E]; apply andb_prop in E; destruct E as [E1 E2];
        apply N.eqb_eq in E1; apply N.eqb_eq in E2; subst; auto.
    + intros (r & rest' & -> & Hr). simpl in H. rewrite Hr in H. discriminate.
  - intros (post & -> & (c & d & Hy & Hc & Hd) & Hpost).
    assert (Hn : match post with r :: _ => isdigit r | [] => false end = false).
    { destruct post as [|r post']; [reflexivity|].
      destruct (isdigit r) eqn:Er; [|reflexivity].
      exfalso. apply Hpost. now exists r, post'. }
    destruct Hy as [-> | ->]; simpl; rewrite Hc, Hd, Hn; reflexivity.
Qed.

Lemma search_year_spec (s : pystr) :
  forall (pre : pystr) (ad : bool),
    (ad = true <-> ends_with_digit pre) ->
    match search_year ad s with
    | Some y =>
        exists p post,
          s = p ++ y ++ post /\ year_token y
          /\ ~ ends_with_digit (pre ++ p) /\ ~ starts_with_digit post
          /\ forall p' y' post',
               s = p' ++ y' ++ post' -> year_token y' ->
               ~ ends_with_digit (pre ++ p') -> ~ starts_with_digit post' ->
               length p <= length p'
    | None =>
        forall p y post,
          s = p ++ y ++ post -> year_token y ->
          ~ ends_with_digit (pre ++ p) -> ~ starts_with_digit post -> False
    end.
Proof.
  induction s as [|c s IH]; intros pre ad Had.
  - simpl. intros p y post E Hy _ _.
    apply year_token_length in Hy.
    destruct p; [destruct y; [discriminate Hy | discriminate E] | discriminate E].
  - cbn [search_year].
    destruct (if ad then None else year_at (c :: s)) as [y|] eqn:Ehead.
    + destruct ad; [discriminate|].
      apply year_at_spec in Ehead. destruct Ehead as (post & E & Hy & Hpost).
      exists [], post. rewrite app_nil_r. repeat split; try assumption.
      * intros H. apply Had in H. discriminate.
      * intros. simpl. lia.
    + assert (Hhead : forall y post,
                 c :: s = y ++ post -> year_token y ->
                 ~ ends_with_digit pre -> ~ starts_with_digit post -> False).
      { intros y post E Hy Hpre Hpost. destruct ad.
        - apply Hpre, Had. reflexivity.
        - assert (H : year_at (c :: s) = Some y)
            by (apply year_at_spec; now exists post).
          congruence. }
      specialize (IH (pre ++ [c]) (isdigit c)
                    (iff_sym (ends_with_digit_snoc pre c))).
      destruct (search_year (isdigit c) s) as [y|].
      * destruct IH as (p & post & E & Hy & Hpre & Hpost & Hmin).
        exists (c :: p), post. rewrite <- app_assoc in Hpre.
        repeat split; try assumption.
        -- simpl. now f_equal.
        -- intros p' y' post' E' Hy' Hpre' Hpost'.
           destruct p' as [|c' p'].
           ++ exfalso. rewrite app_nil_r in Hpre'. simpl in E'.
              now apply (Hhead y' post').
           ++ simpl in E'. injection E' as -> E'.
              simpl. apply le_n_S. apply (Hmin p' y' post'); try assumption.
              now rewrite <- app_assoc.
      * intros p y post E Hy Hpre Hpost.
        destruct p as [|c' p].
        -- rewrite app_nil_r in Hpre. simpl in E. now apply (Hhead y post).
        -- simpl in E. injection E as -> E.
           apply (IH p y post); try assumption.
           now rewrite <- app_assoc.
Qed.

Lemma year_token_value (y : pystr) :
  year_token y ->
  exists v, decimal_value y = Some v /\ (1900 <= v <= 2099)%Z.
Proof.
  intros (c & d & Hy & Hc & Hd).
  unfold isdigit in Hc, Hd.
  destruct (todecimal c) as [vc|] eqn:Ec; [|discriminate].
  destruct (todecimal d) as [vd|] eqn:Ed; [|discriminate].
  pose proof (todecimal_range _ Ec). pose proof (todecimal_range _ Ed).
  exists (match y with 49%N :: _ => 1900 | _ => 2000 end + 10 * vc + vd)%Z.
  assert (E1 : todecimal 49%N = Some 1%Z) by now rewrite todecimal_ascii.
  assert (E9 : todecimal 57%N = Some 9%Z) by now rewrite todecimal_ascii.
  assert (E2 : todecimal 50%N = Some 2%Z) by now rewrite todecimal_ascii.
  assert (E0 : todecimal 48%N = Some 0%Z) by now rewrite todecimal_ascii.
  destruct Hy as [-> | ->]; unfold decimal_value; cbn [decimal_value_from];
    rewrite ?E1, ?E9, ?E2, ?E0, Ec, Ed; (split; [f_equal; lia | lia]).
Qed.

End ClassifierFacts.

(** C5. [extract_year] is a total function; when it returns a value, the
    value is a run of four characters of the text, 19 or 20 followed by
    two digits (so its number is between 1900 and 2099), with no digit
    right before it and none right after it, and it is the leftmost such
    run; it returns [None] exactly when the text has no such run. *)
Theorem extract_year_correct {U : Unicode} (text : pystr) :
  (forall y, extract_year text = Some y ->
     exists pre post,
       year_occurrence text pre y post
       /\ length y = 4
       /\ (exists v, decimal_value y = Some v /\ (1900 <= v <= 2099)%Z)
       /\ forall pre' y' post',
            year_occurrence text pre' y' post' -> length pre <= length pre')
  /\ (extract_year text = None <->
      forall pre y post, ~ year_occurrence text pre y post).
Proof.
  unfold extract_year.
  assert (H0 : false = true <-> ends_with_digit []).
  { split; [discriminate | intros E; now apply ends_with_digit_nil in E]. }
  pose proof (search_year_spec text H0) as H. simpl in H. split.
  - intros y Ey. rewrite Ey in H.
    destruct H as (p & post & E & Hy & Hpre & Hpost & Hmin).
    exists p, post. repeat split; try assumption.
    + now apply year_token_length.
    + now apply year_token_value.
    + intros pre' y' post' (E' & Hy' & Hpre' & Hpost'). eauto.
  - split.
    + intros En. rewrite En in H.
      intros pre y post (E & Hy & Hpre & Hpost). eauto.
    + intros Hno. destruct (search_year false text) as [y|]; [|reflexivity].
      destruct H as (p & post & E & Hy & Hpre & Hpost & _).
      exfalso. apply (Hno p y post). now repeat split.
Qed.

(** The year of a typical label; the digits of a resolution or of a longer
    number are passed over. *)
Lemma extract_year_correct_witness :
  extract_year (py "Dune 21600 2021 1080p") = Some (py "2021")
  /\ exists pre post,
       year_occurrence (py "Dune 21600 2021 1080p") pre (py "2021") post.
Proof.
  split; [reflexivity|].
  destruct (extract_year_correct (py "Dune 21600 2021 1080p")) as [H _].
  destruct (H (py "2021") eq_refl) as (pre & post & Hocc & _).
  now exists pre, post.
Defined.

Lemma quality_rank_unknown (q : option pystr) :
  ~ In (or_empty q) known_tiers -> quality_rank q = (-1)%Z.
Proof.
  intros H. unfold quality_rank. generalize dependent (or_empty q).
  intros k H. unfold known_tiers in H. simpl in H.
  cbn [table_get].
  repeat match goal with
         | |- context [str_eqb ?a k] =>
             let E := fresh "E" in
             destruct (str_eqb a k) eqn:E;
             [apply str_eqb_eq in E; exfalso; apply H; auto 10 | clear E]
         end.
  reflexivity.
Qed.

(** C6. The ranks of the five tiers fall strictly from 2160p to HDRip,
    so two tiers of equal rank are the same tier; a label that is none of
    the five, the missing label included, has rank -1, below all of them;
    and [get_quality_label] returns the tier of a marker present in the
    lowered text, one that no other present marker's tier outranks, and
    [None] exactly when no marker is present. *)
Theorem quality_rank_total_order {U : Unicode} :
  map (fun q => quality_rank (Some q)) known_tiers = [4; 3; 2; 1; 0]%Z
  /\ (forall q1 q2, In q1 known_tiers -> In q2 known_tiers ->
        quality_rank (Some q1) = quality_rank (Some q2) -> q1 = q2)
  /\ (forall q, ~ In (or_empty q) known_tiers -> quality_rank q = (-1)%Z)
  /\ (forall q t, ~ In (or_empty q) known_tiers -> In t known_tiers ->
        (quality_rank q < quality_rank (Some t))%Z)
  /\ forall text : pystr,
       (forall q, get_quality_label text = Some q ->
          In q known_tiers
          /\ exists m, In (m, q) quality_markers
                       /\ contains m (lower text) = true)
       /\ (forall m t, In (m, t) quality_markers ->
             contains m (lower text) = true ->
             (quality_rank (Some t) <= quality_rank (get_quality_label text))%Z)
       /\ (get_quality_label text = None <->
           forall m t, In (m, t) quality_markers ->
                       contains m (lower text) = false).
Proof.
  split; [reflexivity|]. split.
  { intros q1 q2 H1 H2. unfold known_tiers in *. simpl in H1, H2.
    repeat (destruct H1 as [<- | H1]; [|]); try contradiction;
      repeat (destruct H2 as [<- | H2]; [|]); try contradiction;
      vm_compute; congruence. }
  split; [exact quality_rank_unknown|]. split.
  { intros q t Hq Ht. rewrite (quality_rank_unknown q Hq).
    unfold known_tiers in Ht. simpl in Ht.
    repeat (destruct Ht as [<- | Ht]; [vm_compute; reflexivity|]).
    contradiction. }
  intros text. unfold get_quality_label. cbn [existsb].
  generalize (lower text). intros t.
  assert (Hmark : forall m tier, In (m, tier) quality_markers ->
            (m, tier) = (py "2160p", py "2160p") \/ (m, tier) = (py "4k", py "2160p")
            \/ (m, tier) = (py "1080p", py "1080p") \/ (m, tier) = (py "720p", py "720p")
            \/ (m, tier) = (py "480p", py "480p") \/ (m, tier) = (py "hdrip", py "HDRip")).
  { intros m tier Hin. unfold quality_markers in Hin. simpl in Hin.
    intuition congruence. }
  assert (Hin : forall k, k < 6 ->
            In (nth k quality_markers ([], [])) quality_markers).
  { intros k Hk. apply nth_In. exact Hk. }
  pose proof (Hin 0 ltac:(lia)) as M0. pose proof (Hin 1 ltac:(lia)) as M1.
  pose proof (Hin 2 ltac:(lia)) as M2. pose proof (Hin 3 ltac:(lia)) as M3.
  pose proof (Hin 4 ltac:(lia)) as M4. pose proof (Hin 5 ltac:(lia)) as M5.
  cbn [nth quality_markers] in M0, M1, M2, M3, M4, M5. clear Hin.
  assert (Hknown : forall q, In q known_tiers <->
            q = py "2160p" \/ q = py "1080p" \/ q = py "720p"
            \/ q = py "480p" \/ q = py "HDRip").
  { intros q. unfold known_tiers. simpl. intuition congruence. }
  destruct (contains (py "2160p") t) eqn:E1; cbn [orb];
    [| destruct (contains (py "4k") t) eqn:E2; cbn [orb];
       [| destruct (contains (py "1080p") t) eqn:E3;
          [| destruct (contains (py "720p") t) eqn:E4;
             [| destruct (contains (py "480p") t) eqn:E5;
                [| destruct (contains (py "hdrip") t) eqn:E6]]]]];
    (split; [| split]);
    try (intros q [= <-]; split; [apply Hknown; tauto | eauto]);
    try (intros q; discriminate);
    try (intros m tier Hm Hc; apply Hmark in Hm;
         repeat (destruct Hm as [[= -> ->] | Hm]);
         try injection Hm as -> ->;
         first [ congruence | vm_compute; discriminate ]);
    try (split; [discriminate | intros Hall; exfalso]);
    try (split; [intros _ m tier Hm; apply Hmark in Hm;
                 repeat (destruct Hm as [[= -> ->] | Hm]);
                 try injection Hm as -> ->; assumption
                | reflexivity]).
  - specialize (Hall _ _ M0). congruence.
  - specialize (Hall _ _ M1). congruence.
  - specialize (Hall _ _ M2). congruence.
  - specialize (Hall _ _ M3). congruence.
  - specialize (Hall _ _ M4). congruence.
  - specialize (Hall _ _ M5). congruence.
Qed.

(** ** Label builder *)

(** C7. The label is never longer than [MAX_LEN] (60); when the joined
    string is longer than that, the label is a prefix of the joined string
    followed by the ellipsis; otherwise it is the joined string. *)
Theorem build_button_label_bound (title : pystr)
  (year quality lang : option pystr) :
  length (build_button_label title year quality lang) <= MAX_LEN
  /\ (MAX_LEN < length (joined_label title year quality lang) ->
      exists p r,
        build_button_label title year quality lang = p ++ [ellipsis]
        /\ joined_label title year quality lang = p ++ r)
  /\ (length (joined_label title year quality lang) <= MAX_LEN ->
      build_button_label title year quality lang
      = joined_label title year quality lang).
Proof.
  unfold build_button_label.
  set (label := joined_label title year quality lang).
  destruct (Nat.ltb_spec MAX_LEN (length label)) as [Hlong | Hshort].
  - destruct (rstrip_prefix (firstn (MAX_LEN - 1) label)) as [r Hr].
    pose proof (rstrip_length (firstn (MAX_LEN - 1) label)) as Hlen.
    rewrite length_firstn in Hlen.
    split; [| split].
    + rewrite length_app. cbn [length]. unfold MAX_LEN in *. lia.
    + intros _. exists (rstrip (firstn (MAX_LEN - 1) label)),
        (r ++ skipn (MAX_LEN - 1) label).
      split; [reflexivity|].
      rewrite app_assoc, <- Hr. symmetry. apply firstn_skipn.
    + intros H. lia.
  - split; [exact Hshort | split]; [intros H; lia | reflexivity].
Qed.

(** A title of 70 letters with a year and a tier is cut to 59 characters
    and the ellipsis. *)
Lemma build_button_label_bound_witness :
  MAX_LEN < length (joined_label (repeat 97%N 70) (Some (py "2010"))
                      (Some (py "1080p")) None)
  /\ exists p r,
       build_button_label (repeat 97%N 70) (Some (py "2010"))
         (Some (py "1080p")) None = p ++ [ellipsis]
       /\ joined_label (repeat 97%N 70) (Some (py "2010"))
            (Some (py "1080p")) None = p ++ r.
Proof.
  assert (H : MAX_LEN < length (joined_label (repeat 97%N 70)
                                  (Some (py "2010")) (Some (py "1080p")) None))
    by (vm_compute; lia).
  split; [exact H|].
  exact (proj1 (proj2 (build_button_label_bound (repeat 97%N 70)
                         (Some (py "2010")) (Some (py "1080p")) None)) H).
Defined.

(** ** The log of a computation *)

Section Emits.
Variable P : action -> Prop.

Lemma emits_ret (A : Type) (a : A) : emits P (ret a).
Proof. intros w. exists []. simpl. now rewrite app_nil_r. Qed.

Lemma emits_raise (A : Type) (e : exn) : emits P (@raise A e).
Proof. intros w. exists []. simpl. now rewrite app_nil_r. Qed.

Lemma emits_bind (A B : Type) (m : M A) (k : A -> M B) :
  emits P m -> (forall a, emits P (k a)) -> emits P (bind m k).
Proof.
  intros Hm Hk w. unfold bind.
  destruct (Hm w) as (tr1 & E1 & F1).
  destruct (m w) as [[a | e] w1]; simpl in E1.
  - destruct (Hk a w1) as (tr2 & E2 & F2).
    exists (tr1 ++ tr2). rewrite E2, E1, app_assoc. split; [reflexivity|].
    now apply Forall_app.
  - exists tr1. now split.
Qed.

Lemma emits_try (A : Type) (m : M A) (h : exn -> M A) :
  emits P m -> (forall e, emits P (h e)) -> emits P (try_except m h).
Proof.
  intros Hm Hh w. unfold try_except.
  destruct (Hm w) as (tr1 & E1 & F1).
  destruct (m w) as [[a | e] w1]; simpl in E1.
  - exists tr1. now split.
  - destruct (Hh e w1) as (tr2 & E2 & F2).
    exists (tr1 ++ tr2). rewrite E2, E1, app_assoc. split; [reflexivity|].
    now apply Forall_app.
Qed.

Lemma emits_call (a : action) : P a -> emits P (call a).
Proof.
  intros Ha w. exists [a]. unfold call.
  destruct (faults w) as [|[e|] fs]; simpl; auto.
Qed.

Lemma emits_sleep (z : Z) : P (Sleep z) -> emits P (sleep z).
Proof. intros Ha w. exists [Sleep z]. simpl. auto. Qed.

Lemma emits_get_response : emits P get_response.
Proof.
  intros w. exists []. unfold get_response.
  destruct (responses w) as [|[e|m] rs]; simpl; now rewrite app_nil_r.
Qed.

Lemma emits_wait_edit : emits P wait_edit.
Proof.
  intros w. exists []. unfold wait_edit.
  destruct (edits w) as [|[e|m] rs]; simpl; now rewrite app_nil_r.
Qed.

Lemma emits_lift_exn (A : Type) (r : exn + A) : emits P (lift_exn r).
Proof. destruct r; [apply emits_raise | apply emits_ret]. Qed.

End Emits.

(** Splits a goal [emits P m] along the structure of [m]. *)
Ltac emits_step :=
  lazymatch goal with
  | |- emits _ (bind _ _) => apply emits_bind; [| intros ?]
  | |- emits _ (try_except _ _) => apply emits_try; [| intros ?]
  | |- emits _ (ret _) => apply emits_ret
  | |- emits _ (raise _) => apply emits_raise
  | |- emits _ (call _) => apply emits_call
  | |- emits _ (sleep _) => apply emits_sleep
  | |- emits _ get_response => apply emits_get_response
  | |- emits _ wait_edit => apply emits_wait_edit
  | |- emits _ (lift_exn _) => apply emits_lift_exn
  | |- emits _ (if ?b then _ else _) => destruct b
  | |- emits _ (match ?x with _ => _ end) => destruct x
  end.

(** ** Sanitized labels *)

Lemma sanitize_clean (text : pystr) :
  clean_label (sanitize_button_text_keep_basic_punct text).
Proof.
  assert (Hall : Forall (fun c => allowed c = true)
                   (sanitize_button_text_keep_basic_punct text)).
  { unfold sanitize_button_text_keep_basic_punct.
    destruct (strip (filter allowed text)) as [|c s] eqn:E.
    - vm_compute. repeat constructor.
    - rewrite <- E. apply Forall_forall. intros x Hx.
      apply strip_incl in Hx. apply filter_In in Hx. tauto. }
  split; [| split].
  - unfold sanitize_button_text_keep_basic_punct.
    destruct (strip (filter allowed text)); discriminate.
  - exact Hall.
  - intros (p & Hp). rewrite Hp in Hall.
    apply Forall_app in Hall. destruct Hall as [_ Hall].
    inversion Hall as [| ? ? He _]. vm_compute in He. discriminate.
Qed.

Lemma sanitize_drops_ellipsis (p : pystr) :
  sanitize_button_text_keep_basic_punct (p ++ [ellipsis])
  = sanitize_button_text_keep_basic_punct p.
Proof.
  unfold sanitize_button_text_keep_basic_punct.
  rewrite filter_app. simpl. now rewrite app_nil_r.
Qed.

Lemma sanitize_placeholder (text : pystr) :
  strip (filter allowed text) = [] ->
  sanitize_button_text_keep_basic_punct text = py "Untitled".
Proof.
  intros H. unfold sanitize_button_text_keep_basic_punct. now rewrite H.
Qed.

Section DiscoveryLog.
Context {U : Unicode}.
Variable normalize_title : pystr -> pystr.

Lemma menu_buttons_clean (chat_id reply_to : Z) (text : pystr)
  (distinct : dict entry) :
  menu_of_entries
    (SendMessage chat_id text (Some (menu_buttons distinct)) reply_to).
Proof.
  simpl. intros row label data Hrow Hin.
  unfold menu_buttons in Hrow. apply in_map_iff in Hrow.
  destruct Hrow as ([title e] & <- & _).
  destruct Hin as [[= <- <-] | []].
  split; [apply sanitize_clean|]. now exists title, e.
Qed.

Lemma pass_gate_emits (P : action -> Prop) (current : message) :
  (forall m i, P (ClickIndex m i)) -> (forall z, P (Sleep z)) ->
  emits P (pass_gate current).
Proof.
  intros Hc Hs. unfold pass_gate. repeat (emits_step; auto).
Qed.

Lemma start_conversation_emits (P : action -> Prop) (query : pystr) :
  P OpenConversation -> P (ConvSend query) ->
  (forall m i, P (ClickIndex m i)) -> (forall z, P (Sleep z)) ->
  emits P (start_conversation query).
Proof.
  intros Ho Hs Hc Hz. unfold start_conversation.
  repeat (apply emits_bind; [first [now apply emits_call
                                   | apply emits_get_response] | intros ?]).
  now apply pass_gate_emits.
Qed.

Lemma walk_emits (P : action -> Prop) (fuel : nat) :
  (forall b, P (ClickButton b)) ->
  forall search_words page_num current distinct,
    emits P (walk normalize_title fuel search_words page_num current distinct).
Proof.
  intros Hc. induction fuel as [|fuel IH]; intros; cbn [walk].
  - repeat (emits_step; auto).
  - destruct (page_num <=? MAX_PAGES_TO_SEARCH)%Z; [|apply emits_ret].
    destruct (find_next (flat_buttons current)); [|apply emits_ret].
    destruct (page_num <? MAX_PAGES_TO_SEARCH)%Z; [|apply emits_ret].
    apply emits_bind.
    + repeat (emits_step; auto).
    + intros [edited|]; [apply IH | apply emits_ret].
Qed.

Lemma discovery_agent_emits (chat_id message_id : Z) (search_query : pystr) :
  emits menu_of_entries
    (discovery_agent normalize_title chat_id message_id search_query).
Proof.
  unfold discovery_agent.
  apply emits_bind; [apply emits_call; exact I | intros _].
  apply emits_try.
  - apply emits_bind.
    + apply emits_bind;
        [apply start_conversation_emits; intros; exact I | intros current].
      destruct (negb (has_buttons _)).
      * repeat (emits_step; try exact I).
      * apply emits_bind; [apply walk_emits; intros; exact I | intros ?].
        apply emits_ret.
    + intros [[| page_num [| kv distinct]] |]; repeat (emits_step; try exact I).
      apply menu_buttons_clean.
  - intros e. repeat (emits_step; try exact I).
Qed.

End DiscoveryLog.

(** C10. Whatever the two endpoints answer, every action of a discovery
    run that shows buttons shows, on each button, the sanitized label of
    an entry (with the entry's token), and such a label is not empty,
    consists of allowed characters only and does not end with the
    ellipsis; sanitation yields the placeholder when nothing else is left,
    and it removes the ellipsis a truncation appended. *)
Theorem discovery_labels_sanitized {U : Unicode}
  (normalize_title : pystr -> pystr) (chat_id message_id : Z)
  (search_query : pystr) (w : world) :
  (exists tr,
     log (snd (discovery_agent normalize_title chat_id message_id
                 search_query w)) = log w ++ tr
     /\ Forall menu_of_entries tr)
  /\ (forall text, clean_label (sanitize_button_text_keep_basic_punct text))
  /\ (forall text, strip (filter allowed text) = [] ->
        sanitize_button_text_keep_basic_punct text = py "Untitled")
  /\ (forall p, sanitize_button_text_keep_basic_punct (p ++ [ellipsis])
                = sanitize_button_text_keep_basic_punct p).
Proof.
  split; [apply discovery_agent_emits|].
  split; [exact sanitize_clean|].
  split; [exact sanitize_placeholder | exact sanitize_drops_ellipsis].
Qed.

(** ** Dedup aggregator *)

Section DictFacts.
Variable V : Type.

Lemma dict_get_set_same (d : dict V) (k : pystr) (v : V) :
  dict_get (dict_set d k v) k = Some v.
Proof.
  induction d as [|[k' v'] d IH]; simpl.
  - now rewrite str_eqb_refl.
  - destruct (str_eqb k' k) eqn:E; simpl; rewrite E; [reflexivity | exact IH].
Qed.

Lemma dict_get_set_other (d : dict V) (k k' : pystr) (v : V) :
  k <> k' -> dict_get (dict_set d k v) k' = dict_get d k'.
Proof.
  intros Hne. induction d as [|[k0 v0] d IH]; simpl.
  - apply str_eqb_neq in Hne. now rewrite Hne.
  - destruct (str_eqb k0 k) eqn:E; simpl.
    + apply str_eqb_eq in E. subst k0.
      apply str_eqb_neq in Hne. now rewrite Hne.
    + destruct (str_eqb k0 k'); [reflexivity | exact IH].
Qed.

Lemma dict_set_keys (d : dict V) (k : pystr) (v : V) :
  map fst (dict_set d k v)
  = if existsb (fun k' => str_eqb k' k) (map fst d) then map fst d
    else map fst d ++ [k].
Proof.
  induction d as [|[k0 v0] d IH]; simpl; [reflexivity|].
  destruct (str_eqb k0 k) eqn:E; simpl; [reflexivity|].
  rewrite IH. now destruct (existsb _ _).
Qed.

Lemma dict_set_nodup (d : dict V) (k : pystr) (v : V) :
  NoDup (map fst d) -> NoDup (map fst (dict_set d k v)).
Proof.
  intros H. rewrite dict_set_keys.
  destruct (existsb _ _) eqn:E; [exact H|].
  apply NoDup_app; [exact H | repeat constructor; auto |].
  intros x Hx [-> | []].
  assert (X : existsb (fun k' => str_eqb k' x) (map fst d) = true).
  { apply existsb_exists. exists x. split; [exact Hx | apply str_eqb_refl]. }
  congruence.
Qed.

End DictFacts.

Lemma consider_same (d : dict entry) (t : pystr) (e : entry) :
  dict_get (consider d t e) t = keep_best (dict_get d t) e.
Proof.
  unfold consider, keep_best.
  destruct (dict_get d t) as [prior|] eqn:E.
  - destruct (qrank prior <? qrank e)%Z; [apply dict_get_set_same | exact E].
  - apply dict_get_set_same.
Qed.

Lemma consider_other (d : dict entry) (k t : pystr) (e : entry) :
  k <> t -> dict_get (consider d k e) t = dict_get d t.
Proof.
  intros Hne. unfold consider.
  destruct (dict_get d k) as [prior|].
  - destruct (qrank prior <? qrank e)%Z;
      [now apply dict_get_set_other | reflexivity].
  - now apply dict_get_set_other.
Qed.

Lemma consider_nodup (d : dict entry) (k : pystr) (e : entry) :
  NoDup (map fst d) -> NoDup (map fst (consider d k e)).
Proof.
  intros H. unfold consider.
  destruct (dict_get d k) as [prior|];
    [destruct (qrank prior <? qrank e)%Z |]; auto using dict_set_nodup.
Qed.

Lemma feed_get (stream : list (pystr * entry)) (t : pystr) :
  forall d,
    dict_get (feed d stream) t
    = fold_left keep_best (with_title t stream) (dict_get d t).
Proof.
  unfold feed, with_title.
  induction stream as [|[k c] stream IH]; intros d; simpl; [reflexivity|].
  rewrite IH. destruct (str_eqb k t) eqn:E; simpl.
  - apply str_eqb_eq in E. subst k. now rewrite consider_same.
  - apply str_eqb_neq in E. now rewrite consider_other.
Qed.

Lemma feed_nodup (stream : list (pystr * entry)) :
  forall d, NoDup (map fst d) -> NoDup (map fst (feed d stream)).
Proof.
  unfold feed. induction stream as [|[k c] stream IH]; intros d H; simpl;
    [exact H | apply IH, consider_nodup, H].
Qed.

Lemma keep_best_first_best (cs : list entry) (c0 : entry) :
  exists e, fold_left keep_best cs (Some c0) = Some e
            /\ first_best (c0 :: cs) e.
Proof.
  induction cs as [|c cs IH] using rev_ind.
  - exists c0. split; [reflexivity|]. exists [], []. simpl. intuition.
  - destruct IH as (e & Ee & before & after & Ecs & Hb & Ha).
    rewrite fold_left_app, Ee. simpl.
    destruct (Z.ltb_spec (qrank e) (qrank c)) as [Hlt | Hge].
    + exists c. split; [reflexivity|].
      exists (c0 :: cs), []. split; [now rewrite app_comm_cons | split].
      * intros x Hx. rewrite Ecs in Hx. apply in_app_or in Hx.
        destruct Hx as [Hx | [<- | Hx]];
          [apply Hb in Hx | | apply Ha in Hx]; lia.
      * intros x [].
    + exists e. split; [reflexivity|].
      exists before, (after ++ [c]). split; [| split].
      * rewrite app_comm_cons, Ecs, <- app_assoc. reflexivity.
      * exact Hb.
      * intros x Hx. apply in_app_or in Hx.
        destruct Hx as [Hx | [<- | []]]; [now apply Ha | lia].
Qed.

Section ScanFacts.
Context {U : Unicode}.
Variable normalize_title : pystr -> pystr.

Lemma scan_button_candidate (search_words : list pystr) (page_num : Z)
  (distinct : dict entry) (ib : Z * button) :
  scan_button normalize_title search_words page_num distinct ib
  = match candidate normalize_title search_words page_num ib with
    | Some c => consider distinct (fst c) (snd c)
    | None => distinct
    end.
Proof.
  unfold scan_button, candidate. destruct ib as [i btn]. cbn [fst snd].
  destruct (strip (or_empty (btn_text btn))) as [|c text]; [reflexivity|].
  destruct (negb _); [reflexivity|].
  destruct (normalize_title (c :: text)); reflexivity.
Qed.

Lemma scan_page_feed (search_words : list pystr) (page_num : Z)
  (page_buttons : list button) (distinct : dict entry) :
  scan_page normalize_title search_words page_num page_buttons distinct
  = feed distinct
      (page_candidates normalize_title search_words page_num page_buttons).
Proof.
  unfold scan_page, page_candidates, feed.
  generalize (enumerate page_buttons). intros l. revert distinct.
  induction l as [|ib l IH]; intros distinct; simpl; [reflexivity|].
  rewrite IH, scan_button_candidate.
  destruct (candidate normalize_title search_words page_num ib);
    reflexivity.
Qed.

End ScanFacts.

(** C1. After any stream of titled candidates has been fed to the empty
    dictionary, the entry kept under a title, page and index included, is
    the first candidate of that title whose rank is the greatest among
    the candidates of that title (no entry when there was none); an entry
    is replaced by a new candidate exactly when the new rank is strictly
    greater; no title is kept twice; and the scan of a page feeds the
    candidates of its buttons in button order. *)
Theorem aggregator_keeps_first_best {U : Unicode}
  (stream : list (pystr * entry)) (t : pystr) :
  match dict_get (feed [] stream) t with
  | Some e => first_best (with_title t stream) e
  | None => with_title t stream = []
  end
  /\ (forall d prior c,
        dict_get d t = Some prior ->
        dict_get (consider d t c) t
        = Some (if (qrank prior <? qrank c)%Z then c else prior))
  /\ NoDup (map fst (feed [] stream))
  /\ forall normalize_title search_words page_num page_buttons distinct,
       scan_page normalize_title search_words page_num page_buttons distinct
       = feed distinct
           (page_candidates normalize_title search_words page_num
              page_buttons).
Proof.
  split; [| split; [| split]].
  - rewrite feed_get. simpl.
    destruct (with_title t stream) as [|c0 cs]; simpl; [reflexivity|].
    destruct (keep_best_first_best cs c0) as (e & -> & H). exact H.
  - intros d prior c H. rewrite consider_same, H. simpl.
    now destruct (qrank prior <? qrank c)%Z.
  - apply feed_nodup. constructor.
  - intros. apply scan_page_feed.
Qed.

(** Three candidates of one title: 720p on page 1, then two of 1080p on
    page 2; the first 1080p is kept. *)
Lemma aggregator_keeps_first_best_witness :
  first_best
    (with_title (py "Inception")
       [(py "Inception",
         {| page := 1; index := 0; qrank := 2; qlabel := Some (py "720p");
            year := None; lang := None |});
        (py "Inception",
         {| page := 2; index := 0; qrank := 3; qlabel := Some (py "1080p");
            year := None; lang := None |});
        (py "Inception",
         {| page := 2; index := 1; qrank := 3; qlabel := Some (py "1080p");
            year := None; lang := None |})])
    {| page := 2; index := 0; qrank := 3; qlabel := Some (py "1080p");
       year := None; lang := None |}.
Proof.
  exact (proj1 (@aggregator_keeps_first_best ascii_unicode
                  [(py "Inception",
                    {| page := 1; index := 0; qrank := 2;
                       qlabel := Some (py "720p");
                       year := None; lang := None |});
                   (py "Inception",
                    {| page := 2; index := 0; qrank := 3;
                       qlabel := Some (py "1080p");
                       year := None; lang := None |});
                   (py "Inception",
                    {| page := 2; index := 1; qrank := 3;
                       qlabel := Some (py "1080p");
                       year := None; lang := None |})]
                  (py "Inception"))).
Defined.

(** ** Token codec *)

Lemma cut_found (sep : char) (h t : pystr) :
  ~ In sep h -> cut sep (h ++ sep :: t) = (h, Some t).
Proof.
  induction h as [|c h IH]; intros Hn; simpl.
  - now rewrite N.eqb_refl.
  - destruct (N.eqb_spec c sep) as [-> | Hne].
    + exfalso. apply Hn. now left.
    + rewrite IH; [reflexivity|]. intros H. apply Hn. now right.
Qed.

Lemma cut_spec (sep : char) (s : pystr) :
  match cut sep s with
  | (h, Some t) => s = h ++ sep :: t /\ ~ In sep h
  | (h, None) => s = h /\ ~ In sep s
  end.
Proof.
  induction s as [|c s IH]; simpl; [auto|].
  destruct (N.eqb_spec c sep) as [-> | Hne]; [auto|].
  destruct (cut sep s) as [h [t|]]; destruct IH as [-> Hn]; split;
    try reflexivity; intros [E | H]; auto.
Qed.

Lemma chars_of_uint_digits (d : Decimal.uint) :
  Forall (fun c => In c digit_chars) (chars_of_uint d).
Proof.
  induction d; simpl; constructor; try assumption; unfold digit_chars;
    simpl; auto 12.
Qed.

Lemma chars_of_uint_nonnil (d : Decimal.uint) :
  d <> Decimal.Nil -> chars_of_uint d <> [].
Proof. destruct d; simpl; congruence. Qed.

Lemma scan_chars_acc (d : Decimal.uint) :
  forall acc : positive,
    scan_digits (Z.pos acc) false (chars_of_uint d)
    = Some (Z.pos (Pos.of_uint_acc d acc), []).
Proof.
  induction d; intros acc; cbn [chars_of_uint Pos.of_uint_acc scan_digits];
    [reflexivity | ..];
    match goal with
    | |- context [digit_val ?c] =>
        change (digit_val c) with (Some (Z.of_N c - 48)%Z)
    end;
    cbv beta iota;
    match goal with
    | |- scan_digits ?a false _ = Some (Z.pos (Pos.of_uint_acc _ ?b), _) =>
        replace a with (Z.pos b) by lia
    end;
    apply IHd.
Qed.

Lemma scan_chars (d : Decimal.uint) :
  scan_digits 0 false (chars_of_uint d) = Some (Z.of_N (Pos.of_uint d), []).
Proof.
  induction d; cbn [chars_of_uint Pos.of_uint scan_digits];
    [reflexivity | ..];
    match goal with
    | |- context [digit_val ?c] =>
        change (digit_val c) with (Some (Z.of_N c - 48)%Z)
    end;
    cbv beta iota;
    cbn [Z.of_N Z.sub Z.add Z.opp Z.pos_sub Z.mul Pos.pred_double Z.succ_double
         Z.pred_double Z.double Pos.add Pos.succ];
    first [exact IHd | apply scan_chars_acc].
Qed.

Section CodecFacts.
Context {U : Unicode}.

Lemma to_ascii_digits (s : pystr) :
  Forall (fun c => In c digit_chars) s -> map to_ascii s = s.
Proof.
  induction 1 as [|c s Hc _ IH]; simpl; [reflexivity|].
  rewrite IH. f_equal. unfold digit_chars in Hc. simpl in Hc.
  repeat (destruct Hc as [<- | Hc]; [reflexivity|]). contradiction.
Qed.

Lemma py_int_digits (s : pystr) (v : Z) :
  Forall (fun c => In c digit_chars) s -> s <> [] ->
  scan_digits 0 false s = Some (v, []) ->
  py_int s = Some v /\ py_int (45%N :: s) = Some (- v)%Z.
Proof.
  intros Hd Hne Hscan.
  destruct s as [|c s']; [contradiction|].
  assert (Hc : In c digit_chars) by now inversion Hd.
  unfold py_int. change (map to_ascii (45%N :: c :: s'))
    with (45%N :: map to_ascii (c :: s')).
  rewrite (to_ascii_digits Hd).
  assert (Hfacts : c_isspace c = false /\ (c =? 43)%N = false
                   /\ (c =? 45)%N = false
                   /\ digit_val c = Some (Z.of_N c - 48)%Z).
  { unfold digit_chars in Hc. simpl in Hc.
    repeat (destruct Hc as [<- | Hc]; [now vm_compute|]). contradiction. }
  destruct Hfacts as (H1 & H2 & H3 & H4).
  split.
  - cbn [skip_space]. rewrite H1, H2, H3, H4, Hscan. cbn [skip_space].
    f_equal; lia.
  - cbn [skip_space]. change (c_isspace 45%N) with false. cbv iota.
    change (45 =? 43)%N with false. change (45 =? 45)%N with true. cbv iota.
    rewrite H4, Hscan. cbn [skip_space]. f_equal; lia.
Qed.

Lemma py_int_str_of_int (z : Z) : py_int (str_of_int z) = Some z.
Proof.
  unfold str_of_int. destruct z as [|p|p]; cbn [Z.to_int].
  - reflexivity.
  - pose proof (scan_chars (Pos.to_uint p)) as Hs.
    rewrite DecimalPos.Unsigned.of_to in Hs.
    apply py_int_digits;
      [apply chars_of_uint_digits
      | apply chars_of_uint_nonnil, DecimalPos.Unsigned.to_uint_nonnil
      | exact Hs].
  - pose proof (scan_chars (Pos.to_uint p)) as Hs.
    rewrite DecimalPos.Unsigned.of_to in Hs.
    change (Z.neg p) with (- Z.pos p)%Z.
    apply py_int_digits;
      [apply chars_of_uint_digits
      | apply chars_of_uint_nonnil, DecimalPos.Unsigned.to_uint_nonnil
      | exact Hs].
Qed.

Lemma str_of_int_no_colon (z : Z) : ~ In 58%N (str_of_int z).
Proof.
  assert (H : forall d, ~ In 58%N (chars_of_uint d)).
  { intros d Hin. pose proof (chars_of_uint_digits d) as Hd.
    rewrite Forall_forall in Hd. apply Hd in Hin.
    unfold digit_chars in Hin. simpl in Hin.
    repeat (destruct Hin as [Hin | Hin]; [discriminate|]). exact Hin. }
  unfold str_of_int. destruct (Z.to_int z); [apply H|].
  intros [Hin | Hin]; [discriminate | now apply H in Hin].
Qed.

(** What [decode_token] does once the prefix is there. *)
Lemma decode_token_prefixed (r : pystr) :
  decode_token (py "get:" ++ r)
  = match cut 58%N r with
    | (page_str, Some index_str) =>
        match py_int page_str, py_int index_str with
        | Some p, Some i => inr (Some (p, i))
        | _, _ => inl ValueError
        end
    | (_, None) => inl ValueError
    end.
Proof.
  unfold decode_token.
  assert (Hs : startswith (py "get:" ++ r) (py "get:") = true)
    by (apply startswith_app; now exists r).
  rewrite Hs. cbn [negb].
  change (py "get:" ++ r) with (103 :: 101 :: 116 :: 58 :: r)%N.
  cbn [split_max cut N.eqb Pos.eqb].
  destruct (cut 58%N r) as [page_str [index_str|]]; [|reflexivity].
  destruct (py_int page_str); [|reflexivity].
  destruct (py_int index_str); reflexivity.
Qed.

Lemma decode_token_no_prefix (data : pystr) :
  startswith data (py "get:") = false -> decode_token data = inr None.
Proof. intros H. unfold decode_token. now rewrite H. Qed.

End CodecFacts.

Lemma skip_space_split (s : pystr) :
  exists sp, s = sp ++ skip_space s /\ Forall (fun c => int_char c = true) sp.
Proof.
  induction s as [|c s (sp & E & H)]; simpl.
  - now exists [].
  - destruct (c_isspace c) eqn:Ec.
    + exists (c :: sp). split; [simpl; now f_equal|].
      constructor; [|exact H]. unfold int_char. now rewrite Ec.
    + now exists [].
Qed.

Lemma scan_digits_chars (s : pystr) :
  forall acc us v rest,
    scan_digits acc us s = Some (v, rest) ->
    exists used, s = used ++ rest /\ Forall (fun c => int_char c = true) used.
Proof.
  induction s as [|c s IH]; intros acc us v rest; simpl.
  - destruct us; [discriminate|]. intros [= <- <-]. now exists [].
  - destruct (digit_val c) as [d|] eqn:Ed.
    + intros H. apply IH in H. destruct H as (used & -> & Hu).
      exists (c :: used). split; [reflexivity|]. constructor; [|exact Hu].
      unfold int_char. rewrite Ed. now rewrite !orb_true_r.
    + destruct (c =? 95)%N eqn:E95.
      * destruct us; [discriminate|].
        intros H. apply IH in H. destruct H as (used & -> & Hu).
        exists (c :: used). split; [reflexivity|]. constructor; [|exact Hu].
        unfold int_char. rewrite E95. now rewrite !orb_true_r.
      * destruct us; [discriminate|]. intros [= <- <-]. now exists [].
Qed.

Section IntFacts.
Context {U : Unicode}.

Lemma py_int_chars (s : pystr) (v : Z) :
  py_int s = Some v -> Forall (fun c => int_char c = true) (map to_ascii s).
Proof.
  unfold py_int.
  destruct (skip_space_split (map to_ascii s)) as (sp & E & Hsp).
  rewrite E at 2. generalize dependent (skip_space (map to_ascii s)).
  intros t _ H. apply Forall_app. split; [exact Hsp|].
  assert (Htail : forall sign t0,
             match t0 with
             | c :: _ =>
                 match digit_val c with
                 | Some _ =>
                     match scan_digits 0 false t0 with
                     | Some (v0, rest) =>
                         match skip_space rest with
                         | [] => Some (sign * v0)%Z
                         | _ :: _ => None
                         end
                     | None => None
                     end
                 | None => None
                 end
             | [] => None
             end = Some v ->
             Forall (fun c => int_char c = true) t0).
  { intros sign t0 H0. destruct t0 as [|c t0']; [discriminate|].
    destruct (digit_val c); [|discriminate].
    destruct (scan_digits 0 false (c :: t0')) as [[v0 rest]|] eqn:Es;
      [|discriminate].
    apply scan_digits_chars in Es. destruct Es as (used & -> & Hu).
    apply Forall_app. split; [exact Hu|].
    destruct (skip_space_split rest) as (sp' & E' & Hsp').
    destruct (skip_space rest); [|discriminate].
    rewrite E', app_nil_r. exact Hsp'. }
  destruct t as [|c t']; [discriminate|].
  destruct (c =? 43)%N eqn:E43; [| destruct (c =? 45)%N eqn:E45].
  - constructor; [unfold int_char; rewrite E43; now rewrite !orb_true_r|].
    now apply (Htail 1%Z).
  - constructor; [unfold int_char; rewrite E45; now rewrite !orb_true_r|].
    now apply (Htail (-1)%Z).
  - now apply (Htail 1%Z).
Qed.

Lemma py_int_colon (s : pystr) : In 58%N s -> py_int s = None.
Proof.
  intros Hin. destruct (py_int s) as [v|] eqn:E; [|reflexivity].
  apply py_int_chars in E. rewrite Forall_forall in E.
  specialize (E (to_ascii 58%N) (in_map to_ascii s 58%N Hin)).
  vm_compute in E. discriminate.
Qed.

End IntFacts.

(** C2. Decoding the token built from any two integers (the non-negative
    ones among them) gives them back; a text decodes to a page and an
    index exactly when it has the expected shape; every other text gives
    the silent return (without the prefix) or a [ValueError], which line
    221 catches: fewer than three fields, a field [int] refuses, or a
    further colon, which lands in the last field. *)
Theorem token_round_trip {U : Unicode} :
  (forall p i : Z, decode_token (callback_data p i) = inr (Some (p, i)))
  /\ (forall data p i,
        decode_token data = inr (Some (p, i)) <-> token_shape data p i)
  /\ (forall data,
        (forall p i, ~ token_shape data p i) ->
        decode_token data = inr None \/ decode_token data = inl ValueError)
  /\ (forall data,
        startswith data (py "get:") = false -> decode_token data = inr None)
  /\ (forall rest,
        ~ In 58%N rest -> decode_token (py "get:" ++ rest) = inl ValueError)
  /\ (forall page_str index_str,
        py_int page_str = None \/ py_int index_str = None ->
        decode_token (py "get:" ++ page_str ++ 58%N :: index_str)
        = inl ValueError)
  /\ (forall page_str index_str more,
        decode_token (py "get:" ++ page_str ++ 58%N :: index_str
                      ++ 58%N :: more) = inl ValueError).
Proof.
  assert (Hshape : forall data p i,
             decode_token data = inr (Some (p, i)) <-> token_shape data p i).
  { intros data p i. split.
    - intros H. destruct (startswith data (py "get:")) eqn:Es.
      + apply startswith_app in Es. destruct Es as [r ->].
        rewrite decode_token_prefixed in H.
        pose proof (cut_spec 58%N r) as Hc.
        destruct (cut 58%N r) as [page_str [index_str|]]; [|discriminate].
        destruct Hc as [-> Hn].
        destruct (py_int page_str) as [p'|] eqn:Ep; [|discriminate].
        destruct (py_int index_str) as [i'|] eqn:Ei; [|discriminate].
        injection H as -> ->. now exists page_str, index_str.
      + rewrite decode_token_no_prefix in H by exact Es. discriminate.
    - intros (page_str & index_str & -> & Hn & Hp & Hi).
      rewrite decode_token_prefixed, cut_found by exact Hn.
      now rewrite Hp, Hi. }
  assert (Hbad : forall page_str index_str,
             py_int page_str = None \/ py_int index_str = None ->
             decode_token (py "get:" ++ page_str ++ 58%N :: index_str)
             = inl ValueError).
  { intros page_str index_str Hnone. rewrite decode_token_prefixed.
    destruct (in_dec N.eq_dec 58%N page_str) as [Hin | Hnin].
    - (* the first field ends at the first colon of [page_str]; the rest
         of it, with a colon, lands in the last field *)
      pose proof (cut_spec 58%N (page_str ++ 58%N :: index_str)) as Hc.
      destruct (cut 58%N (page_str ++ 58%N :: index_str)) as [a [b|]];
        [|reflexivity].
      destruct Hc as [E Hn].
      assert (Hb : In 58%N b).
      { apply (count_occ_In N.eq_dec).
        apply (f_equal (fun l => count_occ N.eq_dec l 58%N)) in E.
        rewrite !count_occ_app, !count_occ_cons_eq in E by reflexivity.
        apply (count_occ_In N.eq_dec) in Hin.
        apply (count_occ_not_In N.eq_dec) in Hn.
        unfold pystr, char in *. lia. }
      rewrite (py_int_colon _ Hb). now destruct (py_int a).
    - rewrite cut_found by exact Hnin.
      destruct Hnone as [-> | ->]; [reflexivity|].
      now destruct (py_int page_str). }
  split; [| split; [exact Hshape | split; [| split; [| split; [| split]]]]].
  - intros p i. apply Hshape. unfold callback_data.
    exists (str_of_int p), (str_of_int i). split; [reflexivity|].
    split; [apply str_of_int_no_colon|].
    split; apply py_int_str_of_int.
  - intros data Hno. destruct (startswith data (py "get:")) eqn:Es.
    + right. apply startswith_app in Es. destruct Es as [r ->].
      rewrite decode_token_prefixed.
      pose proof (cut_spec 58%N r) as Hc.
      destruct (cut 58%N r) as [page_str [index_str|]]; [|reflexivity].
      destruct Hc as [-> Hn].
      destruct (py_int page_str) as [p|] eqn:Ep; [|reflexivity].
      destruct (py_int index_str) as [i|] eqn:Ei; [|reflexivity].
      exfalso. apply (Hno p i). now exists page_str, index_str.
    + left. now apply decode_token_no_prefix.
  - exact decode_token_no_prefix.
  - intros rest Hn. rewrite decode_token_prefixed.
    pose proof (cut_spec 58%N rest) as Hc.
    destruct (cut 58%N rest) as [a [b|]]; [|reflexivity].
    destruct Hc as [-> _]. exfalso. apply Hn, in_or_app. right. now left.
  - exact Hbad.
  - intros page_str index_str more. apply Hbad. right.
    apply py_int_colon, in_or_app. right. now left.
Qed.

(** ** Callbacks that do not decode *)

Section MalformedFacts.
Context {U : Unicode}.
Variable normalize_title : pystr -> pystr.

Lemma execution_agent_invalid (event : callback) (e : exn) (w : world) :
  decode_token (or_empty (cb_data event)) = inl e ->
  execution_agent event w
  = call (Answer (Some (py "Invalid selection.")) true) w.
Proof.
  intros H. unfold execution_agent. rewrite H.
  unfold bind, try_except, lift_exn, raise, ret.
  destruct (call (Answer (Some (py "Invalid selection.")) true) w)
    as [[[]|e'] w1]; reflexivity.
Qed.

Lemma execution_agent_no_prefix (event : callback) (w : world) :
  decode_token (or_empty (cb_data event)) = inr None ->
  execution_agent event w
  = try_except (call (Answer None false))
      (fun _ => call (Answer (Some (py "Invalid selection.")) true)) w.
Proof.
  intros H. unfold execution_agent. rewrite H.
  unfold bind, try_except, lift_exn, raise, ret.
  destruct (call (Answer None false) w) as [[[]|e'] w1]; [reflexivity|].
  destruct (call (Answer (Some (py "Invalid selection.")) true) w1)
    as [[[]|e''] w2]; reflexivity.
Qed.

Lemma listener_no_prefix (event : callback) (w : world) :
  startswith (or_empty (cb_data event)) (py "get:") = false ->
  private_callback_listener event w = call (Answer None false) w.
Proof.
  intros H. unfold private_callback_listener. rewrite H.
  now destruct (negb (cb_is_private event)).
Qed.

Lemma listener_not_private (event : callback) (w : world) :
  cb_is_private event = false ->
  private_callback_listener event w = call (Answer None false) w.
Proof. intros H. unfold private_callback_listener. now rewrite H. Qed.

(** The call of line 329 passes two arguments to a function of one
    parameter. *)
Lemma listener_prefixed (event : callback) (w : world) :
  cb_is_private event = true ->
  startswith (or_empty (cb_data event)) (py "get:") = true ->
  private_callback_listener event w = (Exc TypeError, w).
Proof.
  intros Hp H. unfold private_callback_listener. now rewrite Hp, H.
Qed.

End MalformedFacts.

Lemma call_no_fault (a : action) (w : world) :
  faults w = [] ->
  call a w = (Val tt, {| responses := responses w; edits := edits w;
                         faults := []; log := log w ++ [a] |}).
Proof. intros H. unfold call. now rewrite H. Qed.

(** C3, as stated, fails: the token [get:x:1] has the prefix and a field
    that is no integer; [execution_agent] answers it with the alert
    "Invalid selection.", and the listener, which passes two arguments to
    [execution_agent], raises [TypeError] before anything is answered. *)
Lemma malformed_token_counterexample :
  @decode_token ascii_unicode (py "get:x:1") = inl ValueError
  /\ @execution_agent ascii_unicode (click_event "get:x:1") (quiet [] [])
     = (Val tt,
        {| responses := []; edits := []; faults := [];
           log := [Answer (Some (py "Invalid selection.")) true] |})
  /\ ~ silently_acknowledged (@execution_agent ascii_unicode)
         (click_event "get:x:1") (quiet [] [])
  /\ @private_callback_listener ascii_unicode (click_event "get:x:1")
       (quiet [] [])
     = (Exc TypeError, quiet [] []).
Proof.
  split; [reflexivity|]. split; [reflexivity|]. split; [|reflexivity].
  intros (w' & Hrun & Hlog).
  assert (E : log w' = [Answer (Some (py "Invalid selection.")) true]).
  { change (@execution_agent ascii_unicode (click_event "get:x:1")
              (quiet [] []))
      with (@Val unit tt,
            {| responses := []; edits := []; faults := [];
               log := [Answer (Some (py "Invalid selection.")) true] |})
      in Hrun.
    injection Hrun as <-. reflexivity. }
  rewrite E in Hlog. discriminate.
Qed.

(** C3, amended. When the sends succeed and the token does not decode:
    without the prefix, the listener and [execution_agent] acknowledge
    silently; with the prefix, [execution_agent] answers with the alert
    "Invalid selection." and does nothing else; outside a private chat
    the listener acknowledges silently.  No exception of the decoding
    leaves [execution_agent]. *)
Theorem malformed_token_handling {U : Unicode} (event : callback)
  (w : world) :
  (forall p i,
     decode_token (or_empty (cb_data event)) <> inr (Some (p, i))) ->
  faults w = [] ->
  (startswith (or_empty (cb_data event)) (py "get:") = false ->
     silently_acknowledged private_callback_listener event w
     /\ silently_acknowledged execution_agent event w)
  /\ (startswith (or_empty (cb_data event)) (py "get:") = true ->
      exists w',
        execution_agent event w = (Val tt, w')
        /\ log w' = log w ++ [Answer (Some (py "Invalid selection.")) true])
  /\ (cb_is_private event = false ->
      silently_acknowledged private_callback_listener event w).
Proof.
  intros Hbad Hf.
  assert (Hsilent : exists w',
             call (Answer None false) w = (Val tt, w')
             /\ log w' = log w ++ [Answer None false]).
  { rewrite call_no_fault by exact Hf. eexists. split; reflexivity. }
  split; [| split].
  - intros Hs. split.
    + unfold silently_acknowledged. now rewrite listener_no_prefix.
    + unfold silently_acknowledged.
      rewrite execution_agent_no_prefix
        by now apply decode_token_no_prefix.
      unfold try_except. destruct Hsilent as (w' & -> & Hlog).
      now exists w'.
  - intros Hs.
    destruct (decode_token (or_empty (cb_data event))) as [e | [[p i]|]] eqn:E.
    + rewrite (execution_agent_invalid event w E), call_no_fault by exact Hf.
      eexists. split; reflexivity.
    + exfalso. now apply (Hbad p i).
    + exfalso. unfold decode_token in E. rewrite Hs in E. cbn [negb] in E.
      destruct (split_max 58%N 2 (or_empty (cb_data event)))
        as [|? [|? [|? [|? ?]]]]; try discriminate.
      destruct (py_int _); [|discriminate].
      destruct (py_int _); discriminate.
  - intros Hp. unfold silently_acknowledged.
    now rewrite listener_not_private.
Qed.

(** A token without the prefix, and one with a field that is no integer. *)
Lemma malformed_token_handling_witness :
  silently_acknowledged (@private_callback_listener ascii_unicode)
    (click_event "xyz") (quiet [] [])
  /\ exists w',
       @execution_agent ascii_unicode (click_event "get:1") (quiet [] [])
       = (Val tt, w')
       /\ log w' = [Answer (Some (py "Invalid selection.")) true].
Proof.
  split.
  - refine (proj1 (proj1 (@malformed_token_handling ascii_unicode
                            (click_event "xyz") (quiet [] []) _ eq_refl)
                     eq_refl)).
    intros p i. discriminate.
  - refine (proj1 (proj2 (@malformed_token_handling ascii_unicode
                            (click_event "get:1") (quiet [] []) _ eq_refl))
              eq_refl).
    intros p i. discriminate.
Defined.

(** ** Delivery *)

Section DeliveryFacts.
Context {U : Unicode}.

Lemma emits_bind_raise (P : action -> Prop) (A B : Type) (e : exn)
  (k : A -> M B) : emits P (bind (raise e) k).
Proof. intros w. exists []. simpl. now rewrite app_nil_r. Qed.

Lemma replay_next_emits (P : action -> Prop) (n : nat) :
  (forall b, P (ClickButton b)) ->
  forall current, emits P (replay_next n current).
Proof.
  intros Hc. induction n as [|n IH]; intros current; cbn [replay_next].
  - apply emits_ret.
  - destruct (find_next (flat_buttons current)); [|apply emits_raise].
    repeat (emits_step; auto).
Qed.

Lemma poll_file_emits (P : action -> Prop) (n : nat) :
  emits P (poll_file n).
Proof.
  induction n as [|n IH]; cbn [poll_file]; [apply emits_ret|].
  apply emits_bind; [apply emits_get_response|].
  intros resp. destruct (msg_media resp); [apply emits_ret | exact IH].
Qed.

(** No run reaches the call of line 269: the name [user_id] is bound
    neither in the function nor in the module. *)
Lemma deliver_never_forwards (event : callback) (current : message)
  (target_page target_index : Z) :
  emits (fun a => is_forward a = false)
    (deliver event current target_page target_index).
Proof.
  unfold deliver.
  apply emits_bind; [apply emits_call; reflexivity | intros _].
  apply emits_bind; [apply poll_file_emits | intros [final|]].
  - apply emits_bind_raise.
  - apply emits_raise.
Qed.

Lemma retrieve_never_forwards (event : callback) (query : pystr)
  (target_page target_index : Z) :
  emits (fun a => is_forward a = false)
    (retrieve event query target_page target_index).
Proof.
  unfold retrieve.
  apply emits_bind;
    [apply start_conversation_emits; intros; reflexivity | intros current].
  apply emits_bind;
    [apply replay_next_emits; intros; reflexivity | intros target].
  apply deliver_never_forwards.
Qed.

Lemma execution_agent_never_forwards (event : callback) :
  emits (fun a => is_forward a = false) (execution_agent event).
Proof.
  unfold execution_agent. apply emits_bind.
  - apply emits_try.
    + apply emits_bind; [apply emits_lift_exn|].
      intros [[p i]|]; repeat (emits_step; try reflexivity).
    + intros e. repeat (emits_step; try reflexivity).
  - intros [[[p i] title]|]; [|apply emits_ret].
    destruct (cb_message event) as [reply_message|]; [|apply emits_raise].
    destruct (menu_reply reply_message) as [[[[|c q]|] bs md]|];
      try (apply emits_call; reflexivity).
    apply emits_bind.
    + repeat (emits_step; try reflexivity).
    + intros _. unfold retrieve_or_report. apply emits_try.
      * apply retrieve_never_forwards.
      * intros e. repeat (emits_step; try reflexivity).
Qed.

End DeliveryFacts.

(** C9, evaluated.  The remote bot answers the click on [get:1:0] with a
    note and then the file, all sends succeed.  The listener raises
    [TypeError] at line 329 and nothing is done.  [execution_agent] itself,
    handed the event alone, clicks the target, receives the file at its
    second poll, and then fails on the unbound name [user_id]: the file is
    not forwarded, and the status message is not deleted but overwritten
    with the error line. *)
Theorem delivery_never_happens :
  @private_callback_listener ascii_unicode (click_event "get:1:0")
    delivery_world
  = (Exc TypeError, delivery_world)
  /\ @execution_agent ascii_unicode (click_event "get:1:0") delivery_world
     = (Val tt,
        {| responses := []; edits := []; faults := [];
           log :=
             [EventEdit
                (py "Fetching " ++ quoted (py "Inception - 2010 - 1080p")
                 ++ py "...");
              OpenConversation;
              ConvSend (py "inception");
              ClickIndex (menu_page ["Inception 2010 1080p"; "Next"]%string) 0;
              EventEdit (py "An error occurred during retrieval.")] |})
  /\ forall (event : callback) (w : world),
       exists tr,
         log (snd (@execution_agent ascii_unicode event w)) = log w ++ tr
         /\ Forall (fun a => is_forward a = false) tr.
Proof.
  split; [reflexivity|]. split; [vm_compute; reflexivity|].
  intros event. apply execution_agent_never_forwards.
Qed.

(** ** Pagination walker *)

Lemma call_cases (a : action) (w : world) :
  exists r w',
    call a w = (r, w') /\ log w' = log w ++ [a]
    /\ edits w' = edits w /\ responses w' = responses w.
Proof.
  unfold call. destruct (faults w) as [|[e|] fs]; eauto 10.
Qed.

Lemma wait_edit_cases (w : world) :
  exists r w',
    wait_edit w = (r, w') /\ log w' = log w
    /\ length (edits w) <= S (length (edits w')).
Proof.
  unfold wait_edit. destruct (edits w) as [|[e|m] es] eqn:E;
    do 2 eexists; (split; [reflexivity|]); simpl; rewrite ?E; simpl; auto.
Qed.

Section WalkerFacts.
Context {U : Unicode}.
Variable normalize_title : pystr -> pystr.

Lemma walk_bounded (fuel : nat) :
  forall search_words page_num current distinct w,
    (MAX_PAGES_TO_SEARCH + 1 - page_num <= Z.of_nat fuel)%Z ->
    exists page_num' distinct' w' clicks,
      walk normalize_title fuel search_words page_num current distinct w
      = (Val (Some (page_num', distinct')), w')
      /\ (page_num <= page_num')%Z
      /\ (page_num <= MAX_PAGES_TO_SEARCH ->
          page_num' <= MAX_PAGES_TO_SEARCH)%Z
      /\ log w' = log w ++ clicks
      /\ Forall (fun a => is_next_click a = true) clicks
      /\ (Z.of_nat (length clicks)
          <= Z.max 0 (MAX_PAGES_TO_SEARCH - page_num))%Z
      /\ length (edits w) <= length (edits w') + length clicks.
Proof.
  induction fuel as [|fuel IH]; intros search_words page_num current distinct
    w Hfuel; cbn [walk].
  - destruct (Z.leb_spec page_num MAX_PAGES_TO_SEARCH) as [Hle | Hgt]; [lia|].
    exists page_num, distinct, w, []. rewrite app_nil_r. simpl.
    repeat split; try lia; constructor.
  - assert (Hstop : forall d : dict entry,
               exists page_num' distinct' w' clicks,
                 ret (Some (page_num, d)) w
                 = (Val (Some (page_num', distinct')), w')
                 /\ (page_num <= page_num')%Z
                 /\ (page_num <= MAX_PAGES_TO_SEARCH ->
                     page_num' <= MAX_PAGES_TO_SEARCH)%Z
                 /\ log w' = log w ++ clicks
                 /\ Forall (fun a => is_next_click a = true) clicks
                 /\ (Z.of_nat (length clicks)
                     <= Z.max 0 (MAX_PAGES_TO_SEARCH - page_num))%Z
                 /\ length (edits w) <= length (edits w') + length clicks).
    { intros d. exists page_num, d, w, []. rewrite app_nil_r. simpl.
      repeat split; try lia; constructor. }
    destruct (Z.leb_spec page_num MAX_PAGES_TO_SEARCH) as [Hle | Hgt];
      [|apply Hstop].
    destruct (find_next (flat_buttons current)) as [next_btn|] eqn:Enext;
      [|apply Hstop].
    destruct (Z.ltb_spec page_num MAX_PAGES_TO_SEARCH) as [Hlt | Hge];
      [|apply Hstop].
    assert (Hnext : is_next_click (ClickButton next_btn) = true).
    { apply find_some in Enext. exact (proj2 Enext). }
    unfold bind at 1. unfold try_except, bind.
    destruct (call_cases (ClickButton next_btn) w)
      as (r1 & w1 & -> & Hlog1 & Hed1 & _).
    destruct r1 as [[]|e1].
    + destruct (wait_edit_cases w1) as (r2 & w2 & -> & Hlog2 & Hed2).
      destruct r2 as [edited|e2].
      * cbn [ret].
        destruct (IH search_words (page_num + 1)%Z edited
                    (scan_page normalize_title search_words page_num
                       (flat_buttons current) distinct) w2)
          as (p' & d' & w' & clicks & -> & Hp & Hmax & Hlog & Hall & Hlen & Hed);
          [lia|].
        exists p', d', w', (ClickButton next_btn :: clicks).
        split; [reflexivity|]. split; [lia|]. split; [lia|].
        split; [rewrite Hlog, Hlog2, Hlog1, <- app_assoc; reflexivity|].
        split; [now constructor|].
        split; [cbn [length]; lia|].
        cbn [length]. rewrite <- Hed1. lia.
      * cbn [ret].
        exists page_num, (scan_page normalize_title search_words page_num
                            (flat_buttons current) distinct), w2,
          [ClickButton next_btn].
        split; [reflexivity|]. split; [lia|]. split; [lia|].
        split; [now rewrite Hlog2, Hlog1|].
        split; [now repeat constructor|].
        split; [cbn [length]; lia|].
        cbn [length]. rewrite <- Hed1. lia.
    + cbn [ret].
      exists page_num, (scan_page normalize_title search_words page_num
                          (flat_buttons current) distinct), w1,
        [ClickButton next_btn].
      split; [reflexivity|]. split; [lia|]. split; [lia|].
      split; [exact Hlog1|].
      split; [now repeat constructor|].
      split; [cbn [length]; lia|].
      cbn [length]. rewrite Hed1. lia.
Qed.

Lemma walk_at_ceiling (fuel : nat) (search_words : list pystr)
  (page_num : Z) (current : message) (distinct : dict entry) (w : world) :
  (MAX_PAGES_TO_SEARCH <= page_num)%Z ->
  snd (walk normalize_title fuel search_words page_num current distinct w)
  = w.
Proof.
  intros Hge. destruct fuel as [|fuel]; cbn [walk];
    destruct (page_num <=? MAX_PAGES_TO_SEARCH)%Z; try reflexivity.
  destruct (find_next (flat_buttons current)); [|reflexivity].
  destruct (Z.ltb_spec page_num MAX_PAGES_TO_SEARCH); [lia | reflexivity].
Qed.

Lemma discovery_agent_returns (chat_id message_id : Z) (search_query : pystr)
  (w : world) :
  fst (discovery_agent normalize_title chat_id message_id search_query w)
  <> Val None.
Proof.
  unfold discovery_agent.
  assert (Hhandler : forall w0,
             fst ((try_except
                     (call (StatusEdit
                              (py "An error occurred during discovery.")))
                     (fun _ => ret tt) ;; ret (Some tt)) w0)
             <> Val None).
  { intros w0. unfold bind, try_except, ret.
    destruct (call _ w0) as [[[]|e'] w1]; simpl; discriminate. }
  unfold bind at 1.
  destruct (call _ w) as [[[]|e0] w0]; [|simpl; discriminate].
  unfold try_except at 1.
  match goal with
  | |- fst (match ?body w0 with _ => _ end) <> _ =>
      destruct (body w0) as [[[[]|]|e] w1] eqn:Ebody
  end; try (simpl; discriminate); [| apply Hhandler].
  exfalso. revert Ebody. unfold bind at 1.
  match goal with
  | |- (match ?inner w0 with _ => _ end) = _ -> _ =>
      destruct (inner w0) as [[[[|page_num distinct]|]|e] w2] eqn:Einner
  end.
  - unfold ret. discriminate.
  - destruct distinct as [|kv distinct]; unfold bind, ret;
      repeat match goal with
             | |- context [call ?a ?x] =>
                 destruct (call a x) as [[[]|?] ?]
             end; discriminate.
  - intros _. revert Einner. unfold bind.
    destruct (start_conversation search_query w0) as [[current'|?] wd];
      [|discriminate].
    destruct (negb (has_buttons current')).
    + destruct (call _ wd) as [[[]|?] we]; discriminate.
    + destruct (walk_bounded (Z.to_nat MAX_PAGES_TO_SEARCH)
                  (split_ws (lower search_query)) 1 current' [] wd)
        as (p' & d' & w' & clicks & -> & _); [vm_compute; discriminate|].
      discriminate.
  - discriminate.
Qed.

End WalkerFacts.

(** C4. The page loop of a discovery run ends, for every first page and
    whatever the remote bot answers, with a page counter between 1 and
    [MAX_PAGES_TO_SEARCH] (20); all it sends are clicks on "next"
    controls, at most 19 of them, and it takes no more edits than it
    clicked; started with the counter at the ceiling or above, it clicks
    nothing; and the whole discovery run returns. *)
Theorem walk_terminates {U : Unicode} (normalize_title : pystr -> pystr)
  (search_words : list pystr) (current : message) (distinct : dict entry)
  (w : world) :
  (exists page_num distinct' w' clicks,
     walk normalize_title (Z.to_nat MAX_PAGES_TO_SEARCH) search_words 1
       current distinct w
     = (Val (Some (page_num, distinct')), w')
     /\ (1 <= page_num <= MAX_PAGES_TO_SEARCH)%Z
     /\ log w' = log w ++ clicks
     /\ Forall (fun a => is_next_click a = true) clicks
     /\ (Z.of_nat (length clicks) <= MAX_PAGES_TO_SEARCH - 1)%Z
     /\ length (edits w) <= length (edits w') + length clicks)
  /\ (forall fuel page_num,
        (MAX_PAGES_TO_SEARCH <= page_num)%Z ->
        snd (walk normalize_title fuel search_words page_num current
               distinct w) = w)
  /\ forall chat_id message_id search_query,
       fst (discovery_agent normalize_title chat_id message_id
              search_query w) <> Val None.
Proof.
  split; [| split].
  - destruct (walk_bounded normalize_title (Z.to_nat MAX_PAGES_TO_SEARCH)
                search_words 1 current distinct w)
      as (p' & d' & w' & clicks & E & Hp & Hmax & Hlog & Hall & Hlen & Hed);
      [vm_compute; discriminate|].
    assert (Hone : (1 <= MAX_PAGES_TO_SEARCH)%Z) by (vm_compute; discriminate).
    exists p', d', w', clicks.
    split; [exact E|]. split; [split; [exact Hp | exact (Hmax Hone)]|].
    split; [exact Hlog|]. split; [exact Hall|]. split; [lia | exact Hed].
  - intros fuel page_num. apply walk_at_ceiling.
  - intros. apply discovery_agent_returns.
Qed.

(** Against the endless pager the loop stops at page 20 after 19 clicks,
    with 11 of the 30 edits left. *)
Lemma walk_terminates_witness :
  exists distinct' w',
    @walk ascii_unicode (fun s => s) (Z.to_nat MAX_PAGES_TO_SEARCH)
      [py "inception"] 1 (menu_page ["Inception 2010 720p"; "Next"]%string)
      [] endless_world
    = (Val (Some (20%Z, distinct')), w')
    /\ length (log w') = 19 /\ length (edits w') = 11.
Proof.
  destruct (@walk_terminates ascii_unicode (fun s => s) [py "inception"]
              (menu_page ["Inception 2010 720p"; "Next"]%string) []
              endless_world)
    as [(page_num & distinct' & w' & clicks & E & _) _].
  assert (E20 : page_num = 20%Z /\ length (log w') = 19
                /\ length (edits w') = 11).
  { revert E. vm_compute. intros [= <- _ <-]. repeat split. }
  destruct E20 as (-> & Hl & He).
  exists distinct', w'. split; [exact E | split; [exact Hl | exact He]].
Defined.

(** ** Selection replay *)

Section ReplayFacts.
Context {U : Unicode}.

Lemma wait_edit_next (m : message) (es : list (exn + message)) (w : world) :
  edits w = inr m :: es ->
  wait_edit w = (Val m, {| responses := responses w; edits := es;
                           faults := faults w; log := log w |}).
Proof. intros H. unfold wait_edit. now rewrite H. Qed.

(** One turn of the page when the control is there, the click succeeds
    and the edit arrives. *)
Lemma replay_next_turn (n : nat) (current m : message)
  (es : list (exn + message)) (w : world) :
  has_next current = true -> faults w = [] -> edits w = inr m :: es ->
  replay_next (S n) current w
  = replay_next n m {| responses := responses w; edits := es; faults := [];
                       log := log w ++ next_click current |}.
Proof.
  intros Hn Hf He. cbn [replay_next]. unfold has_next, next_click in *.
  destruct (find_next (flat_buttons current)) as [b|]; [|discriminate].
  unfold bind. rewrite call_no_fault by exact Hf.
  erewrite wait_edit_next by (simpl; exact He). reflexivity.
Qed.

Lemma replay_dead_end (good : list message) :
  forall n current later dead more rest w,
    faults w = [] -> edits w = map inr later ++ rest ->
    current :: later = good ++ dead :: more ->
    Forall (fun m => has_next m = true) good -> has_next dead = false ->
    length good < n ->
    exists w',
      replay_next n current w = (Exc state_changed, w')
      /\ log w' = log w ++ flat_map next_click good
      /\ faults w' = [] /\ responses w' = responses w.
Proof.
  induction good as [|g good IH];
    intros n current later dead more rest w Hf He Hseq Hgood Hdead Hlen.
  - simpl in Hseq. injection Hseq as -> _.
    destruct n as [|n]; [simpl in Hlen; lia|].
    cbn [replay_next]. unfold has_next in Hdead.
    destruct (find_next (flat_buttons dead)); [discriminate|].
    exists w. simpl. rewrite app_nil_r. auto.
  - simpl in Hseq. injection Hseq as -> ->.
    destruct n as [|n]; [simpl in Hlen; lia|].
    inversion Hgood as [|? ? Hg Hgood']; subst.
    destruct (good ++ dead :: more) as [|m later'] eqn:Elater;
      [now destruct good|].
    simpl in He.
    rewrite (@replay_next_turn n g m (map inr later' ++ rest) w Hg Hf He).
    destruct (IH n m later' dead more rest
                {| responses := responses w; edits := map inr later' ++ rest;
                   faults := []; log := log w ++ next_click g |})
      as (w' & E & Hlog & Hf' & Hr'); simpl; auto;
      [simpl in Hlen; lia|].
    exists w'. rewrite E. simpl in Hlog.
    cbn [flat_map]. rewrite app_assoc. auto.
Qed.

Lemma replay_reaches_target (good : list message) :
  forall current later target rest w,
    faults w = [] -> edits w = map inr later ++ rest ->
    current :: later = good ++ [target] ->
    Forall (fun m => has_next m = true) good ->
    exists w',
      replay_next (length good) current w = (Val target, w')
      /\ log w' = log w ++ flat_map next_click good
      /\ faults w' = [] /\ responses w' = responses w /\ edits w' = rest.
Proof.
  induction good as [|g good IH];
    intros current later target rest w Hf He Hseq Hgood.
  - simpl in Hseq. injection Hseq as -> ->. simpl in He.
    exists w. simpl. rewrite app_nil_r. auto.
  - simpl in Hseq. injection Hseq as -> ->.
    inversion Hgood as [|? ? Hg Hgood']; subst.
    destruct (good ++ [target]) as [|m later'] eqn:Elater;
      [now destruct good|].
    simpl in He. cbn [length].
    rewrite (@replay_next_turn (length good) g m (map inr later' ++ rest) w
               Hg Hf He).
    destruct (IH m later' target rest
                {| responses := responses w; edits := map inr later' ++ rest;
                   faults := []; log := log w ++ next_click g |})
      as (w' & E & Hlog & Hf' & Hr' & He'); simpl; auto.
    exists w'. rewrite E. simpl in Hlog.
    cbn [flat_map]. rewrite app_assoc. auto.
Qed.

Lemma next_click_length (good : list message) :
  Forall (fun m => has_next m = true) good ->
  length (flat_map next_click good) = length good.
Proof.
  induction 1 as [|g good Hg _ IH]; simpl; [reflexivity|].
  rewrite length_app, IH. unfold has_next, next_click in *.
  now destruct (find_next (flat_buttons g)).
Qed.

Lemma deliver_log (event : callback) (current : message)
  (target_page target_index : Z) (w : world) :
  exists tail,
    log (snd (deliver event current target_page target_index w))
    = log w ++ ClickIndex current target_index :: tail
    /\ Forall (fun a => is_forward a = false) tail.
Proof.
  unfold deliver. unfold bind at 1.
  destruct (call_cases (ClickIndex current target_index) w)
    as (r & w1 & -> & Hlog & _).
  destruct r as [[]|e].
  - match goal with
    | |- context [snd (?rest w1)] =>
        assert (Hrest : emits (fun a => is_forward a = false) rest)
    end.
    { apply emits_bind; [apply poll_file_emits | intros [final|]];
        [apply emits_bind_raise | apply emits_raise]. }
    destruct (Hrest w1) as (tail & E & Hall).
    exists tail. rewrite E, Hlog, <- app_assoc. auto.
  - exists []. simpl. auto.
Qed.

End ReplayFacts.

(** C8. Let the conversation have started and the sends succeed, the
    edits arriving in turn.  If, after pages that all show "next", a page
    before the target shows none, the replay raises the exception of line
    253; the handler reports it with the error line and returns; what was
    sent is the clicks on the "next" controls passed so far and the error
    line, and neither the target click nor a forward.  If every page
    before the target shows "next", the replay clicks "next" as often as
    [range(1, target_page)] has elements, which is [target_page - 1] times
    for a page number of at least 1, and then clicks the target index. *)
Theorem replay_state_changed {U : Unicode} (event : callback)
  (query : pystr) (target_page target_index : Z) (w w1 : world)
  (current : message) (good later : list message)
  (rest : list (exn + message)) :
  start_conversation query w = (Val current, w1) ->
  faults w1 = [] ->
  edits w1 = map inr later ++ rest ->
  Forall (fun m => has_next m = true) good ->
  (forall dead more,
     current :: later = good ++ dead :: more ->
     has_next dead = false ->
     length good < Z.to_nat (target_page - 1) ->
     (exists w2,
        replay_next (Z.to_nat (target_page - 1)) current w1
        = (Exc state_changed, w2))
     /\ exists w',
          retrieve_or_report event query target_page target_index w
          = (Val tt, w')
          /\ log w'
             = log w1 ++ flat_map next_click good
               ++ [EventEdit (py "An error occurred during retrieval.")]
          /\ Forall (fun a => is_forward a = false)
               (flat_map next_click good
                ++ [EventEdit (py "An error occurred during retrieval.")]))
  /\ (forall target,
        current :: later = good ++ [target] ->
        length good = Z.to_nat (target_page - 1) ->
        length (flat_map next_click good) = Z.to_nat (target_page - 1)
        /\ ((1 <= target_page)%Z ->
            Z.of_nat (length (flat_map next_click good))
            = (target_page - 1)%Z)
        /\ exists tail,
             log (snd (retrieve_or_report event query target_page
                         target_index w))
             = log w1 ++ flat_map next_click good
               ++ ClickIndex target target_index :: tail
             /\ Forall (fun a => is_forward a = false) tail).
Proof.
  intros Hstart Hf He Hgood. split.
  - intros dead more Hseq Hdead Hlen.
    destruct (@replay_dead_end U good (Z.to_nat (target_page - 1)) current
                later dead more rest w1 Hf He Hseq Hgood Hdead Hlen)
      as (w2 & E & Hlog & Hf2 & _).
    split; [now exists w2|].
    unfold retrieve_or_report, try_except, retrieve.
    unfold bind at 1. rewrite Hstart. unfold bind at 1. rewrite E.
    rewrite call_no_fault by exact Hf2. eexists. split; [reflexivity|].
    split.
    + simpl. rewrite Hlog, <- app_assoc. reflexivity.
    + apply Forall_app. split; [|now repeat constructor].
      apply Forall_forall. intros a Ha. apply in_flat_map in Ha.
      destruct Ha as (m & _ & Ha). unfold next_click in Ha.
      destruct (find_next (flat_buttons m)); [|contradiction].
      destruct Ha as [<- | []]. reflexivity.
  - intros target Hseq Hlen.
    split; [now rewrite next_click_length|].
    split; [rewrite next_click_length by exact Hgood; lia|].
    destruct (@replay_reaches_target U good current later target rest w1
                Hf He Hseq Hgood)
      as (w2 & E & Hlog & Hf2 & _).
    rewrite Hlen in E.
    destruct (deliver_log event target target_page target_index w2)
      as (tail & Hd & Hall).
    unfold retrieve_or_report, try_except, retrieve.
    unfold bind at 1. rewrite Hstart. unfold bind at 1. rewrite E.
    destruct (deliver event target target_page target_index w2)
      as [[[]|e] w3]; simpl in Hd.
    + exists tail. simpl. rewrite Hd, Hlog, <- app_assoc. auto.
    + destruct (call_cases
                  (EventEdit (py "An error occurred during retrieval.")) w3)
        as (r & w4 & Ec & Hlog4 & _).
      exists (tail ++ [EventEdit (py "An error occurred during retrieval.")]).
      split.
      * rewrite Ec.
        assert (Hw : log (snd (match r with
                               | Val a => (Val a, w4)
                               | Exc e0 => ret tt w4
                               end)) = log w4) by now destruct r.
        rewrite Hw, Hlog4, Hd, Hlog, <- !app_assoc. reflexivity.
      * apply Forall_app. split; [exact Hall | now repeat constructor].
Qed.

(** The scenario of the specification: the token [get:3:1] arrives, and
    the second page of the replay has no "next" control. *)
Lemma replay_state_changed_witness :
  exists w',
    @retrieve_or_report ascii_unicode (click_event "get:3:1")
      (py "inception") 3 1 changed_world = (Val tt, w')
    /\ log w'
       = [OpenConversation; ConvSend (py "inception");
          ClickButton (text_button "Next");
          EventEdit (py "An error occurred during retrieval.")].
Proof.
  assert (Hstart : @start_conversation ascii_unicode (py "inception")
                     changed_world
                   = (Val (menu_page ["a"; "Next"]%string),
                      {| responses := [];
                         edits := map inr [menu_page ["b"]%string;
                                           menu_page ["c"]%string] ++ [];
                         faults := [];
                         log := [OpenConversation;
                                 ConvSend (py "inception")] |}))
    by reflexivity.
  destruct (@replay_state_changed ascii_unicode (click_event "get:3:1")
              (py "inception") 3 1 changed_world _
              (menu_page ["a"; "Next"]%string)
              [menu_page ["a"; "Next"]%string]
              [menu_page ["b"]%string; menu_page ["c"]%string] []
              Hstart eq_refl eq_refl
              ltac:(repeat constructor)) as [Hdead _].
  destruct (Hdead (menu_page ["b"]%string) [menu_page ["c"]%string]
              eq_refl eq_refl ltac:(vm_compute; lia))
    as (_ & w' & E & Hlog & _).
  exists w'. split; [exact E | exact Hlog].
Defined.

(** ** The scenarios of the specification, run

    The normaliser stands in for [normalize_title]: it keeps the first
    nine characters, which is the title of the sample labels. *)

Example inception_two_pages :
  log (snd (@discovery_agent ascii_unicode (firstn 9) 5 6 (py "inception")
              two_page_world))
  = [SendMessage 5
       (py "Discovering movies for " ++ quoted (py "inception") ++ py "...")
       None 6;
     OpenConversation;
     ConvSend (py "inception");
     ClickButton (text_button "Next");
     StatusDelete;
     SendMessage 5
       (py "I found the following distinct movies. Please choose one:")
       (Some [[(py "Inception - 2010 - 1080p - Hindi", py "get:2:0")]]) 6].
Proof. vm_compute. reflexivity. Qed.

Example join_gate_then_nothing :
  log (snd (@discovery_agent ascii_unicode (firstn 9) 5 6 (py "inception")
              gated_world))
  = [SendMessage 5
       (py "Discovering movies for " ++ quoted (py "inception") ++ py "...")
       None 6;
     OpenConversation;
     ConvSend (py "inception");
     ClickIndex {| msg_text := Some (py "Please join our channel");
                   msg_buttons := Some [[text_button "Join"]];
                   msg_media := None |} 0;
     Sleep 2;
     StatusEdit (py "Sorry, no results for " ++ quoted (py "inception")
                 ++ py ".")].
Proof. vm_compute. reflexivity. Qed.

Example stray_callback_acknowledged :
  @private_callback_listener ascii_unicode (click_event "xyz") (quiet [] [])
  = (Val tt, {| responses := []; edits := []; faults := [];
                log := [Answer None false] |}).
Proof. reflexivity. Qed.

Example state_changed_via_execution_agent :
  log (snd (@execution_agent ascii_unicode (click_event "get:3:1")
              changed_world))
  = [EventEdit (py "Fetching " ++ quoted (py "Inception - 2010 - 1080p")
                ++ py "...");
     OpenConversation;
     ConvSend (py "inception");
     ClickButton (text_button "Next");
     EventEdit (py "An error occurred during retrieval.")].
Proof. vm_compute. reflexivity. Qed.

Example best_marker_wins :
  @get_quality_label ascii_unicode (py "Movie 720p HDRip 4K")
  = Some (py "2160p")
  /\ @get_quality_label ascii_unicode (py "Movie hdrip 480P")
     = Some (py "480p")
  /\ @get_quality_label ascii_unicode (py "Movie CAM") = None.
Proof. repeat split. Qed.

Example int_like_python :
  map (@py_int ascii_unicode)
    [py " 12 "; py "+7"; py "-3"; py "1_0"; py "010";
     py ""; py "_1"; py "1_"; py "1__0"; py "- 1"; py "1 2"; py "0x10";
     [28; 49]%N; [160; 49]%N]
  = [Some 12; Some 7; Some (-3); Some 10; Some 10;
     None; None; None; None; None; None; None;
     None; Some 1]%Z.
Proof. reflexivity. Qed.

(** * Further properties *)

(** ** Languages *)

Lemma existsb_str_eqb_in (l : pystr) (seen : list pystr) :
  existsb (str_eqb l) seen = true <-> In l seen.
Proof.
  rewrite existsb_exists. split.
  - intros (x & Hx & E). apply str_eqb_eq in E. now subst.
  - intros H. exists l. split; [exact H | apply str_eqb_refl].
Qed.

Lemma dedup_in (langs : list pystr) :
  forall seen x, In x (dedup seen langs) <-> In x langs /\ ~ In x seen.
Proof.
  induction langs as [|l rest IH]; intros seen x; simpl.
  - tauto.
  - destruct (existsb (str_eqb l) seen) eqn:E.
    + apply existsb_str_eqb_in in E. rewrite IH. split.
      * tauto.
      * intros [[<- | H] Hn]; [contradiction | tauto].
    + assert (Hl : ~ In l seen).
      { intros H. apply existsb_str_eqb_in in H. congruence. }
      simpl. rewrite IH. simpl. split.
      * intros [<- | [H Hn]]; [tauto|]. split; [tauto|]. tauto.
      * intros [[<- | H] Hn]; [tauto|].
        destruct (list_eq_dec N.eq_dec l x) as [-> | Hne]; [tauto|].
        right. split; [exact H|]. intros [E' | H']; tauto.
Qed.

Lemma dedup_nodup (langs : list pystr) :
  forall seen, NoDup (dedup seen langs).
Proof.
  induction langs as [|l rest IH]; intros seen; simpl; [constructor|].
  destruct (existsb (str_eqb l) seen); [apply IH|].
  constructor; [|apply IH].
  rewrite dedup_in. simpl. tauto.
Qed.

(** X1. [extract_lang] returns [None] exactly when no word of
    [LANG_WORDS] occurs in the lowered text; otherwise it returns the
    labels of the words that occur, joined by a comma and a space, each
    label once, however many of its synonyms occur. *)
Theorem extract_lang_labels {U : Unicode} (text : pystr) :
  (extract_lang text = None <->
   forall w, In w LANG_WORDS -> contains w (lower text) = false)
  /\ forall out,
       extract_lang text = Some out ->
       exists labels,
         out = join (py ", ") labels /\ labels <> [] /\ NoDup labels
         /\ forall l,
              In l labels <->
              exists w, In w LANG_WORDS
                        /\ contains w (lower text) = true
                        /\ l = lang_label w.
Proof.
  unfold extract_lang.
  set (found := filter (fun w => contains w (lower text)) LANG_WORDS).
  assert (Hin : forall l,
             In l (dedup [] (map lang_label found)) <->
             exists w, In w LANG_WORDS /\ contains w (lower text) = true
                       /\ l = lang_label w).
  { intros l. rewrite dedup_in. rewrite in_map_iff. split.
    - intros [(w & <- & Hw) _]. apply filter_In in Hw. now exists w.
    - intros (w & Hw & Hc & ->). split; [|intros []].
      exists w. split; [reflexivity|]. apply filter_In. now split. }
  split.
  - split.
    + intros H w Hw. destruct (contains w (lower text)) eqn:Hc; [|reflexivity].
      destruct (dedup [] (map lang_label found)) as [|l ls] eqn:E;
        [|discriminate].
      exfalso. apply (proj2 (Hin (lang_label w))). now exists w.
    + intros H. destruct (dedup [] (map lang_label found)) as [|l ls] eqn:E;
        [reflexivity|].
      exfalso. destruct (proj1 (Hin l) (or_introl eq_refl))
        as (w & Hw & Hc & _).
      rewrite (H w Hw) in Hc. discriminate.
  - intros out H.
    destruct (dedup [] (map lang_label found)) as [|l ls] eqn:E;
      [discriminate|].
    injection H as <-. exists (l :: ls).
    split; [reflexivity|]. split; [discriminate|]. split.
    + rewrite <- E. apply dedup_nodup.
    + exact Hin.
Qed.

(** Hindi and English with two markers of several audio tracks. *)
Lemma extract_lang_labels_witness :
  exists labels,
    py "Hindi, English, Multi" = join (py ", ") labels /\ NoDup labels.
Proof.
  destruct (proj2 (@extract_lang_labels ascii_unicode
                     (py "Movie 2019 Hindi English Dual Audio MULTI"))
              (py "Hindi, English, Multi") eq_refl)
    as (labels & E & _ & Hn & _).
  now exists labels.
Defined.

(** ** Order of the menu *)

Lemma dict_get_none_keys (V : Type) (d : dict V) (k : pystr) :
  dict_get d k = None <->
  existsb (fun k' => str_eqb k' k) (map fst d) = false.
Proof.
  induction d as [|[k0 v0] d IH]; simpl; [tauto|].
  destruct (str_eqb k0 k); simpl; [split; discriminate | exact IH].
Qed.

Lemma consider_keys (d : dict entry) (k : pystr) (c : entry) :
  map fst (consider d k c)
  = if existsb (fun k' => str_eqb k' k) (map fst d) then map fst d
    else map fst d ++ [k].
Proof.
  unfold consider. destruct (dict_get d k) as [prior|] eqn:E.
  - assert (H : existsb (fun k' => str_eqb k' k) (map fst d) = true).
    { destruct (existsb _ _) eqn:Ex; [reflexivity|].
      apply dict_get_none_keys in Ex. congruence. }
    rewrite H. destruct (qrank prior <? qrank c)%Z; [|reflexivity].
    now rewrite dict_set_keys, H.
  - rewrite dict_set_keys. reflexivity.
Qed.

Lemma dedup_ext (langs : list pystr) :
  forall seen seen',
    (forall x, In x seen <-> In x seen') ->
    dedup seen langs = dedup seen' langs.
Proof.
  induction langs as [|l rest IH]; intros seen seen' H; simpl; [reflexivity|].
  assert (E : existsb (str_eqb l) seen = existsb (str_eqb l) seen').
  { destruct (existsb (str_eqb l) seen) eqn:E1;
      destruct (existsb (str_eqb l) seen') eqn:E2; try reflexivity.
    - apply existsb_str_eqb_in, H, existsb_str_eqb_in in E1. congruence.
    - apply existsb_str_eqb_in, H, existsb_str_eqb_in in E2. congruence. }
  rewrite E. destruct (existsb (str_eqb l) seen').
  - now apply IH.
  - f_equal. apply IH. intros x. simpl. rewrite H. tauto.
Qed.

Lemma feed_keys (stream : list (pystr * entry)) :
  forall d,
    map fst (feed d stream)
    = map fst d ++ dedup (map fst d) (map fst stream).
Proof.
  unfold feed. induction stream as [|[k c] stream IH]; intros d; simpl.
  - now rewrite app_nil_r.
  - rewrite IH, consider_keys. cbn [fst snd].
    assert (E : existsb (fun k' => str_eqb k' k) (map fst d)
                = existsb (str_eqb k) (map fst d)).
    { induction (map fst d) as [|x xs IHx]; simpl; [reflexivity|].
      rewrite IHx. f_equal.
      destruct (str_eqb x k) eqn:E1; destruct (str_eqb k x) eqn:E2;
        try reflexivity.
      - apply str_eqb_eq in E1. subst. now rewrite str_eqb_refl in E2.
      - apply str_eqb_eq in E2. subst. now rewrite str_eqb_refl in E1. }
    rewrite E. destruct (existsb (str_eqb k) (map fst d)); [reflexivity|].
    rewrite <- app_assoc. simpl. f_equal. f_equal.
    apply dedup_ext. intros x. rewrite in_app_iff. simpl. tauto.
Qed.

(** X2. The dictionary keeps its titles in the order in which they were
    first seen, whatever replacements follow, and the menu has one row
    per title in that order. *)
Theorem menu_in_first_seen_order (stream : list (pystr * entry)) :
  map fst (feed [] stream) = dedup [] (map fst stream)
  /\ length (menu_buttons (feed [] stream))
     = length (dedup [] (map fst stream))
  /\ forall n title e,
       nth_error (feed [] stream) n = Some (title, e) ->
       nth_error (menu_buttons (feed [] stream)) n
       = Some [(sanitize_button_text_keep_basic_punct
                  (build_button_label title (year e) (qlabel e) (lang e)),
                callback_data (page e) (index e))].
Proof.
  pose proof (feed_keys stream []) as H. simpl in H.
  split; [exact H|]. split.
  - unfold menu_buttons. rewrite length_map, <- H. now rewrite length_map.
  - intros n title e Hn. unfold menu_buttons.
    rewrite nth_error_map, Hn. reflexivity.
Qed.

(** ** What the page loop gathers *)

Lemma wait_edit_val (m : message) (w w2 : world) :
  wait_edit w = (Val m, w2) ->
  edits w = inr m :: edits w2.
Proof.
  unfold wait_edit. destruct (edits w) as [|[e|m'] es]; try discriminate.
  intros [= -> <-]. reflexivity.
Qed.

Lemma feed_app (s1 s2 : list (pystr * entry)) (d : dict entry) :
  feed d (s1 ++ s2) = feed (feed d s1) s2.
Proof. unfold feed. apply fold_left_app. Qed.

Section GatherFacts.
Context {U : Unicode}.
Variable normalize_title : pystr -> pystr.

Lemma walk_visits (fuel : nat) :
  forall search_words page_num current distinct w,
    (MAX_PAGES_TO_SEARCH + 1 - page_num <= Z.of_nat fuel)%Z ->
    (page_num <= MAX_PAGES_TO_SEARCH)%Z ->
    exists later rest w',
      walk normalize_title fuel search_words page_num current distinct w
      = (Val (Some ((page_num + Z.of_nat (length later))%Z,
                    feed distinct
                      (pages_candidates normalize_title search_words
                         page_num (current :: later)))), w')
      /\ edits w = map inr later ++ rest
      /\ (page_num + Z.of_nat (length later) <= MAX_PAGES_TO_SEARCH)%Z.
Proof.
  induction fuel as [|fuel IH];
    intros search_words page_num current distinct w Hfuel Hle; [lia|].
  cbn [walk].
  destruct (Z.leb_spec page_num MAX_PAGES_TO_SEARCH) as [_ | Hgt]; [|lia].
  assert (Hstop : forall w0 : world,
             exists later rest w',
               ret (Some (page_num,
                          scan_page normalize_title search_words page_num
                            (flat_buttons current) distinct)) w0
               = (Val (Some ((page_num + Z.of_nat (length later))%Z,
                             feed distinct
                               (pages_candidates normalize_title search_words
                                  page_num (current :: later)))), w')
               /\ edits w = map inr later ++ rest
               /\ (page_num + Z.of_nat (length later)
                   <= MAX_PAGES_TO_SEARCH)%Z).
  { intros w0. exists [], (edits w), w0. cbn [pages_candidates length].
    rewrite app_nil_r, scan_page_feed, Z.add_0_r.
    split; [reflexivity|]. split; [reflexivity | exact Hle]. }
  destruct (find_next (flat_buttons current)) as [next_btn|];
    [|apply Hstop].
  destruct (Z.ltb_spec page_num MAX_PAGES_TO_SEARCH) as [Hlt | Hge];
    [|apply Hstop].
  unfold bind at 1. unfold try_except, bind.
  destruct (call_cases (ClickButton next_btn) w)
    as (r1 & w1 & -> & _ & Hed1 & _).
  destruct r1 as [[]|e1]; [|apply Hstop].
  destruct (wait_edit w1) as [[edited|e2] w2] eqn:Ew.
  - cbn [ret]. apply wait_edit_val in Ew.
    destruct (IH search_words (page_num + 1)%Z edited
                (scan_page normalize_title search_words page_num
                   (flat_buttons current) distinct) w2)
      as (later & rest & w' & -> & Hed & Hmax); [lia | lia |].
    exists (edited :: later), rest, w'.
    split; [|split].
    + cbn [length pages_candidates]. rewrite scan_page_feed, !feed_app.
      do 4 f_equal. lia.
    + rewrite <- Hed1, Ew, Hed. reflexivity.
    + cbn [length]. lia.
  - apply Hstop.
Qed.

Lemma in_enumerate (A : Type) (l : list A) (i : Z) (x : A) :
  In (i, x) (enumerate l) ->
  (0 <= i)%Z /\ nth_error l (Z.to_nat i) = Some x.
Proof.
  unfold enumerate.
  assert (H : forall start,
             In (i, x) (combine (map Z.of_nat (seq start (length l))) l) ->
             (Z.of_nat start <= i)%Z
             /\ nth_error l (Z.to_nat i - start) = Some x).
  { induction l as [|a l IH]; intros start Hin; simpl in Hin; [contradiction|].
    destruct Hin as [[= <- <-] | Hin].
    - split; [lia|]. rewrite Nat2Z.id, Nat.sub_diag. reflexivity.
    - apply IH in Hin. destruct Hin as [Hle Hn]. split; [lia|].
      replace (Z.to_nat i - start) with (S (Z.to_nat i - S start)) by lia.
      exact Hn. }
  intros Hin. apply (H 0) in Hin. now rewrite Nat.sub_0_r in Hin.
Qed.

Lemma in_pages_candidates (search_words : list pystr) (pages : list message) :
  forall page_num t e,
    In (t, e) (pages_candidates normalize_title search_words page_num pages) ->
    exists k pg btn,
      nth_error pages k = Some pg
      /\ page e = (page_num + Z.of_nat k)%Z
      /\ (0 <= index e)%Z
      /\ nth_error (flat_buttons pg) (Z.to_nat (index e)) = Some btn
      /\ candidate normalize_title search_words (page e) (index e, btn)
         = Some (t, e).
Proof.
  induction pages as [|pg pages IH]; intros page_num t e Hin; simpl in Hin;
    [contradiction|].
  apply in_app_or in Hin. destruct Hin as [Hin | Hin].
  - unfold page_candidates in Hin. apply in_flat_map in Hin.
    destruct Hin as ([i btn] & Hib & Hc).
    destruct (candidate normalize_title search_words page_num (i, btn))
      as [c|] eqn:Ec; [|contradiction].
    destruct Hc as [-> | []].
    apply in_enumerate in Hib. destruct Hib as [Hi Hn].
    assert (Hpi : page e = page_num /\ index e = i).
    { unfold candidate in Ec. cbn [fst snd] in Ec.
      destruct (strip (or_empty (btn_text btn))); [discriminate|].
      destruct (negb _); [discriminate|].
      destruct (normalize_title _); [discriminate|].
      injection Ec as _ <-. now split. }
    destruct Hpi as [Hp Hx].
    exists 0, pg, btn. rewrite Hp, Hx, Z.add_0_r.
    repeat split; assumption.
  - apply IH in Hin. destruct Hin as (k & pg' & btn & Hn & Hp & Hi & Hb & Hc).
    exists (S k), pg', btn. repeat split; try assumption.
    rewrite Hp. lia.
Qed.

End GatherFacts.

Lemma in_dict_get (V : Type) (d : dict V) (k : pystr) (v : V) :
  NoDup (map fst d) -> In (k, v) d -> dict_get d k = Some v.
Proof.
  induction d as [|[k0 v0] d IH]; intros Hnd Hin; simpl in *; [contradiction|].
  inversion Hnd as [|? ? Hk Hnd']; subst.
  destruct Hin as [[= -> ->] | Hin].
  - now rewrite str_eqb_refl.
  - destruct (str_eqb k0 k) eqn:E; [|now apply IH].
    apply str_eqb_eq in E. subst. exfalso. apply Hk.
    apply in_map_iff. now exists (k, v).
Qed.

Lemma first_best_in (cs : list entry) (e : entry) :
  first_best cs e -> In e cs.
Proof.
  intros (before & after & -> & _). apply in_or_app. right. now left.
Qed.

Lemma feed_get_first_best (stream : list (pystr * entry)) (t : pystr) :
  match dict_get (feed [] stream) t with
  | Some e => first_best (with_title t stream) e
  | None => with_title t stream = []
  end.
Proof.
  rewrite feed_get. simpl.
  destruct (with_title t stream) as [|c0 cs]; simpl; [reflexivity|].
  destruct (keep_best_first_best cs c0) as (e & -> & H). exact H.
Qed.

Lemma feed_entry_in_stream (stream : list (pystr * entry)) (t : pystr)
  (e : entry) :
  In (t, e) (feed [] stream) -> In (t, e) stream.
Proof.
  intros Hin.
  apply in_dict_get in Hin; [|apply feed_nodup; constructor].
  pose proof (feed_get_first_best stream t) as H. rewrite Hin in H.
  apply first_best_in in H. unfold with_title in H.
  apply in_map_iff in H. destruct H as ([k c] & E & Hf). simpl in E. subst c.
  apply filter_In in Hf. destruct Hf as [Hs Hk]. simpl in Hk.
  apply str_eqb_eq in Hk. now subst.
Qed.

Lemma decode_callback_data {U : Unicode} (p i : Z) :
  decode_token (callback_data p i) = inr (Some (p, i)).
Proof.
  unfold callback_data.
  change (py ":" ++ str_of_int i) with (58%N :: str_of_int i).
  rewrite decode_token_prefixed, cut_found by apply str_of_int_no_colon.
  now rewrite !py_int_str_of_int.
Qed.

(** X3. The page loop of a discovery run returns the aggregator fed with
    the candidates of the pages it visited, in page and button order: the
    first page and the edits that arrived before the walk stopped, which
    are numbered from 1.  So the entry it returns for a title is the first
    candidate of the best rank among those pages. *)
Theorem walk_collects {U : Unicode} (normalize_title : pystr -> pystr)
  (search_words : list pystr) (current : message) (w : world) :
  exists later rest w',
    walk normalize_title (Z.to_nat MAX_PAGES_TO_SEARCH) search_words 1
      current [] w
    = (Val (Some ((1 + Z.of_nat (length later))%Z,
                  feed []
                    (pages_candidates normalize_title search_words 1
                       (current :: later)))), w')
    /\ edits w = map inr later ++ rest
    /\ (1 + Z.of_nat (length later) <= MAX_PAGES_TO_SEARCH)%Z
    /\ forall t,
         match dict_get
                 (feed []
                    (pages_candidates normalize_title search_words 1
                       (current :: later))) t
         with
         | Some e =>
             first_best
               (with_title t
                  (pages_candidates normalize_title search_words 1
                     (current :: later))) e
         | None =>
             with_title t
               (pages_candidates normalize_title search_words 1
                  (current :: later)) = []
         end.
Proof.
  destruct (@walk_visits U normalize_title (Z.to_nat MAX_PAGES_TO_SEARCH)
              search_words 1 current [] w)
    as (later & rest & w' & E & Hed & Hmax);
    [vm_compute; discriminate | vm_compute; discriminate |].
  exists later, rest, w'. split; [exact E|]. split; [exact Hed|].
  split; [exact Hmax|]. intros t. apply feed_get_first_best.
Qed.

(** X4. Every entry the page loop returns points at a button it saw: its
    page is the number of a visited page, its index the position of a
    button on that page, the loop body made the entry and its title of
    that very button, and the token built from the entry decodes to the
    same page and index. *)
Theorem entries_point_at_buttons {U : Unicode}
  (normalize_title : pystr -> pystr) (search_words : list pystr)
  (current : message) (w : world) :
  exists later page_num distinct w',
    walk normalize_title (Z.to_nat MAX_PAGES_TO_SEARCH) search_words 1
      current [] w
    = (Val (Some (page_num, distinct)), w')
    /\ (exists rest, edits w = map inr later ++ rest)
    /\ forall title e,
         In (title, e) distinct ->
         (1 <= page e <= MAX_PAGES_TO_SEARCH)%Z /\ (0 <= index e)%Z
         /\ decode_token (callback_data (page e) (index e))
            = inr (Some (page e, index e))
         /\ exists pg btn,
              nth_error (current :: later) (Z.to_nat (page e - 1)) = Some pg
              /\ nth_error (flat_buttons pg) (Z.to_nat (index e)) = Some btn
              /\ candidate normalize_title search_words (page e)
                   (index e, btn) = Some (title, e).
Proof.
  destruct (@walk_visits U normalize_title (Z.to_nat MAX_PAGES_TO_SEARCH)
              search_words 1 current [] w)
    as (later & rest & w' & E & Hed & Hmax);
    [vm_compute; discriminate | vm_compute; discriminate |].
  exists later. do 3 eexists. split; [exact E|].
  split; [now exists rest|].
  intros title e Hin. apply feed_entry_in_stream in Hin.
  apply in_pages_candidates in Hin.
  destruct Hin as (k & pg & btn & Hn & Hp & Hi & Hb & Hc).
  assert (Hk : k < length (current :: later)).
  { apply nth_error_Some. congruence. }
  cbn [length] in Hk.
  split; [lia|]. split; [exact Hi|].
  split; [apply decode_callback_data|].
  exists pg, btn. replace (Z.to_nat (page e - 1)) with k by lia.
  now repeat split.
Qed.

(** ** How a discovery run ends *)

Section Quiet.
Variable P : action -> Prop.

Lemma quiet_ret (A : Type) (a : A) : runs_quietly P (ret a).
Proof. intros w Hf. exists []. simpl. now rewrite app_nil_r. Qed.

Lemma quiet_raise (A : Type) (e : exn) : runs_quietly P (@raise A e).
Proof. intros w Hf. exists []. simpl. now rewrite app_nil_r. Qed.

Lemma quiet_bind (A B : Type) (m : M A) (k : A -> M B) :
  runs_quietly P m -> (forall a, runs_quietly P (k a)) ->
  runs_quietly P (bind m k).
Proof.
  intros Hm Hk w Hf. unfold bind.
  destruct (Hm w Hf) as (tr1 & E1 & F1 & Q1).
  destruct (m w) as [[a | e] w1]; simpl in E1, Q1.
  - destruct (Hk a w1 Q1) as (tr2 & E2 & F2 & Q2).
    exists (tr1 ++ tr2). rewrite E2, E1, app_assoc.
    split; [reflexivity|]. split; [now apply Forall_app | exact Q2].
  - exists tr1. now repeat split.
Qed.

Lemma quiet_try (A : Type) (m : M A) (h : exn -> M A) :
  runs_quietly P m -> (forall e, runs_quietly P (h e)) ->
  runs_quietly P (try_except m h).
Proof.
  intros Hm Hh w Hf. unfold try_except.
  destruct (Hm w Hf) as (tr1 & E1 & F1 & Q1).
  destruct (m w) as [[a | e] w1]; simpl in E1, Q1.
  - exists tr1. now repeat split.
  - destruct (Hh e w1 Q1) as (tr2 & E2 & F2 & Q2).
    exists (tr1 ++ tr2). rewrite E2, E1, app_assoc.
    split; [reflexivity|]. split; [now apply Forall_app | exact Q2].
Qed.

Lemma quiet_call (a : action) : P a -> runs_quietly P (call a).
Proof.
  intros Ha w Hf. exists [a]. rewrite call_no_fault by exact Hf.
  simpl. auto.
Qed.

Lemma quiet_sleep (z : Z) : P (Sleep z) -> runs_quietly P (sleep z).
Proof. intros Ha w Hf. exists [Sleep z]. simpl. auto. Qed.

Lemma quiet_get_response : runs_quietly P get_response.
Proof.
  intros w Hf. exists []. unfold get_response.
  destruct (responses w) as [|[e|m] rs]; simpl; now rewrite app_nil_r.
Qed.

Lemma quiet_wait_edit : runs_quietly P wait_edit.
Proof.
  intros w Hf. exists []. unfold wait_edit.
  destruct (edits w) as [|[e|m] rs]; simpl; now rewrite app_nil_r.
Qed.

End Quiet.

(** Splits a goal [runs_quietly P m] along the structure of [m]. *)
Ltac quiet_step :=
  lazymatch goal with
  | |- runs_quietly _ (bind _ _) => apply quiet_bind; [| intros ?]
  | |- runs_quietly _ (try_except _ _) => apply quiet_try; [| intros ?]
  | |- runs_quietly _ (ret _) => apply quiet_ret
  | |- runs_quietly _ (raise _) => apply quiet_raise
  | |- runs_quietly _ (call _) => apply quiet_call
  | |- runs_quietly _ (sleep _) => apply quiet_sleep
  | |- runs_quietly _ get_response => apply quiet_get_response
  | |- runs_quietly _ wait_edit => apply quiet_wait_edit
  | |- runs_quietly _ (if ?b then _ else _) => destruct b
  | |- runs_quietly _ (match ?x with _ => _ end) => destruct x
  end.

Section EndingFacts.
Context {U : Unicode}.
Variable normalize_title : pystr -> pystr.

Lemma start_conversation_quiet (query : pystr) :
  runs_quietly (fun a => is_conversation_action a = true)
    (start_conversation query).
Proof.
  unfold start_conversation, pass_gate.
  repeat (quiet_step; try reflexivity).
Qed.

Lemma walk_quiet (fuel : nat) :
  forall search_words page_num current distinct,
    runs_quietly (fun a => is_conversation_action a = true)
      (walk normalize_title fuel search_words page_num current distinct).
Proof.
  induction fuel as [|fuel IH]; intros; cbn [walk].
  - repeat (quiet_step; try reflexivity).
  - destruct (page_num <=? MAX_PAGES_TO_SEARCH)%Z; [|apply quiet_ret].
    destruct (find_next (flat_buttons current)); [|apply quiet_ret].
    destruct (page_num <? MAX_PAGES_TO_SEARCH)%Z; [|apply quiet_ret].
    apply quiet_bind.
    + repeat (quiet_step; try reflexivity).
    + intros [edited|]; [apply IH | apply quiet_ret].
Qed.

Lemma menu_buttons_rows (distinct : dict entry) :
  Forall (fun row : list (pystr * pystr) => length row = 1)
    (menu_buttons distinct)
  /\ length (menu_buttons distinct) = length distinct.
Proof.
  unfold menu_buttons. split; [|apply length_map].
  apply Forall_forall. intros row Hrow. apply in_map_iff in Hrow.
  destruct Hrow as ([title e] & <- & _). reflexivity.
Qed.

End EndingFacts.

(** X5. When the sends succeed, a discovery run returns and tells the
    user one thing after the first status line: that there are no
    results, that the pages searched had nothing relevant, the menu (the
    status line deleted first), or that an error occurred.  A menu has at
    least one row, and every row one button.  Everything between the first
    status line and that ending is sent on the conversation with the
    remote bot. *)
Theorem discovery_ends_once {U : Unicode} (normalize_title : pystr -> pystr)
  (chat_id message_id : Z) (search_query : pystr) (w : world) :
  faults w = [] ->
  exists conv tail w',
    discovery_agent normalize_title chat_id message_id search_query w
    = (Val (Some tt), w')
    /\ log w'
       = log w
         ++ SendMessage chat_id (discovering_text search_query) None
              message_id
         :: conv ++ tail
    /\ forallb is_conversation_action conv = true
    /\ discovery_ending chat_id message_id search_query tail.
Proof.
  intros Hf. unfold discovery_agent.
  unfold bind at 1. rewrite call_no_fault by exact Hf.
  set (w0 := {| responses := responses w; edits := edits w; faults := [];
                log := log w ++ [SendMessage chat_id
                                   (py "Discovering movies for "
                                    ++ quoted search_query ++ py "...")
                                   None message_id] |}).
  assert (Hf0 : faults w0 = []) by reflexivity.
  assert (Hl0 : log w0 = log w ++ [SendMessage chat_id
                                    (discovering_text search_query) None
                                    message_id]) by reflexivity.
  clearbody w0.
  assert (Hconv : forall tr,
             Forall (fun a => is_conversation_action a = true) tr ->
             forallb is_conversation_action tr = true).
  { intros tr Htr. apply forallb_forall. now apply Forall_forall. }
  assert (Hfail : forall (w1 : world) tr,
             log w1 = log w0 ++ tr ->
             Forall (fun a => is_conversation_action a = true) tr ->
             faults w1 = [] ->
             exists conv tail w',
               ((try_except
                   (call (StatusEdit
                            (py "An error occurred during discovery.")))
                   (fun _ => ret tt) ;; ret (Some tt)) w1)
               = (Val (Some tt), w')
               /\ log w'
                  = log w
                    ++ SendMessage chat_id (discovering_text search_query)
                         None message_id
                    :: conv ++ tail
               /\ forallb is_conversation_action conv = true
               /\ discovery_ending chat_id message_id search_query tail).
  { intros w1 tr Hl1 Htr Hf1. unfold bind, try_except.
    rewrite call_no_fault by exact Hf1. cbn [ret].
    exists tr, [StatusEdit discovery_error_text]. eexists.
    split; [reflexivity|]. split; [|split; [now apply Hconv|]].
    - cbn [log]. rewrite Hl1, Hl0, <- !app_assoc. reflexivity.
    - unfold discovery_ending. tauto. }
  unfold try_except at 1. unfold bind at 1. unfold bind at 1.
  destruct (start_conversation_quiet search_query w0 Hf0)
    as (tr1 & Hl1 & Htr1 & Hf1).
  destruct (start_conversation search_query w0) as [[current|e] w1];
    simpl in Hl1, Hf1; [|now apply (Hfail w1 tr1)].
  destruct (has_buttons current); cbn [negb].
  - unfold bind at 1.
    destruct (walk_quiet normalize_title (Z.to_nat MAX_PAGES_TO_SEARCH)
                (split_ws (lower search_query)) 1 current [] w1 Hf1)
      as (tr2 & Hl2 & Htr2 & Hf2).
    destruct (walk_bounded normalize_title (Z.to_nat MAX_PAGES_TO_SEARCH)
                (split_ws (lower search_query)) 1 current [] w1)
      as (p' & d' & w2 & clicks & E & _); [vm_compute; discriminate|].
    rewrite E in Hl2, Hf2 |- *. simpl in Hl2, Hf2. cbn [ret option_map fst snd].
    assert (Hl : log w2 = log w0 ++ tr1 ++ tr2)
      by now rewrite Hl2, Hl1, app_assoc.
    assert (Htr : Forall (fun a => is_conversation_action a = true)
                    (tr1 ++ tr2)) by now apply Forall_app.
    destruct d' as [|kv d'].
    + unfold bind. rewrite call_no_fault by exact Hf2. cbn [ret].
      exists (tr1 ++ tr2), [StatusEdit (searched_text p' search_query)].
      eexists. split; [reflexivity|]. split; [|split; [now apply Hconv|]].
      * cbn [log]. rewrite Hl, Hl0, <- !app_assoc. reflexivity.
      * unfold discovery_ending. right. left. now exists p'.
    + unfold bind. rewrite call_no_fault by exact Hf2.
      rewrite call_no_fault by reflexivity. cbn [ret].
      exists (tr1 ++ tr2),
        [StatusDelete;
         SendMessage chat_id found_text
           (Some (menu_buttons (kv :: d'))) message_id].
      eexists. split; [reflexivity|]. split; [|split; [now apply Hconv|]].
      * cbn [log]. rewrite Hl, Hl0, <- !app_assoc. reflexivity.
      * unfold discovery_ending. right. right. left.
        exists (menu_buttons (kv :: d')).
        split; [discriminate|]. split; [apply menu_buttons_rows|].
        reflexivity.
  - unfold bind. rewrite call_no_fault by exact Hf1. cbn [ret].
    exists tr1, [StatusEdit (no_results_text search_query)].
    eexists. split; [reflexivity|]. split; [|split; [now apply Hconv|]].
    + cbn [log]. rewrite Hl1, Hl0, <- !app_assoc. reflexivity.
    + unfold discovery_ending. now left.
Qed.

(** The two pages for "inception" end with the menu. *)
Lemma discovery_ends_once_witness :
  exists conv tail w',
    @discovery_agent ascii_unicode (firstn 9) 5 6 (py "inception")
      two_page_world = (Val (Some tt), w')
    /\ log w'
       = SendMessage 5 (discovering_text (py "inception")) None 6
         :: conv ++ tail
    /\ discovery_ending 5 6 (py "inception") tail.
Proof.
  destruct (@discovery_ends_once ascii_unicode (firstn 9) 5 6
              (py "inception") two_page_world eq_refl)
    as (conv & tail & w' & E & Hl & _ & He).
  exists conv, tail, w'. split; [exact E|]. split; [exact Hl | exact He].
Defined.

Lemma feed_nonempty (stream : list (pystr * entry)) :
  stream <> [] -> feed [] stream <> [].
Proof.
  intros Hs Hd. pose proof (feed_keys stream []) as H.
  rewrite Hd in H. destruct stream as [|[k c] stream]; [contradiction|].
  simpl in H. discriminate.
Qed.

(** X6. A walk that stops early still serves what it gathered.  Let the
    sends succeed and the first response be no gate and show buttons, one
    of which passes the filter of the loop body.  Then, whatever edits
    arrive or fail to arrive afterwards, the run ends by deleting the
    status line and sending the menu of the aggregator fed with the pages
    that did arrive. *)
Theorem partial_results_served {U : Unicode}
  (normalize_title : pystr -> pystr) (chat_id message_id : Z)
  (search_query : pystr) (w : world) (current : message)
  (rs : list (exn + message)) :
  faults w = [] ->
  responses w = inr current :: rs ->
  is_gate current = false ->
  has_buttons current = true ->
  page_candidates normalize_title (split_ws (lower search_query)) 1
    (flat_buttons current) <> [] ->
  exists later rest before w',
    discovery_agent normalize_title chat_id message_id search_query w
    = (Val (Some tt), w')
    /\ edits w = map inr later ++ rest
    /\ log w'
       = before
         ++ [StatusDelete;
             SendMessage chat_id found_text
               (Some (menu_buttons
                        (feed []
                           (pages_candidates normalize_title
                              (split_ws (lower search_query)) 1
                              (current :: later)))))
               message_id]
    /\ feed []
         (pages_candidates normalize_title (split_ws (lower search_query)) 1
            (current :: later)) <> [].
Proof.
  intros Hf Hr Hg Hb Hc. unfold discovery_agent.
  unfold bind at 1. rewrite call_no_fault by exact Hf.
  unfold try_except at 1. do 2 unfold bind at 1.
  unfold start_conversation. unfold bind at 1.
  rewrite call_no_fault by reflexivity.
  unfold bind at 1. rewrite call_no_fault by reflexivity.
  unfold bind at 1. unfold get_response at 1. cbn [responses]. rewrite Hr.
  unfold pass_gate. rewrite Hg. cbn [ret]. rewrite Hb. cbn [negb].
  unfold bind at 1.
  match goal with
  | |- context [walk _ _ _ _ _ _ ?w1] =>
      destruct (@walk_visits U normalize_title
                  (Z.to_nat MAX_PAGES_TO_SEARCH)
                  (split_ws (lower search_query)) 1 current [] w1)
        as (later & rest & w2 & E & Hed & _);
        [vm_compute; discriminate | vm_compute; discriminate |];
      assert (Hf2 : faults w2 = [])
        by (pose proof (walk_quiet normalize_title
                          (Z.to_nat MAX_PAGES_TO_SEARCH)
                          (split_ws (lower search_query)) 1 current []
                          w1 eq_refl) as (tr & _ & _ & Q);
            rewrite E in Q; exact Q)
  end.
  rewrite E. cbn [ret option_map fst snd].
  assert (Hne : feed []
                  (pages_candidates normalize_title
                     (split_ws (lower search_query)) 1 (current :: later))
                <> []).
  { apply feed_nonempty. cbn [pages_candidates]. intros H.
    apply app_eq_nil in H. now destruct H. }
  destruct (feed [] (pages_candidates normalize_title
                       (split_ws (lower search_query)) 1 (current :: later)))
    as [|kv d] eqn:Ed; [contradiction|].
  unfold bind. rewrite call_no_fault by exact Hf2.
  rewrite call_no_fault by reflexivity. cbn [ret].
  exists later, rest, (log w2). eexists.
  split; [reflexivity|]. split; [exact Hed|].
  rewrite Ed. split; [|discriminate].
  cbn [log]. rewrite <- app_assoc. reflexivity.
Qed.

(** The first page has a match for "inception" and the only edit never
    arrives: the menu of the first page is served. *)
Lemma partial_results_served_witness :
  exists later w',
    @discovery_agent ascii_unicode (firstn 9) 5 6 (py "inception")
      (quiet [menu_page ["Inception 2010 720p"; "Next"]%string] [])
    = (Val (Some tt), w')
    /\ @feed []
         (pages_candidates (U := ascii_unicode) (firstn 9)
            [py "inception"] 1
            (menu_page ["Inception 2010 720p"; "Next"]%string :: later))
       <> [].
Proof.
  destruct (@partial_results_served ascii_unicode (firstn 9) 5 6
              (py "inception")
              (quiet [menu_page ["Inception 2010 720p"; "Next"]%string] [])
              (menu_page ["Inception 2010 720p"; "Next"]%string) []
              eq_refl eq_refl eq_refl eq_refl
              ltac:(vm_compute; discriminate))
    as (later & rest & before & w' & E & _ & _ & Hne).
  exists later, w'. split; [exact E | exact Hne].
Defined.

(** ** How an execution run ends *)

Section ExecutionFacts.
Context {U : Unicode}.

Lemma poll_file_never_sends (n : nat) (w : world) :
  log (snd (poll_file n w)) = log w /\ faults (snd (poll_file n w)) = faults w.
Proof.
  revert w. induction n as [|n IH]; intros w; cbn [poll_file].
  - split; reflexivity.
  - unfold bind, get_response.
    destruct (responses w) as [|[e|m] rs]; try (split; reflexivity).
    destruct (msg_media m); [split; reflexivity|].
    destruct (IH {| responses := rs; edits := edits w; faults := faults w;
                    log := log w |}) as [H1 H2].
    split; assumption.
Qed.

(** Every path through lines 257-274 ends in an exception: the click
    fails, the polling fails or gives up, or the name of line 269 is
    unbound. *)
Lemma deliver_raises (event : callback) (current : message)
  (target_page target_index : Z) (w : world) :
  exists e w',
    deliver event current target_page target_index w = (Exc e, w').
Proof.
  unfold deliver. unfold bind at 1.
  destruct (call (ClickIndex current target_index) w) as [[[]|e] w1];
    [|eauto].
  unfold bind at 1.
  destruct (poll_file 8 w1) as [[[final|]|e] w2]; [| |eauto].
  - eexists. eexists. reflexivity.
  - eexists. eexists. reflexivity.
Qed.

Lemma retrieve_raises (event : callback) (query : pystr)
  (target_page target_index : Z) (w : world) :
  exists e w',
    retrieve event query target_page target_index w = (Exc e, w').
Proof.
  unfold retrieve. unfold bind at 1.
  destruct (start_conversation query w) as [[current|e] w1]; [|eauto].
  unfold bind at 1.
  destruct (replay_next (Z.to_nat (target_page - 1)) current w1)
    as [[target|e] w2]; [|eauto].
  apply deliver_raises.
Qed.

Lemma retrieve_converses (event : callback) (query : pystr)
  (target_page target_index : Z) :
  emits (fun a => is_conversation_action a = true)
    (retrieve event query target_page target_index).
Proof.
  unfold retrieve.
  apply emits_bind;
    [apply start_conversation_emits; intros; reflexivity | intros current].
  apply emits_bind;
    [apply replay_next_emits; intros; reflexivity | intros target].
  unfold deliver.
  apply emits_bind; [apply emits_call; reflexivity | intros _].
  apply emits_bind; [apply poll_file_emits | intros [final|]].
  - apply emits_bind_raise.
  - apply emits_raise.
Qed.

Lemma retrieve_opens (event : callback) (query : pystr)
  (target_page target_index : Z) (w : world) :
  faults w = [] ->
  exists conv,
    log (snd (retrieve event query target_page target_index w))
    = log w ++ OpenConversation :: ConvSend query :: conv
    /\ Forall (fun a => is_conversation_action a = true) conv.
Proof.
  intros Hf.
  set (rest := (current <- (current <- get_response ;; pass_gate current) ;;
                current <- replay_next (Z.to_nat (target_page - 1)) current ;;
                deliver event current target_page target_index)).
  assert (Hrest : emits (fun a => is_conversation_action a = true) rest).
  { unfold rest.
    apply emits_bind.
    { apply emits_bind; [apply emits_get_response | intros current].
      apply pass_gate_emits; intros; reflexivity. }
    intros current.
    apply emits_bind;
      [apply replay_next_emits; intros; reflexivity | intros target].
    unfold deliver.
    apply emits_bind; [apply emits_call; reflexivity | intros _].
    apply emits_bind; [apply poll_file_emits | intros [final|]].
    - apply emits_bind_raise.
    - apply emits_raise. }
  assert (E : retrieve event query target_page target_index w
              = rest {| responses := responses w; edits := edits w;
                        faults := [];
                        log := (log w ++ [OpenConversation])
                               ++ [ConvSend query] |}).
  { unfold retrieve, start_conversation. unfold bind at 1 2.
    rewrite call_no_fault by exact Hf. unfold bind at 1.
    rewrite call_no_fault by reflexivity. reflexivity. }
  rewrite E.
  match goal with
  | |- context [rest ?w2] => destruct (Hrest w2) as (conv & Hlog & Hconv)
  end.
  exists conv. split; [|exact Hconv].
  rewrite Hlog. cbn [log]. now rewrite <- !app_assoc.
Qed.

(** Lines 236-281 when the sends succeed: the retrieval fails, the
    handler of line 276 shows the error line, and nothing is raised. *)
Lemma retrieve_or_report_ends (event : callback) (query : pystr)
  (target_page target_index : Z) (w : world) :
  faults w = [] ->
  exists conv w',
    retrieve_or_report event query target_page target_index w = (Val tt, w')
    /\ log w'
       = log w ++ OpenConversation :: ConvSend query :: conv
         ++ [EventEdit retrieval_error_text]
    /\ Forall (fun a => is_conversation_action a = true) conv.
Proof.
  intros Hf. unfold retrieve_or_report. unfold try_except at 1.
  destruct (retrieve_raises event query target_page target_index w)
    as (e & w1 & E).
  destruct (@retrieve_opens event query target_page target_index w Hf)
    as (conv & Hlog & Hconv).
  rewrite E in *. cbn [snd] in Hlog.
  exists conv. unfold try_except, call.
  destruct (faults w1) as [|[e'|] fs]; eexists;
    (split; [reflexivity|]); cbn [log]; rewrite Hlog, <- app_assoc;
    (split; [reflexivity | exact Hconv]).
Qed.

End ExecutionFacts.

(** X7. A selection that decodes and whose request is found never ends
    well.  When the sends succeed, [execution_agent] shows the fetching
    line, sends the text of the request to the remote bot, goes on with
    that conversation, and then overwrites the fetching line with the
    error line; it returns without raising, and between the two lines it
    acts on the conversation only: nothing is forwarded and the menu
    message is not deleted. *)
Theorem accepted_selection_ends_in_error {U : Unicode} (event : callback)
  (w : world) (target_page target_index : Z) (query : pystr) :
  faults w = [] ->
  decode_token (or_empty (cb_data event))
  = inr (Some (target_page, target_index)) ->
  request_text event = Some query ->
  exists conv w',
    execution_agent event w = (Val tt, w')
    /\ log w'
       = log w
         ++ EventEdit (fetching_text (chosen_title_of event))
            :: OpenConversation :: ConvSend query :: conv
         ++ [EventEdit retrieval_error_text]
    /\ Forall (fun a => is_conversation_action a = true) conv.
Proof.
  intros Hf Hd Hq. unfold execution_agent.
  unfold bind at 1. unfold try_except at 1. unfold bind at 1.
  rewrite Hd. cbn [lift_exn ret].
  unfold request_text in Hq.
  destruct (cb_message event) as [reply_message|]; [|discriminate].
  destruct (menu_reply reply_message) as [[[[|c q]|] bs md]|];
    try discriminate.
  injection Hq as <-.
  unfold bind at 1. unfold try_except at 1.
  rewrite call_no_fault by exact Hf.
  match goal with
  | |- context [retrieve_or_report ?ev ?q ?p ?i ?w1] =>
      destruct (@retrieve_or_report_ends U ev q p i w1 eq_refl)
        as (conv & w' & E & Hlog & Hconv)
  end.
  exists conv, w'. split; [exact E|]. split; [|exact Hconv].
  rewrite Hlog. cbn [log]. rewrite <- app_assoc. reflexivity.
Qed.

(** The click on the only page is answered with a note and the file: the
    run ends in the error line. *)
Lemma accepted_selection_ends_in_error_witness :
  exists conv w',
    @execution_agent ascii_unicode (click_event "get:1:0") delivery_world
    = (Val tt, w')
    /\ log w'
       = log delivery_world
         ++ EventEdit (fetching_text
                         (@chosen_title_of (click_event "get:1:0")))
            :: OpenConversation :: ConvSend (py "inception") :: conv
         ++ [EventEdit retrieval_error_text]
    /\ Forall (fun a => is_conversation_action a = true) conv.
Proof.
  apply (@accepted_selection_ends_in_error ascii_unicode
           (click_event "get:1:0") delivery_world 1 0 (py "inception"));
    vm_compute; reflexivity.
Defined.

(** X8. A selection that decodes, on a menu whose request is gone or has
    no text, is answered with one alert, "Original request not found.",
    when the sends succeed; the remote bot is not contacted and the menu
    is left as it is. *)
Theorem lost_request_is_reported {U : Unicode} (event : callback)
  (w : world) (target_page target_index : Z) (reply_message : menu) :
  faults w = [] ->
  decode_token (or_empty (cb_data event))
  = inr (Some (target_page, target_index)) ->
  cb_message event = Some reply_message ->
  request_text event = None ->
  exists w',
    execution_agent event w = (Val tt, w')
    /\ log w' = log w ++ [Answer (Some request_lost_text) true].
Proof.
  intros Hf Hd Hm Hq. unfold execution_agent.
  unfold bind at 1. unfold try_except at 1. unfold bind at 1.
  rewrite Hd. cbn [lift_exn ret].
  unfold request_text in Hq. rewrite Hm in *.
  destruct (menu_reply reply_message) as [[[[|c q]|] bs md]|];
    try discriminate;
    rewrite call_no_fault by exact Hf; eexists; split; reflexivity.
Qed.

Lemma lost_request_is_reported_witness :
  exists w',
    @execution_agent ascii_unicode (orphan_click "get:2:3") (quiet [] [])
    = (Val tt, w')
    /\ log w' = log (quiet [] []) ++ [Answer (Some request_lost_text) true].
Proof.
  apply (@lost_request_is_reported ascii_unicode (orphan_click "get:2:3")
           (quiet [] []) 2 3
           {| menu_rows := Some []; menu_reply := None |});
    vm_compute; reflexivity.
Defined.

(** X9. When the sends succeed, [execution_agent] raises in one case
    only: the token decodes and the message of the click can no longer be
    read.  The exception is the [AttributeError] of line 226, outside both
    [try] blocks, and nothing was shown to the user before it. *)
Theorem execution_agent_raises_iff {U : Unicode} (event : callback)
  (w : world) :
  faults w = [] ->
  forall e w',
    execution_agent event w = (Exc e, w')
    <-> ((exists target_page target_index,
            decode_token (or_empty (cb_data event))
            = inr (Some (target_page, target_index)))
         /\ cb_message event = None
         /\ e = AttributeError /\ w' = w).
Proof.
  intros Hf e w'. unfold execution_agent.
  unfold bind at 1. unfold try_except at 1. unfold bind at 1.
  destruct (decode_token (or_empty (cb_data event)))
    as [e0 | [[p i]|]] eqn:Hd; cbn [lift_exn ret raise].
  - unfold bind. rewrite call_no_fault by exact Hf. cbn [ret].
    split; [discriminate | intros ((p & i & H) & _); discriminate].
  - destruct (cb_message event) as [reply_message|] eqn:Hm.
    + split; [|intros (_ & H & _); discriminate].
      destruct (menu_reply reply_message) as [[[[|c q]|] bs md]|];
        try (rewrite call_no_fault by exact Hf; discriminate).
      unfold bind at 1. unfold try_except at 1.
      rewrite call_no_fault by exact Hf.
      match goal with
      | |- context [retrieve_or_report ?ev ?q ?p ?i ?w1] =>
          destruct (@retrieve_or_report_ends U ev q p i w1 eq_refl)
            as (conv & w2 & E & _)
      end.
      rewrite E. discriminate.
    + unfold raise. split.
      * intros H. injection H as <- <-. repeat split. now exists p, i.
      * intros (_ & _ & -> & ->). reflexivity.
  - unfold bind. rewrite call_no_fault by exact Hf. cbn [ret].
    split; [discriminate | intros ((p & i & H) & _); discriminate].
Qed.

Lemma execution_agent_raises_iff_witness :
  @execution_agent ascii_unicode (lost_click "get:2:3") (quiet [] [])
  = (Exc AttributeError, quiet [] []).
Proof.
  apply (@execution_agent_raises_iff ascii_unicode (lost_click "get:2:3")
           (quiet [] []) eq_refl).
  repeat split. exists 2%Z, 3%Z. vm_compute. reflexivity.
Defined.

(** ** Polling for the file *)

Lemma poll_file_skips (n : nat) :
  forall (skipped : list message) (rest : list (exn + message)) (w : world),
    responses w = map inr skipped ++ rest ->
    length skipped = n ->
    Forall (fun m => msg_media m = None) skipped ->
    poll_file n w
    = (Val None, {| responses := rest; edits := edits w;
                    faults := faults w; log := log w |}).
Proof.
  induction n as [|n IH]; intros skipped rest w Hr Hn Hs.
  - destruct skipped; [|discriminate]. simpl in Hr. rewrite <- Hr.
    destruct w; reflexivity.
  - destruct skipped as [|m skipped]; [discriminate|].
    inversion Hs as [|? ? Hm Hs']; subst.
    cbn [poll_file]. unfold bind, get_response.
    simpl in Hr. rewrite Hr, Hm.
    rewrite (IH skipped rest); cbn [responses edits faults log]; auto.
Qed.

Lemma poll_file_finds (n : nat) :
  forall (skipped : list message) (file : message)
         (rest : list (exn + message)) (w : world),
    responses w = map inr skipped ++ inr file :: rest ->
    length skipped < n ->
    Forall (fun m => msg_media m = None) skipped ->
    msg_media file <> None ->
    poll_file n w
    = (Val (Some file), {| responses := rest; edits := edits w;
                           faults := faults w; log := log w |}).
Proof.
  induction n as [|n IH]; intros skipped file rest w Hr Hn Hs Hfile;
    [lia|].
  cbn [poll_file]. unfold bind, get_response.
  destruct skipped as [|m skipped]; simpl in Hr; rewrite Hr.
  - destruct (msg_media file); [reflexivity | contradiction].
  - inversion Hs as [|? ? Hm Hs']; subst. rewrite Hm.
    rewrite (IH skipped file rest); cbn [responses edits faults log]; auto.
    simpl in Hn. lia.
Qed.

(** X10. After the click on the target, at most eight responses are
    looked at.  When the sends succeed and the first eight responses carry
    no media, the delivery raises [TimeoutError] with the message of line
    267, having taken exactly these eight and sent nothing but the click:
    what the remote bot sends ninth stays unread.  A file among the first
    eight ends the polling where it stands, and the responses after it
    stay unread. *)
Theorem delivery_gives_up_after_eight (event : callback)
  (current : message) (target_page target_index : Z) (w : world)
  (skipped : list message) (rest : list (exn + message)) :
  faults w = [] ->
  responses w = map inr skipped ++ rest ->
  Forall (fun m => msg_media m = None) skipped ->
  (length skipped = 8 ->
   deliver event current target_page target_index w
   = (Exc (TimeoutError
             "The source bot did not send a file after selection."),
      {| responses := rest; edits := edits w; faults := [];
         log := log w ++ [ClickIndex current target_index] |}))
  /\ (forall file rest',
        length skipped < 8 -> rest = inr file :: rest' ->
        msg_media file <> None ->
        poll_file 8 w
        = (Val (Some file),
           {| responses := rest'; edits := edits w; faults := faults w;
              log := log w |})).
Proof.
  intros Hf Hr Hs. split.
  - intros Hn. unfold deliver. unfold bind at 1.
    rewrite call_no_fault by exact Hf. unfold bind at 1.
    rewrite (@poll_file_skips 8 skipped rest) by (auto; exact Hr).
    reflexivity.
  - intros file rest' Hn -> Hfile.
    now apply (@poll_file_finds 8 skipped file rest').
Qed.

(** Eight notes and then the file: the file is never read. *)
Lemma delivery_gives_up_after_eight_witness :
  deliver (click_event "get:1:0") (menu_page ["A"]%string)
    1 0 (quiet (repeat (menu_page []) 8 ++ [file_message]) [])
  = (Exc (TimeoutError
            "The source bot did not send a file after selection."),
     {| responses := [inr file_message]; edits := []; faults := [];
        log := [ClickIndex (menu_page ["A"]%string) 0] |}).
Proof.
  apply (@delivery_gives_up_after_eight
           (click_event "get:1:0") (menu_page ["A"]%string) 1 0
           (quiet (repeat (menu_page []) 8 ++ [file_message]) [])
           (repeat (menu_page []) 8) [inr file_message]
           eq_refl eq_refl);
    [repeat constructor | reflexivity].
Defined.

(** ** The join gate *)

(** X11. Passing the gate is best effort and never aborts a run:
    [pass_gate] always returns a message.  It returns the message it was
    given, in an unchanged world, when that message is no gate; and it
    returns another message only when the gate was clicked, the two
    seconds were waited, and that message is the next response of the
    remote bot. *)
Theorem gate_never_aborts {U : Unicode} (current : message) (w : world) :
  exists m w',
    pass_gate current w = (Val m, w')
    /\ (is_gate current = false -> m = current /\ w' = w)
    /\ (m <> current ->
        is_gate current = true
        /\ (exists rs, responses w = inr m :: rs /\ responses w' = rs)
        /\ log w' = log w ++ [ClickIndex current 0; Sleep 2]).
Proof.
  unfold pass_gate. destruct (is_gate current).
  - unfold try_except, bind, call, sleep, get_response.
    destruct (faults w) as [|[e|] fs]; cbn [responses edits faults log].
    + destruct (responses w) as [|[e|m] rs]; eexists; eexists;
        (split; [reflexivity|]); (split; [discriminate|]);
        intros H; try contradiction.
      split; [reflexivity|]. split; [now exists rs|].
      cbn [log]. now rewrite <- app_assoc.
    + eexists; eexists. split; [reflexivity|]. split; [discriminate|].
      intros H; contradiction.
    + destruct (responses w) as [|[e|m] rs]; eexists; eexists;
        (split; [reflexivity|]); (split; [discriminate|]);
        intros H; try contradiction.
      split; [reflexivity|]. split; [now exists rs|].
      cbn [log]. now rewrite <- app_assoc.
  - exists current, w. split; [reflexivity|]. split; [auto|].
    intros H; contradiction.
Qed.

(** ** Tokens of a menu *)

Lemma menu_tokens (distinct : dict entry) :
  map snd (concat (menu_buttons distinct))
  = map (fun kv : pystr * entry =>
           callback_data (page (snd kv)) (index (snd kv))) distinct.
Proof.
  unfold menu_buttons. induction distinct as [|[t e] d IH];
    [reflexivity|].
  cbn [map concat app snd]. now rewrite IH.
Qed.

Lemma callback_data_injective {U : Unicode} (p i p' i' : Z) :
  callback_data p i = callback_data p' i' -> p = p' /\ i = i'.
Proof.
  intros H. pose proof (decode_callback_data p i) as D.
  rewrite H, decode_callback_data in D. now injection D as -> ->.
Qed.

(** X12. No two rows of a menu carry the same token.  The entries the
    page loop returns belong to different titles, each one points at the
    button it was made from, and a button has one title; since tokens
    decode to the position they were made from, the tokens of the menu
    built from these entries are pairwise different. *)
Theorem menu_tokens_distinct {U : Unicode}
  (normalize_title : pystr -> pystr) (search_words : list pystr)
  (current : message) (w : world) :
  exists page_num distinct w',
    walk normalize_title (Z.to_nat MAX_PAGES_TO_SEARCH) search_words 1
      current [] w
    = (Val (Some (page_num, distinct)), w')
    /\ NoDup (map fst distinct)
    /\ NoDup (map snd (concat (menu_buttons distinct))).
Proof.
  destruct (@walk_visits U normalize_title (Z.to_nat MAX_PAGES_TO_SEARCH)
              search_words 1 current [] w)
    as (later & rest & w' & E & _ & _);
    [vm_compute; discriminate | vm_compute; discriminate |].
  eexists. eexists. exists w'. split; [exact E|].
  set (stream := pages_candidates normalize_title search_words 1
                   (current :: later)).
  assert (Hkeys : NoDup (map fst (feed [] stream)))
    by (apply feed_nodup; constructor).
  split; [exact Hkeys|].
  rewrite menu_tokens. apply NoDup_map_NoDup_ForallPairs;
    [|exact (NoDup_map_inv _ _ Hkeys)].
  intros [t1 e1] [t2 e2] H1 H2 Htok. cbn [snd] in Htok.
  apply callback_data_injective in Htok. destruct Htok as [Hp Hi].
  apply feed_entry_in_stream in H1, H2.
  apply in_pages_candidates in H1, H2.
  destruct H1 as (k1 & pg1 & b1 & Hk1 & Hp1 & _ & Hb1 & Hc1).
  destruct H2 as (k2 & pg2 & b2 & Hk2 & Hp2 & _ & Hb2 & Hc2).
  assert (k1 = k2) by lia. subst k2.
  rewrite Hk1 in Hk2. injection Hk2 as <-.
  rewrite Hi, Hb2 in Hb1. injection Hb1 as <-.
  rewrite Hp, Hi, Hc2 in Hc1. now injection Hc1 as -> ->.
Qed.

(** ** Labels of a menu *)

Lemma build_button_label_length (title : pystr)
  (year quality lang : option pystr) :
  length (build_button_label title year quality lang) <= MAX_LEN.
Proof.
  unfold build_button_label.
  destruct (Nat.ltb_spec MAX_LEN
              (length (joined_label title year quality lang)))
    as [Hlong | Hshort]; [|exact Hshort].
  pose proof (rstrip_length
                (firstn (MAX_LEN - 1)
                   (joined_label title year quality lang))) as Hlen.
  rewrite length_firstn in Hlen. rewrite length_app. cbn [length].
  unfold MAX_LEN in *. lia.
Qed.

Lemma sanitize_length (text : pystr) :
  1 <= length (sanitize_button_text_keep_basic_punct text)
  /\ (length (sanitize_button_text_keep_basic_punct text) <= length text
      \/ sanitize_button_text_keep_basic_punct text = py "Untitled").
Proof.
  unfold sanitize_button_text_keep_basic_punct.
  destruct (strip (filter allowed text)) as [|c s] eqn:E.
  - split; [cbn; lia | now right].
  - split; [cbn [length]; lia | left].
    rewrite <- E. unfold strip.
    pose proof (rstrip_length (lstrip (filter allowed text))).
    pose proof (lstrip_length (filter allowed text)).
    pose proof (filter_length_le allowed text).
    unfold pystr, char in *. lia.
Qed.

(** X13. Every label of a menu has between 1 and 60 characters: the
    builder keeps to [MAX_LEN], and sanitation only removes characters
    from the label or replaces it by the placeholder. *)
Theorem menu_labels_fit (distinct : dict entry) :
  Forall (fun row : list (pystr * pystr) =>
            Forall (fun b => 1 <= length (fst b) <= MAX_LEN) row)
    (menu_buttons distinct).
Proof.
  unfold menu_buttons. apply Forall_forall. intros row Hrow.
  apply in_map_iff in Hrow. destruct Hrow as ([title e] & <- & _).
  constructor; [|constructor]. cbn [fst].
  pose proof (build_button_label_length title (year e) (qlabel e) (lang e))
    as Hb.
  destruct (sanitize_length
              (build_button_label title (year e) (qlabel e) (lang e)))
    as [H1 [H2 | H2]].
  - lia.
  - split; [exact H1|]. rewrite H2. unfold MAX_LEN. cbn. lia.
Qed.

(** ** The message listener *)

Lemma lstrip_keeps (a b : pystr) (c : char) (b' : pystr) :
  b = c :: b' -> isspace c = false ->
  exists a', lstrip (a ++ b) = a' ++ b.
Proof.
  intros -> Hc. induction a as [|x a [a' IH]]; simpl.
  - exists []. now rewrite Hc.
  - destruct (isspace x); [now exists a' | now exists (x :: a)].
Qed.

(** Stripping leaves a prefix alone that begins and ends with a
    character that is no whitespace. *)
Lemma strip_keeps_prefix (p s : pystr) (c d : char) (p' q' : pystr) :
  p = c :: p' -> isspace c = false ->
  rev p = d :: q' -> isspace d = false ->
  exists s', strip (p ++ s) = p ++ s'.
Proof.
  intros Hp Hc Hr Hd. unfold strip.
  assert (E : lstrip (p ++ s) = p ++ s) by (subst p; simpl; now rewrite Hc).
  rewrite E. unfold rstrip. rewrite rev_app_distr.
  destruct (@lstrip_keeps (rev s) (rev p) d q' Hr Hd) as [a' Ha].
  rewrite Ha, rev_app_distr, rev_involutive. now exists (rev a').
Qed.

Lemma ascii_lowers_prefixes : @lowers_ascii_prefixes ascii_unicode.
Proof.
  intros p s _. exists (map ascii_lower_char s). apply map_app.
Qed.

Section ListenerFacts.
Context {U : Unicode}.
Variable normalize_title : pystr -> pystr.
Hypothesis lower_ascii : lowers_ascii_prefixes.

(** A text that, stripped and lowered, begins with a listed prefix changes
    nothing, whoever sent it. *)
Lemma listed_prefix_ignored (event : new_message) (w : world) :
  existsb (fun p => startswith
                      (lower (strip (or_empty (nm_raw_text event)))) p)
    bot_status_prefixes = true ->
  snd (private_message_listener normalize_title event w) = w.
Proof.
  intros H. unfold private_message_listener.
  destruct (negb (nm_is_private event)); [reflexivity|].
  destruct (strip (or_empty (nm_raw_text event))) as [|c text];
    [reflexivity|].
  destruct (match nm_message event with
            | Some m => fwd_from m || media m || via_bot_id m
            | None => false
            end); [reflexivity|].
  unfold bind. destruct (nm_sender event) as [e|s]; [reflexivity|].
  cbn [lift_exn ret].
  destruct (sender_bot s); [reflexivity|].
  destruct (startswith (c :: text) (py "/")); [reflexivity|].
  destruct (nm_is_reply event); [reflexivity|].
  rewrite H. reflexivity.
Qed.

Lemma capitalised_prefix_listed (p s : pystr) (c d : char)
  (p' q' : pystr) :
  p = c :: p' -> isspace c = false ->
  rev p = d :: q' -> isspace d = false ->
  Forall (fun c => (c < 128)%N) p ->
  In (map ascii_lower_char p) bot_status_prefixes ->
  existsb (fun x => startswith (lower (strip (p ++ s))) x)
    bot_status_prefixes = true.
Proof.
  intros Hp Hc Hr Hd Hascii Hin.
  destruct (strip_keeps_prefix s Hp Hc Hr Hd) as [s' ->].
  destruct (lower_ascii s' Hascii) as [r ->].
  apply existsb_exists. exists (map ascii_lower_char p).
  split; [exact Hin|]. apply startswith_app. now exists r.
Qed.

Lemma status_line_listed (line : pystr) :
  listed_status_line line ->
  existsb (fun x => startswith (lower (strip line)) x)
    bot_status_prefixes = true.
Proof.
  assert (Hascii : forall s : string,
             forallb (fun c => (c <? 128)%N) (py s) = true ->
             Forall (fun c => (c < 128)%N) (py s)).
  { intros s H. apply Forall_forall. intros c Hc.
    rewrite forallb_forall in H. now apply N.ltb_lt, H. }
  intros [[q ->] | [[q ->] | [-> | [-> | [[t ->] | ->]]]]].
  - change (discovering_text q)
      with (py "Discovering movies for"
            ++ (32%N :: quoted q ++ py "...")).
    eapply capitalised_prefix_listed; try reflexivity.
    + now apply Hascii.
    + cbn. auto 10.
  - change (no_results_text q)
      with (py "Sorry, no results" ++ (py " for " ++ quoted q ++ py ".")).
    eapply capitalised_prefix_listed; try reflexivity.
    + now apply Hascii.
    + cbn. auto 10.
  - change found_text
      with (py "I found the following"
            ++ py " distinct movies. Please choose one:").
    eapply capitalised_prefix_listed; try reflexivity.
    + now apply Hascii.
    + cbn. auto 10.
  - change discovery_error_text
      with (py "An error occurred" ++ py " during discovery.").
    eapply capitalised_prefix_listed; try reflexivity.
    + now apply Hascii.
    + cbn. auto 10.
  - change (fetching_text t)
      with (py "Fetching" ++ (32%N :: quoted (format_opt t) ++ py "...")).
    eapply capitalised_prefix_listed; try reflexivity.
    + now apply Hascii.
    + cbn. auto 10.
  - change retrieval_error_text
      with (py "An error occurred" ++ py " during retrieval.").
    eapply capitalised_prefix_listed; try reflexivity.
    + now apply Hascii.
    + cbn. auto 10.
Qed.

End ListenerFacts.

(** X14. The status lines do not start a search.  Let [str.lower] lower
    an ASCII prefix character by character.  Then a new message whose
    text is the line that announces a discovery, the line that reports no
    results, the line above the menu, the fetching line or one of the two
    error lines leaves the world as it is: no discovery is started and
    nothing is sent, whoever the sender is and whatever the message
    carries. *)
Theorem status_lines_start_nothing {U : Unicode}
  (normalize_title : pystr -> pystr) (event : new_message) (w : world)
  (line : pystr) :
  lowers_ascii_prefixes ->
  nm_raw_text event = Some line ->
  listed_status_line line ->
  snd (private_message_listener normalize_title event w) = w.
Proof.
  intros Hlower Htext Hline. apply listed_prefix_ignored.
  rewrite Htext. cbn [or_empty]. now apply status_line_listed.
Qed.

(** The announcement of a discovery for "inception", received as a plain
    private message. *)
Lemma status_lines_start_nothing_witness :
  snd (@private_message_listener ascii_unicode (firstn 9)
         (plain_message (discovering_text (py "inception"))) (quiet [] []))
  = quiet [] [].
Proof.
  apply (@status_lines_start_nothing ascii_unicode (firstn 9)
           (plain_message (discovering_text (py "inception"))) (quiet [] [])
           (discovering_text (py "inception"))
           ascii_lowers_prefixes eq_refl).
  left. now exists (py "inception").
Defined.

Lemma strip_fixed (s : pystr) (c d : char) (s' x : pystr) :
  s = c :: s' -> isspace c = false ->
  s = x ++ [d] -> isspace d = false ->
  strip s = s.
Proof.
  intros Hs Hc Hx Hd. unfold strip.
  assert (E : lstrip s = s) by (rewrite Hs; simpl; now rewrite Hc).
  rewrite E. unfold rstrip. rewrite Hx at 1. rewrite rev_unit.
  simpl. rewrite Hd. simpl. now rewrite rev_involutive.
Qed.

Lemma discovery_agent_begins {U : Unicode}
  (normalize_title : pystr -> pystr) (chat_id message_id : Z)
  (search_query : pystr) (w : world) :
  exists tr,
    log (snd (discovery_agent normalize_title chat_id message_id
                search_query w))
    = log w
      ++ SendMessage chat_id (discovering_text search_query) None message_id
         :: tr.
Proof.
  unfold discovery_agent. unfold bind at 1.
  destruct (call_cases
              (SendMessage chat_id
                 (py "Discovering movies for " ++ quoted search_query
                  ++ py "...") None message_id) w)
    as (r & w1 & Ec & Hlog & _).
  rewrite Ec. destruct r as [[]|e].
  - match goal with
    | |- context [try_except ?m ?h w1] =>
        assert (H : emits (fun _ => True) (try_except m h))
    end.
    { apply emits_try.
      - apply emits_bind.
        + apply emits_bind;
            [apply start_conversation_emits; intros; exact I
            | intros current].
          destruct (negb (has_buttons _)).
          * repeat (emits_step; try exact I).
          * apply emits_bind; [apply walk_emits; intros; exact I | intros ?].
            apply emits_ret.
        + intros [[| page_num [| kv distinct]] |];
            repeat (emits_step; try exact I).
      - intros e. repeat (emits_step; try exact I). }
    destruct (H w1) as (tr & E & _). exists tr.
    rewrite E, Hlog, <- app_assoc. reflexivity.
  - exists []. cbn [snd]. exact Hlog.
Qed.

(** X15. One status line is not on the list of line 309.  Let
    [str.lower] lower an ASCII prefix character by character.  A private
    message from a person, no reply and nothing attached, whose text is
    the line "Searched n pages, but couldn't find relevant movies for
    ..." passes every check: the listener starts a discovery with the
    whole line as the query, and the first thing sent is the announcement
    of that discovery as a reply to the message. *)
Theorem searched_line_starts_a_search {U : Unicode}
  (normalize_title : pystr -> pystr) (event : new_message) (w : world)
  (page_num : Z) (q : pystr) :
  lowers_ascii_prefixes ->
  unsolicited event ->
  nm_raw_text event = Some (searched_text page_num q) ->
  exists tr w',
    private_message_listener normalize_title event w = (Val tt, w')
    /\ log w'
       = log w
         ++ SendMessage (nm_chat_id event)
              (discovering_text (searched_text page_num q)) None
              (nm_id event)
            :: tr.
Proof.
  intros Hlower (Hpriv & Hflags & (s & Hsender & Hbot) & Hreply) Htext.
  unfold private_message_listener.
  rewrite Hpriv, Htext, Hflags, Hsender, Hreply. cbn [negb or_empty].
  assert (Hhead : exists rest,
             searched_text page_num q = py "Se" ++ rest)
    by (eexists; reflexivity).
  destruct Hhead as [rest Hhead].
  assert (Hstrip : strip (searched_text page_num q)
                   = searched_text page_num q).
  { apply (@strip_fixed _ 83%N 46%N (101%N :: rest)
             (py "Searched " ++ str_of_int page_num
              ++ py " pages, but couldn" ++ [8217%N]
              ++ py "t find relevant movies for " ++ [ldquo] ++ q
              ++ [rdquo]));
      [exact Hhead | reflexivity | | reflexivity].
    unfold searched_text, quoted. rewrite <- !app_assoc. reflexivity. }
  rewrite Hstrip.
  destruct (Hlower (py "Se") rest) as [r Hr];
    [repeat constructor|].
  assert (Hcommand : startswith (searched_text page_num q) (py "/") = false)
    by reflexivity.
  assert (Hlisted : existsb
                      (fun p => startswith
                                  (lower (searched_text page_num q)) p)
                      bot_status_prefixes = false)
    by (rewrite Hhead, Hr; reflexivity).
  rewrite Hcommand, Hlisted. clear Hcommand Hlisted Hstrip Hr Htext.
  set (line := searched_text page_num q) in *.
  destruct line as [|c line]; [discriminate Hhead|].
  unfold bind at 1. cbn [lift_exn ret]. rewrite Hbot.
  unfold create_task, try_except. unfold bind at 1.
  destruct (discovery_agent_begins normalize_title (nm_chat_id event)
              (nm_id event) (c :: line) w) as [tr Hlog].
  destruct (discovery_agent normalize_title (nm_chat_id event)
              (nm_id event) (c :: line) w)
    as [[r0|e] w1]; exists tr, w1; (split; [reflexivity | exact Hlog]).
Qed.

Lemma searched_line_starts_a_search_witness :
  exists tr w',
    @private_message_listener ascii_unicode (firstn 9)
      (plain_message (searched_text 3 (py "inception"))) (quiet [] [])
    = (Val tt, w')
    /\ log w'
       = log (quiet [] [])
         ++ SendMessage 5
              (discovering_text (searched_text 3 (py "inception"))) None 6
            :: tr.
Proof.
  apply (@searched_line_starts_a_search ascii_unicode (firstn 9)
           (plain_message (searched_text 3 (py "inception"))) (quiet [] [])
           3 (py "inception") ascii_lowers_prefixes).
  - repeat split. exists (UserSender false). split; reflexivity.
  - reflexivity.
Defined.

(** ** Start-up *)

(** X16. [main] never gets to serve an event.  Whatever the two clients
    answer at start-up, [main] ends in an exception before either
    [run_until_disconnected] is reached; when the log-in and both
    [get_me] succeed, the exception is the [NameError] of line 340, where
    [GROUP_CHAT_ID] is read and no such name is bound in the function or
    the module, and two lines were logged before it. *)
Theorem main_never_listens (env : startup) :
  exists tr e,
    main env = (tr, Exc e)
    /\ Forall (fun s => is_listening s = false) tr
    /\ (user_start env = None ->
        forall me_user me_bot,
          user_me env = inr (Some me_user) ->
          bot_me env = inr (Some me_bot) ->
          e = NameError "GROUP_CHAT_ID"
          /\ tr = [UserStart; GetMe false; GetMe true; LogInfo; LogInfo]).
Proof.
  unfold main.
  destruct (user_start env) as [e0|];
    [| destruct (user_me env) as [e1|[u|]];
       [| destruct (bot_me env) as [e2|[b|]]
        | destruct (bot_me env) as [e2|[b|]]]];
    eexists; eexists; (split; [reflexivity|]);
    (split; [repeat constructor|]);
    try discriminate;
    intros _ me_user me_bot H1 H2; try discriminate H1;
    try discriminate H2.
  split; reflexivity.
Qed.

(** ** Title normalizer *)

Section NormalizerFacts.
Context {U : Unicode} {W : Words}.

(** The lazy group of line 74 ends at the first marker. *)
Lemma title_before_first_marker (stem : pystr) :
  forall t, first_marker_after t stem -> title_before t = Some stem.
Proof.
  induction stem as [|c stem IH]; intros t (rest & Ht & Hm & Hnl & Hfirst).
  - simpl in Ht. subst t. destruct rest as [|c rest]; [discriminate Hm|].
    cbn [title_before]. now rewrite Hm.
  - subst t. pose proof (Hfirst 0 ltac:(simpl; lia)) as H0.
    cbn [skipn] in H0. cbn [app title_before]. cbn [app] in H0.
    rewrite H0.
    destruct (N.eqb_spec c 10) as [->|_]; [exfalso; apply Hnl; now left|].
    rewrite (IH (stem ++ rest)); [reflexivity|].
    exists rest. split; [reflexivity|]. split; [exact Hm|].
    split; [intros H; apply Hnl; now right|].
    intros i Hi. apply (Hfirst (S i)). simpl. lia.
Qed.

Lemma normalize_title_of_stem (text stem : pystr) :
  first_marker_after (strip_tag (lower text)) stem ->
  stem_title stem <> [] ->
  normalize_title text = str_title (strip (stem_title stem)).
Proof.
  intros Hfirst Hne. unfold normalize_title.
  rewrite (title_before_first_marker Hfirst).
  fold (stem_title stem). destruct (stem_title stem); congruence.
Qed.

End NormalizerFacts.

(** X17. Releases of one film get one key.  When, in two texts lowered
    and freed of a leading bracket tag, the first marker (a year, a
    resolution or a language word after whitespace) is preceded by the
    same stem, and lines 76-78 leave something of that stem, then
    [normalize_title] gives both texts the same key: the title-cased rest
    of the stem, whatever follows the markers. *)
Theorem releases_share_a_key {U : Unicode} {W : Words}
  (text text' stem : pystr) :
  first_marker_after (strip_tag (lower text)) stem ->
  first_marker_after (strip_tag (lower text')) stem ->
  stem_title stem <> [] ->
  normalize_title text = normalize_title text'
  /\ normalize_title text = str_title (strip (stem_title stem)).
Proof.
  intros H1 H2 Hne.
  rewrite (@normalize_title_of_stem U W text stem H1 Hne),
    (@normalize_title_of_stem U W text' stem H2 Hne).
  split; reflexivity.
Qed.

(** Two releases of "Inception", one with a tag in front. *)
Lemma releases_share_a_key_witness :
  @normalize_title ascii_unicode ascii_words (py "Inception 2010 720p")
  = @normalize_title ascii_unicode ascii_words
      (py "[HD] Inception 1080p Hindi")
  /\ @normalize_title ascii_unicode ascii_words (py "Inception 2010 720p")
     = py "Inception".
Proof.
  apply (@releases_share_a_key ascii_unicode ascii_words
           (py "Inception 2010 720p") (py "[HD] Inception 1080p Hindi")
           (py "inception")).
  - exists (py " 2010 720p"). split; [reflexivity|].
    split; [reflexivity|]. split.
    + vm_compute. intuition discriminate.
    + intros i Hi. do 9 (destruct i as [|i]; [reflexivity|]).
      simpl in Hi. lia.
  - exists (py " 1080p hindi"). split; [reflexivity|].
    split; [reflexivity|]. split.
    + vm_compute. intuition discriminate.
    + intros i Hi. do 9 (destruct i as [|i]; [reflexivity|]).
      simpl in Hi. lia.
  - vm_compute. discriminate.
Defined.

(** ** The callback listener *)

(** X18. No callback starts a retrieval.  Whatever the event and the
    world, the callback listener sends nothing but the empty
    acknowledgement: a selection in a private chat, the one case in which
    it is meant to hand over to [execution_agent], raises the [TypeError]
    of line 329 before anything is sent, and in every other case the
    acknowledgement is all that is sent. *)
Theorem no_callback_starts_a_retrieval {U : Unicode} (event : callback)
  (w : world) :
  exists tr,
    log (snd (private_callback_listener event w)) = log w ++ tr
    /\ if cb_is_private event
          && startswith (or_empty (cb_data event)) (py "get:")
       then tr = []
            /\ private_callback_listener event w = (Exc TypeError, w)
       else tr = [Answer None false].
Proof.
  destruct (cb_is_private event) eqn:Hp; cbn [andb].
  - destruct (startswith (or_empty (cb_data event)) (py "get:")) eqn:Hs.
    + exists []. rewrite (listener_prefixed event w Hp Hs).
      cbn [snd]. rewrite app_nil_r. repeat split.
    + exists [Answer None false]. rewrite (listener_no_prefix event w Hs).
      destruct (call_cases (Answer None false) w) as (r & w' & E & Hlog & _).
      rewrite E. split; [exact Hlog | reflexivity].
  - exists [Answer None false]. rewrite (listener_not_private event w Hp).
    destruct (call_cases (Answer None false) w) as (r & w' & E & Hlog & _).
    rewrite E. split; [exact Hlog | reflexivity].
Qed.

(** ** Exceptions of a discovery run *)

(** X19. One exception only leaves [discovery_agent]: that of the first
    send, at line 100, before the [try].  A run raises exactly when that
    send fails, it raises what the send raised, and nothing else was done;
    every later failure is caught at line 189. *)
Theorem discovery_raises_only_at_start {U : Unicode}
  (normalize_title : pystr -> pystr) (chat_id message_id : Z)
  (search_query : pystr) (w : world) (e : exn) (w' : world) :
  discovery_agent normalize_title chat_id message_id search_query w
  = (Exc e, w')
  <-> exists fs,
        faults w = Some e :: fs
        /\ w' = {| responses := responses w; edits := edits w;
                   faults := fs;
                   log := log w
                          ++ [SendMessage chat_id
                                (discovering_text search_query) None
                                message_id] |}.
Proof.
  unfold discovery_agent. unfold bind at 1. unfold call at 1.
  destruct (faults w) as [|[e0|] fs] eqn:Hf.
  - split; [|intros (fs' & H & _); discriminate H].
    unfold try_except at 1.
    match goal with
    | |- context [match ?m ?w1 with _ => _ end] =>
        destruct (m w1) as [[r|e1] w2]
    end; [discriminate|].
    unfold bind, try_except, call.
    destruct (faults w2) as [|[e2|] fs2]; discriminate.
  - split.
    + intros H. injection H as <- <-. now exists fs.
    + intros (fs' & H & ->). injection H as <- <-. reflexivity.
  - split; [|intros (fs' & H & _); discriminate H].
    unfold try_except at 1.
    match goal with
    | |- context [match ?m ?w1 with _ => _ end] =>
        destruct (m w1) as [[r|e1] w2]
    end; [discriminate|].
    unfold bind, try_except, call.
    destruct (faults w2) as [|[e2|] fs2]; discriminate.
Qed.

(** The agent run with the normalizer of lines 71-81: the four releases of
    "Inception" share one row, which carries the best of them, found on
    the second page; the other film keeps its own row. *)
Example releases_grouped_in_menu :
  last (log (snd (@discovery_agent ascii_unicode
                    (@normalize_title ascii_unicode ascii_words) 5 6
                    (py "inception") releases_world)))
    StatusDelete
  = SendMessage 5 found_text
      (Some [[(py "Inception - 2160p - Tamil", py "get:2:0")];
             [(py "The Inception Story - 480p", py "get:1:2")]])
      6.
Proof. vm_compute. reflexivity. Qed.
